(** * Mock hexapod robot servers: command protocol and session lifecycle

    A shallow embedding of [mock_robot/mock_robot_server.py] (WebSocket
    transport, mDNS advertisement) and [mock_robot/mock_bluetooth_server.py]
    (Bluetooth RFCOMM transport), followed by the properties of the command
    protocol, the session handlers, startup and shutdown.

    Conventions of the embedding.
    - Python [str] values are [string]s: sequences of characters with code
      points 0..255.  [str.strip] and [str.lower] are embedded as Python
      defines them on that range.  A string literal of the source is kept
      as the bytes the source file holds for it.
    - Python [int] is [Z].
    - Console output, socket calls and library calls are recorded, in program
      order, in a trace of [event]s.  Timestamps and colours of the log
      helpers are not recorded.
    - What the outside world answers (frames received, errors raised by the
      transport or by a library, how long a call takes) is an explicit script
      given to the embedded function.
    - Python exceptions are values of [exn]; a computation returns, raises,
      or never comes back from a blocking call ([outcome]).
      [try]/[except]/[finally] are combinators that follow Python's rules,
      including the class test of an [except] clause.
    - A WebSocket message is a text frame; the data of a Bluetooth [recv] is
      given with the result of its UTF-8 decoding. *)

From stdpp Require Import base decidable option list gmap strings pretty.
From Stdlib Require Import ZArith Ascii String Lia.

Open Scope string_scope.
Open Scope Z_scope.

(** ** Text: [str.strip] and [str.lower] *)

Module Text.

(** [str.isspace] for one character, on code points 0..255: TAB, LF, VT,
    FF, CR, the separators FS, GS, RS, US, the space, NEL and the
    no-break space. *)
Definition isspace (c : ascii) : bool :=
  let n := N_of_ascii c in
  ((9 <=? n) && (n <=? 13) || (28 <=? n) && (n <=? 32)
   || (n =? 133) || (n =? 160))%N.

(** [str.lower] for one character: the ASCII capitals and the Latin-1
    capitals (all of U+00C0..U+00DE but the multiplication sign) move up by
    32; every other character is unchanged. *)
Definition lower_char (c : ascii) : ascii :=
  let n := N_of_ascii c in
  if ((65 <=? n) && (n <=? 90)
      || (192 <=? n) && (n <=? 222) && negb (n =? 215))%N
  then ascii_of_N (n + 32) else c.

Fixpoint lower (s : string) : string :=
  match s with
  | EmptyString => EmptyString
  | String c s' => String (lower_char c) (lower s')
  end.

Fixpoint lstrip (s : string) : string :=
  match s with
  | EmptyString => EmptyString
  | String c s' => if isspace c then lstrip s' else s
  end.

Fixpoint rstrip (s : string) : string :=
  match s with
  | EmptyString => EmptyString
  | String c s' =>
      match rstrip s' with
      | EmptyString => if isspace c then EmptyString else String c EmptyString
      | r => String c r
      end
  end.

Definition strip (s : string) : string := rstrip (lstrip s).

(** [haystack.startswith(needle)] and the rest after the prefix. *)
Fixpoint strip_prefix (needle s : string) : option string :=
  match needle, s with
  | EmptyString, _ => Some s
  | String a n', String b s' =>
      if Ascii.eqb a b then strip_prefix n' s' else None
  | String _ _, EmptyString => None
  end.

(** [s.replace(old, new)] for a non-empty [old]: left to right, without
    overlaps.  [skip] counts the characters of a match still to be
    passed over. *)
Fixpoint replace_go (skip : nat) (old new s : string) : string :=
  match s with
  | EmptyString => EmptyString
  | String c s' =>
      match skip with
      | S k => replace_go k old new s'
      | O =>
          match strip_prefix old s with
          | Some _ => new +:+ replace_go (String.length old - 1) old new s'
          | None => String c (replace_go 0 old new s')
          end
      end
  end.

Definition replace (old new s : string) : string := replace_go 0 old new s.

(** [s * n]. *)
Fixpoint times (s : string) (n : nat) : string :=
  match n with O => EmptyString | S n' => s +:+ times s n' end.

Definition nl : string := String (ascii_of_N 10) EmptyString.

(** [str(b)] for a [bool]. *)
Definition str_bool (b : bool) : string := if b then "True" else "False".

End Text.

(** ** Exceptions, events and the effect monad *)

(** The exception classes the two servers can meet.  The first seven are
    subclasses of [Exception]; [KeyboardInterrupt], [SystemExit] and
    [asyncio.CancelledError] derive from [BaseException] only. *)
Inductive exn : Type :=
| ConnectionClosed (msg : string)
| BluetoothError (msg : string)
| TimeoutError (msg : string)
| OSError (msg : string)
| UnicodeDecodeError (msg : string)
| AttributeError (msg : string)
| OtherException (msg : string)
| KeyboardInterrupt
| SystemExit (code : Z)
| CancelledError.

(** [isinstance(e, Exception)]. *)
Definition is_Exception (e : exn) : bool :=
  match e with
  | KeyboardInterrupt | SystemExit _ | CancelledError => false
  | _ => true
  end.

Definition is_ConnectionClosed (e : exn) : bool :=
  match e with ConnectionClosed _ => true | _ => false end.

Definition is_BluetoothError (e : exn) : bool :=
  match e with BluetoothError _ => true | _ => false end.

Definition is_TimeoutError (e : exn) : bool :=
  match e with TimeoutError _ => true | _ => false end.

Definition is_KeyboardInterrupt (e : exn) : bool :=
  match e with KeyboardInterrupt => true | _ => false end.

Definition is_CancelledError (e : exn) : bool :=
  match e with CancelledError => true | _ => false end.

(** [str(e)], as interpolated in the log lines. *)
Definition exn_str (e : exn) : string :=
  match e with
  | ConnectionClosed m | BluetoothError m | TimeoutError m | OSError m
  | UnicodeDecodeError m | AttributeError m | OtherException m => m
  | KeyboardInterrupt | CancelledError => ""
  | SystemExit c => pretty c
  end.

Inductive level : Type := INFO | WARNING | ERROR.

(** Calls into the socket, discovery, signal and transport libraries. *)
Inductive lib_call : Type :=
| UdpSocket | UdpConnect (host : string) (port : Z) | UdpGetsockname | UdpClose
| ZeroconfNew | MakeServiceInfo | RegisterService | UnregisterService
| ZeroconfClose
| SignalSIGALRM (timeout_handler : bool) | SignalAlarm (seconds : N)
| Serve (host : string) (port : Z) | ServeExit
| BtSocket | BtBind | BtGetsockname | BtListen | BtAdvertise | BtAccept
| BtStopAdvertising | BtServerClose.

(** What a run leaves behind, in program order.  A connection is named by a
    number (the identity of the Python object). *)
Inductive event : Type :=
| Log (lv : level) (message : string)
| LogCommand (command client_addr : string)
| Print (text : string)
| Call (f : lib_call)
| Recv (conn : nat)
| Send (conn : nat) (payload : string)
| Close (conn : nat).

Global Instance exn_eq_dec : EqDecision exn.
Proof. solve_decision. Defined.
Global Instance level_eq_dec : EqDecision level.
Proof. solve_decision. Defined.
Global Instance lib_call_eq_dec : EqDecision lib_call.
Proof. solve_decision. Defined.
Global Instance event_eq_dec : EqDecision event.
Proof. solve_decision. Defined.

(** The part of the world outside the server object: the trace, a clock in
    milliseconds and the pending [signal.alarm] deadline, if any. *)
Record world : Type := World {
  trace : list event;
  clock : N;
  alarm : option N;
}.

Definition initial_world : world :=
  {| trace := []; clock := 0; alarm := None |}.

(** A computation returns, raises, or never comes back ([Hang]: a blocking
    library call that is never answered and never interrupted). *)
Inductive outcome (A : Type) : Type :=
| Return (a : A)
| Raise (e : exn)
| Hang.
Global Arguments Return {A} a.
Global Arguments Raise {A} e.
Global Arguments Hang {A}.

(** The answer to a blocking library call: how long it takes, in
    milliseconds ([None]: it never answers), whether it then raises, and
    what the library makes of an exception that a signal handler raises
    inside the call ([None]: the exception goes through the library
    unchanged; [Some e]: the library catches it and raises [e] instead, as
    zeroconf does with a [TimeoutError]). *)
Record timed_answer : Type := Answer {
  takes : option N;
  raises : option exn;
  when_interrupted : option exn;
}.

Definition M (S A : Type) : Type := S → world → outcome A * S * world.

Section Effects.
Context {S : Type}.

Definition ret {A} (a : A) : M S A := λ s w, (Return a, s, w).

Definition bind {A B} (m : M S A) (k : A → M S B) : M S B :=
  λ s w,
    match m s w with
    | (Return a, s', w') => k a s' w'
    | (Raise e, s', w') => (Raise e, s', w')
    | (Hang, s', w') => (Hang, s', w')
    end.

Definition raise {A} (e : exn) : M S A := λ s w, (Raise e, s, w).

Definition get : M S S := λ s w, (Return s, s, w).

Definition modify (f : S → S) : M S unit := λ s w, (Return tt, f s, w).

Definition emit (ev : event) : M S unit :=
  λ s w, (Return tt, s,
          {| trace := (trace w ++ [ev])%list; clock := clock w;
             alarm := alarm w |}).

(** A library call that answers at once: it returns ([None]) or raises. *)
Definition call (f : lib_call) (answer : option exn) : M S unit :=
  bind (emit (Call f))
       (λ _, match answer with None => ret tt | Some e => raise e end).

(** A library call that returns a value or raises. *)
Definition call_value {A} (f : lib_call) (answer : A + exn) : M S A :=
  bind (emit (Call f))
       (λ _, match answer with inl a => ret a | inr e => raise e end).

(** [sock.send(payload)] on connection [conn]. *)
Definition send (conn : nat) (payload : string) (answer : option exn)
  : M S unit :=
  bind (emit (Send conn payload))
       (λ _, match answer with None => ret tt | Some e => raise e end).

(** [signal.alarm(seconds)]: arms the alarm [seconds] from now, or cancels
    it when [seconds] is 0. *)
Definition signal_alarm (seconds : N) : M S unit :=
  λ s w, (Return tt, s,
          {| trace := (trace w ++ [Call (SignalAlarm seconds)])%list;
             clock := clock w;
             alarm := if (seconds =? 0)%N then None
                      else Some (clock w + 1000 * seconds)%N |}).

(** A blocking library call made while a SIGALRM handler that raises
    [on_alarm] is installed.  Left alone the call takes [takes] milliseconds
    ([None]: it is never answered) and then returns or raises [raises].  If
    the pending alarm comes due first, the handler runs inside the call and
    its exception is raised there: it leaves the call as it is, or as the
    exception the library turns it into ([when_interrupted]).  With no
    alarm pending, a call that is never answered never comes back. *)
Definition timed_call (f : lib_call) (a : timed_answer) (on_alarm : exn)
  : M S unit :=
  λ s w,
    let t := (trace w ++ [Call f])%list in
    let finish (d : N) :=
      (match raises a with None => Return tt | Some e => Raise e end, s,
       {| trace := t; clock := (clock w + d)%N; alarm := alarm w |}) in
    let interrupted (deadline : N) :=
      (Raise (default on_alarm (when_interrupted a)), s,
       {| trace := t; clock := N.max (clock w) deadline; alarm := None |}) in
    match alarm w, takes a with
    | Some deadline, Some d =>
        if (clock w + d <? deadline)%N then finish d
        else interrupted deadline
    | Some deadline, None => interrupted deadline
    | None, Some d => finish d
    | None, None => (Hang, s, {| trace := t; clock := clock w; alarm := None |})
    end.

(** [try: body / except C1: h1 / except C2: h2 ...]: the first clause whose
    class test accepts the exception handles it; an exception no clause
    accepts goes on. *)
Fixpoint select_handler {A} (hs : list ((exn → bool) * (exn → M S A)))
         (e : exn) : M S A :=
  match hs with
  | [] => raise e
  | (test, h) :: hs' => if test e then h e else select_handler hs' e
  end.

Definition try_except {A} (body : M S A)
           (hs : list ((exn → bool) * (exn → M S A))) : M S A :=
  λ s w,
    match body s w with
    | (Raise e, s', w') => select_handler hs e s' w'
    | r => r
    end.

(** [try: body / finally: fin]: [fin] runs after [body] returned or raised
    and the outcome of [body] stands, unless [fin] itself raises. *)
Definition try_finally {A} (body : M S A) (fin : M S unit) : M S A :=
  λ s w,
    match body s w with
    | (Hang, s', w') => (Hang, s', w')
    | (o, s', w') =>
        match fin s' w' with
        | (Return _, s'', w'') => (o, s'', w'')
        | (Raise e, s'', w'') => (Raise e, s'', w'')
        | (Hang, s'', w'') => (Hang, s'', w'')
        end
    end.

(** The clause [except: pass]. *)
Definition except_pass : list ((exn → bool) * (exn → M S unit)) :=
  [((λ _, true), (λ _, ret tt))].

Definition log_info (message : string) : M S unit := emit (Log INFO message).
Definition log_warning (message : string) : M S unit :=
  emit (Log WARNING message).
Definition log_error (message : string) : M S unit :=
  emit (Log ERROR message).
Definition log_command (command client_addr : string) : M S unit :=
  emit (LogCommand command client_addr).
Definition print (text : string) : M S unit := emit (Print text).

End Effects.

Notation "'let!' x ':=' m 'in' k" := (bind m (λ x, k))
  (at level 10, x name, m at level 100, k at level 200).
Notation "m ';;' k" := (bind m (λ _, k))
  (at level 100, k at level 200, right associativity).

(** Valid robot commands (the set [VALID_COMMANDS] of both files). *)
Definition VALID_COMMANDS : gset string :=
  {[ "init"; "forward"; "backward"; "left"; "right" ]}.

Definition is_valid (command : string) : bool :=
  bool_decide (command ∈ VALID_COMMANDS).

(** ** [mock_robot_server.py] *)

Module MockRobotServer.
Import Text.

Definition WEBSOCKET_PORT : Z := 8080.
Definition MDNS_HOSTNAME : string := "robot-spider.local".
Definition MDNS_SERVICE_TYPE : string := "_http._tcp.local.".

(** *** [get_local_ip] *)

(** The answers of the four socket calls of the probe. *)
Record probe : Type := Probe {
  probe_socket : option exn;
  probe_connect : option exn;
  probe_getsockname : string + exn;
  probe_close : option exn;
}.

Definition get_local_ip {S} (p : probe) : M S string :=
  try_except
    (call UdpSocket (probe_socket p) ;;
     call (UdpConnect "8.8.8.8" 80) (probe_connect p) ;;
     let! local_ip := call_value UdpGetsockname (probe_getsockname p) in
     call UdpClose (probe_close p) ;;
     ret local_ip)
    [(is_Exception, λ _, ret "127.0.0.1")].

(** *** The server object *)

Record ServiceInfo : Type := MkServiceInfo {
  si_type : string;
  si_name : string;
  si_addresses : list string;
  si_port : Z;
  si_server : string;
}.

(** [zeroconf] holds [Some tt] once [Zeroconf()] has returned. *)
Record server : Type := Server {
  send_acks : bool;
  connected_clients : gset nat;
  command_count : Z;
  zeroconf : option unit;
  service_info : option ServiceInfo;
}.

(** [MockRobotServer.__init__]. *)
Definition init (acks : bool) : server :=
  {| send_acks := acks; connected_clients := ∅; command_count := 0;
     zeroconf := None; service_info := None |}.

Definition set_connected_clients (f : gset nat → gset nat) (self : server)
  : server :=
  {| send_acks := send_acks self;
     connected_clients := f (connected_clients self);
     command_count := command_count self;
     zeroconf := zeroconf self; service_info := service_info self |}.

Definition set_command_count (f : Z → Z) (self : server) : server :=
  {| send_acks := send_acks self;
     connected_clients := connected_clients self;
     command_count := f (command_count self);
     zeroconf := zeroconf self; service_info := service_info self |}.

Definition set_zeroconf (z : option unit) (self : server) : server :=
  {| send_acks := send_acks self;
     connected_clients := connected_clients self;
     command_count := command_count self;
     zeroconf := z; service_info := service_info self |}.

Definition set_service_info (i : option ServiceInfo) (self : server)
  : server :=
  {| send_acks := send_acks self;
     connected_clients := connected_clients self;
     command_count := command_count self;
     zeroconf := zeroconf self; service_info := i |}.

(** *** [handle_client] *)

Record websocket : Type := WebSocket {
  ws_id : nat;
  remote_address : string * Z;
}.

(** One text frame received from the client, with the answer a
    [websocket.send] would get while it is processed. *)
Record frame : Type := Frame {
  text : string;
  send_answer : option exn;
}.

(** What the client does during one session: the frames it sends, and how
    the iteration over the connection ends: it stops ([None], the
    connection was closed normally) or raises. *)
Record session : Type := Session {
  frames : list frame;
  ending : option exn;
}.

(** The body of [async for message in websocket]. *)
Definition handle_message (ws : websocket) (client_addr : string)
           (f : frame) : M server unit :=
  let command := lower (strip (text f)) in
  if is_valid command then
    log_command command client_addr ;;
    modify (set_command_count (λ n, n + 1)) ;;
    let! self := get in
    if send_acks self then
      let ack_message := "OK:" +:+ command in
      send (ws_id ws) ack_message (send_answer f) ;;
      print ("  â†’ Sent ACK: " +:+ ack_message)
    else ret tt
  else
    log_warning ("Invalid command '" +:+ command +:+ "' from "
                 +:+ client_addr) ;;
    let! self := get in
    if send_acks self then
      send (ws_id ws) ("ERROR:Unknown command '" +:+ command +:+ "'")
           (send_answer f)
    else ret tt.

Fixpoint receive_loop (ws : websocket) (client_addr : string)
         (fs : list frame) (ending : option exn) : M server unit :=
  match fs with
  | [] =>
      emit (Recv (ws_id ws)) ;;
      match ending with None => ret tt | Some e => raise e end
  | f :: fs' =>
      emit (Recv (ws_id ws)) ;;
      handle_message ws client_addr f ;;
      receive_loop ws client_addr fs' ending
  end.

Definition client_addr_of (ws : websocket) : string :=
  fst (remote_address ws) +:+ ":" +:+ pretty (snd (remote_address ws)).

Definition log_total_clients : M server unit :=
  let! self := get in
  log_info ("Total connected clients: "
            +:+ pretty (size (connected_clients self))).

Definition handle_client (ws : websocket) (sess : session)
  : M server unit :=
  let client_addr := client_addr_of ws in
  modify (set_connected_clients (λ cs, {[ ws_id ws ]} ∪ cs)) ;;
  log_info ("Client connected: " +:+ client_addr) ;;
  log_total_clients ;;
  try_finally
    (try_except
       (receive_loop ws client_addr (frames sess) (ending sess))
       [(is_ConnectionClosed,
         λ _, log_info ("Client disconnected: " +:+ client_addr));
        (is_Exception,
         λ e, log_error ("Error handling client " +:+ client_addr +:+ ": "
                         +:+ exn_str e))])
    (modify (set_connected_clients (λ cs, cs ∖ {[ ws_id ws ]})) ;;
     log_total_clients).

(** *** [register_mdns] and [unregister_mdns] *)

(** The answers of the discovery library at registration:
    [Zeroconf()], building the [ServiceInfo] (with [socket.inet_aton]) and
    [register_service]. *)
Record registration : Type := Registration {
  zeroconf_new : option exn;
  make_service_info : option exn;
  register_service : option exn;
}.

Definition service_name : string :=
  replace ".local" "" MDNS_HOSTNAME +:+ "." +:+ MDNS_SERVICE_TYPE.

Definition register_mdns (ip_address : string) (r : registration)
  : M server unit :=
  try_except
    (call ZeroconfNew (zeroconf_new r) ;;
     modify (set_zeroconf (Some tt)) ;;
     call MakeServiceInfo (make_service_info r) ;;
     modify (set_service_info
               (Some {| si_type := MDNS_SERVICE_TYPE;
                        si_name := service_name;
                        si_addresses := [ip_address];
                        si_port := WEBSOCKET_PORT;
                        si_server := MDNS_HOSTNAME |})) ;;
     call RegisterService (register_service r) ;;
     log_info ("mDNS service registered as '" +:+ service_name +:+ "'") ;;
     log_info ("  Hostname: " +:+ MDNS_HOSTNAME))
    [(is_Exception,
      λ e, log_error ("Failed to register mDNS service: " +:+ exn_str e) ;;
           log_warning "Server will run without mDNS advertisement")].

(** The answers of the discovery library at retraction. *)
Record retraction : Type := Retraction {
  unregister_service : timed_answer;
  zeroconf_close : timed_answer;
}.

(** What [timeout_handler] raises. *)
Definition timeout_handler : exn := TimeoutError "mDNS unregister timeout".

Definition unregister_mdns (r : retraction) : M server unit :=
  let! self := get in
  match zeroconf self, service_info self with
  | Some _, Some _ =>
      try_except
        (call (SignalSIGALRM true) None ;;
         signal_alarm 2 ;;
         try_finally
           (timed_call UnregisterService (unregister_service r)
                       timeout_handler ;;
            timed_call ZeroconfClose (zeroconf_close r) timeout_handler ;;
            signal_alarm 0 ;;
            log_info "mDNS service unregistered")
           (call (SignalSIGALRM false) None))
        [(is_TimeoutError,
          λ _, log_warning
                 "mDNS unregistration timed out (service will expire naturally)");
         (is_Exception,
          λ e, log_warning ("mDNS cleanup error (service will expire): "
                            +:+ exn_str e))]
  | _, _ => ret tt
  end.

(** *** [start], [shutdown] and [main] *)

(** The world of one run of the server: the address probe, the discovery
    library, the bind made by [websockets.serve], the client sessions that
    take place while the server waits, and the retraction at shutdown.
    The wait on [asyncio.Future()] ends when the run is interrupted
    (Ctrl+C cancels the main task), or when the handler of a session stops
    the event loop. *)
Record run : Type := Run {
  run_probe : probe;
  run_registration : registration;
  run_bind : option exn;
  run_sessions : list (websocket * session);
  run_retraction : retraction;
}.

(** The exceptions a task re-raises into the event loop instead of
    keeping them ([Task.__step]). *)
Definition stops_loop (e : exn) : bool :=
  match e with
  | KeyboardInterrupt | SystemExit _ => true
  | _ => false
  end.

(** A connection handler runs as a task of its own: what it raises stays
    in the task, except for [KeyboardInterrupt] and [SystemExit], which
    stop the event loop. *)
Definition as_task (m : M server unit) : M server unit :=
  λ s w, match m s w with
         | (Return _, s', w') => (Return tt, s', w')
         | (Raise e, s', w') =>
             if stops_loop e then (Raise e, s', w') else (Return tt, s', w')
         | (Hang, s', w') => (Hang, s', w')
         end.

(** The handler tasks of the sessions that take place while the main task
    waits, one after the other.  When a task stops the event loop no other
    handler runs: [asyncio.run] cancels the main task where it waits, lets
    it run to its end ([start] closes the server, [main] runs [shutdown])
    and raises the exception of the task afterwards, where the script
    catches a [KeyboardInterrupt].  Here the exception of the task arrives
    where the main task waits, which gives the same events, the same server
    object and the same outcome of the script. *)
Fixpoint serve_sessions (l : list (websocket * session)) : M server unit :=
  match l with
  | [] => ret tt
  | (ws, sess) :: l' =>
      as_task (handle_client ws sess) ;; serve_sessions l'
  end.

Definition start (r : run) : M server unit :=
  let! local_ip := get_local_ip (run_probe r) in
  print (nl +:+ times "=" 60) ;;
  print "Mock Hexapod Robot Server" ;;
  print (times "=" 60) ;;
  log_info ("Local IP: " +:+ local_ip) ;;
  log_info ("WebSocket Port: " +:+ pretty WEBSOCKET_PORT) ;;
  log_info ("mDNS Service Name: " +:+ service_name) ;;
  log_info ("mDNS Hostname: " +:+ MDNS_HOSTNAME) ;;
  let! self := get in
  log_info ("Send Acknowledgments: " +:+ str_bool (send_acks self)) ;;
  print (times "=" 60 +:+ nl) ;;
  register_mdns local_ip (run_registration r) ;;
  log_info "WebSocket server starting..." ;;
  call (Serve "0.0.0.0" WEBSOCKET_PORT) (run_bind r) ;;
  try_finally
    (log_info "Server is running! Waiting for connections..." ;;
     log_info ("Press Ctrl+C to stop" +:+ nl) ;;
     try_except
       (serve_sessions (run_sessions r) ;; raise CancelledError)
       [(is_CancelledError, λ _, ret tt)])
    (call ServeExit None).

Definition shutdown (r : retraction) : M server unit :=
  log_info (nl +:+ "Shutting down server...") ;;
  unregister_mdns r ;;
  let! self := get in
  log_info ("Total commands processed: " +:+ pretty (command_count self)) ;;
  log_info "Server stopped".

(** [main] with the [--acks] flag given or not. *)
Definition main (acks : bool) (r : run) : world → outcome unit * server * world :=
  try_finally
    (try_except (start r) [(is_KeyboardInterrupt, λ _, ret tt)])
    (shutdown (run_retraction r))
    (init acks).

(** The script body: [asyncio.run(main())] under
    [except KeyboardInterrupt] and [except asyncio.CancelledError]. *)
Definition script (acks : bool) (r : run)
  : world → outcome unit * server * world :=
  λ w, match main acks r w with
       | (Raise KeyboardInterrupt, s, w') => (Return tt, s, w')
       | (Raise CancelledError, s, w') => (Return tt, s, w')
       | res => res
       end.

End MockRobotServer.

(** ** [mock_bluetooth_server.py] *)

Module MockBluetoothRobotServer.
Import Text.

Definition SERVER_NAME : string := "robot-spider".
Definition SERVICE_UUID : string := "00001101-0000-1000-8000-00805F9B34FB".

(** [server_sock] holds [Some tt] once the RFCOMM socket exists;
    [client_sock] holds the connection of the client being served. *)
Record server : Type := Server {
  send_acks : bool;
  command_count : Z;
  server_sock : option unit;
  client_sock : option nat;
  running : bool;
}.

(** [MockBluetoothRobotServer.__init__]. *)
Definition init (acks : bool) : server :=
  {| send_acks := acks; command_count := 0; server_sock := None;
     client_sock := None; running := false |}.

Definition set_command_count (f : Z → Z) (self : server) : server :=
  {| send_acks := send_acks self; command_count := f (command_count self);
     server_sock := server_sock self; client_sock := client_sock self;
     running := running self |}.

Definition set_server_sock (o : option unit) (self : server) : server :=
  {| send_acks := send_acks self; command_count := command_count self;
     server_sock := o; client_sock := client_sock self;
     running := running self |}.

Definition set_client_sock (o : option nat) (self : server) : server :=
  {| send_acks := send_acks self; command_count := command_count self;
     server_sock := server_sock self; client_sock := o;
     running := running self |}.

Definition set_running (b : bool) (self : server) : server :=
  {| send_acks := send_acks self; command_count := command_count self;
     server_sock := server_sock self; client_sock := client_sock self;
     running := b |}.

(** *** [handle_client] *)

(** One answer of [recv(1024)] that carries data: the bytes are the UTF-8
    encoding of [decoded] (an empty [decoded] is the zero-length read), or
    they are not valid UTF-8.  [send_answer] is the answer a [send] would
    get while the data is processed. *)
Inductive packet : Type :=
| Data (decoded : string) (send_answer : option exn)
| Undecodable (msg : string).

(** What the client does during one session: the packets it sends, how
    the next [recv] then ends (a zero-length read for [None], or it
    raises), and the answer to [close]. *)
Record session : Type := Session {
  packets : list packet;
  ending : option exn;
  close_answer : option exn;
}.

(** [self.client_sock.m(...)]: an attribute of [None] cannot be taken. *)
Definition the_client_sock : M server nat :=
  let! self := get in
  match client_sock self with
  | Some sock => ret sock
  | None => raise (AttributeError "'NoneType' object has no attribute")
  end.

(** The body of the receive loop after the data has been decoded. *)
Definition handle_message (client_addr : string) (decoded : string)
           (send_answer : option exn) : M server unit :=
  let command := lower (strip decoded) in
  if is_valid command then
    log_command command client_addr ;;
    modify (set_command_count (λ n, n + 1)) ;;
    let! self := get in
    if send_acks self then
      let ack_message := "OK:" +:+ command in
      let! sock := the_client_sock in
      send sock ack_message send_answer ;;
      print ("  → Sent ACK: " +:+ ack_message)
    else ret tt
  else
    log_warning ("Invalid command '" +:+ command +:+ "' from "
                 +:+ client_addr) ;;
    let! self := get in
    if send_acks self then
      let! sock := the_client_sock in
      send sock ("ERROR:Unknown command '" +:+ command +:+ "'") send_answer
    else ret tt.

(** [while self.running: data = recv(1024); if not data: break; ...]. *)
Fixpoint receive_loop (client_addr : string) (ps : list packet)
         (ending : option exn) : M server unit :=
  let! self := get in
  if running self then
    let! sock := the_client_sock in
    emit (Recv sock) ;;
    match ps with
    | [] => match ending with None => ret tt | Some e => raise e end
    | Data "" _ :: _ => ret tt
    | Data decoded send_answer :: ps' =>
        handle_message client_addr decoded send_answer ;;
        receive_loop client_addr ps' ending
    | Undecodable msg :: _ => raise (UnicodeDecodeError msg)
    end
  else ret tt.

(** [sock.close()]. *)
Definition close (sock : nat) (answer : option exn) : M server unit :=
  emit (Close sock) ;;
  match answer with None => ret tt | Some e => raise e end.

Definition handle_client (client_addr : string) (sess : session)
  : M server unit :=
  try_finally
    (try_except
       (receive_loop client_addr (packets sess) (ending sess))
       [(is_BluetoothError,
         λ _, log_info ("Client disconnected: " +:+ client_addr));
        (is_Exception,
         λ e, log_error ("Error handling client " +:+ client_addr +:+ ": "
                         +:+ exn_str e))])
    (let! self := get in
     match client_sock self with
     | Some sock =>
         try_except (close sock (close_answer sess)) except_pass ;;
         modify (set_client_sock None)
     | None => ret tt
     end).

(** *** [shutdown], [start] and [main] *)

(** The answers to the calls of [shutdown]. *)
Record teardown : Type := Teardown {
  client_close : option exn;
  stop_advertising : option exn;
  server_close : option exn;
}.

Definition shutdown (t : teardown) : M server unit :=
  modify (set_running false) ;;
  log_info (nl +:+ "Shutting down server...") ;;
  (let! self := get in
   match client_sock self with
   | Some sock => try_except (close sock (client_close t)) except_pass
   | None => ret tt
   end) ;;
  (let! self := get in
   match server_sock self with
   | Some _ =>
       try_except (call BtStopAdvertising (stop_advertising t)) except_pass ;;
       try_except (call BtServerClose (server_close t)) except_pass
   | None => ret tt
   end) ;;
  let! self := get in
  log_info ("Total commands processed: " +:+ pretty (command_count self)) ;;
  log_info "Server stopped".

(** [signal_handler], installed for SIGINT by [main]. *)
Definition signal_handler {A} : M server A :=
  print "" ;; raise (SystemExit 0).

(** One answer of [server_sock.accept()]. *)
Inductive accept_answer : Type :=
| Accepted (sock : nat) (client_addr : string) (sess : session)
| AcceptRaises (e : exn).

(** The world of one run: the answers to the calls that set the server
    up, the clients that connect, and the answers to the calls of
    [shutdown].  When the last client has been served the next [accept]
    waits until Ctrl+C runs [signal_handler]. *)
Record run : Type := Run {
  bt_socket : option exn;
  bt_bind : option exn;
  bt_getsockname : Z + exn;
  bt_listen : option exn;
  bt_advertise : option exn;
  accepts : list accept_answer;
  run_teardown : teardown;
}.

(** One round of [while self.running: try: ... except ...]; the result
    tells whether the loop goes on ([false] after [break]). *)
Definition accept_once (a : option accept_answer) : M server bool :=
  try_except
    (log_info "Waiting for client connection..." ;;
     emit (Call BtAccept) ;;
     match a with
     | None => signal_handler
     | Some (AcceptRaises e) => raise e
     | Some (Accepted sock client_addr sess) =>
         modify (set_client_sock (Some sock)) ;;
         log_info ("Client connected: " +:+ client_addr) ;;
         handle_client client_addr sess ;;
         ret true
     end)
    [(is_BluetoothError,
      λ e, let! self := get in
           (if running self
            then log_error ("Bluetooth error: " +:+ exn_str e)
            else ret tt) ;;
           ret true);
     (is_KeyboardInterrupt, λ _, ret false)].

Fixpoint accept_loop (l : list accept_answer) : M server unit :=
  let! self := get in
  if running self then
    match l with
    | [] => let! _go_on := accept_once None in ret tt
    | a :: l' =>
        let! go_on := accept_once (Some a) in
        if go_on then accept_loop l' else ret tt
    end
  else ret tt.

Definition start (r : run) : M server unit :=
  print (nl +:+ times "=" 60) ;;
  print "Mock Hexapod Bluetooth Robot Server" ;;
  print (times "=" 60) ;;
  log_info ("Service Name: " +:+ SERVER_NAME) ;;
  log_info ("Service UUID: " +:+ SERVICE_UUID) ;;
  let! self := get in
  log_info ("Send Acknowledgments: " +:+ str_bool (send_acks self)) ;;
  print (times "=" 60 +:+ nl) ;;
  try_finally
    (try_except
       (call BtSocket (bt_socket r) ;;
        modify (set_server_sock (Some tt)) ;;
        call BtBind (bt_bind r) ;;
        let! port := call_value BtGetsockname (bt_getsockname r) in
        call BtListen (bt_listen r) ;;
        log_info ("Listening on RFCOMM channel " +:+ pretty port) ;;
        call BtAdvertise (bt_advertise r) ;;
        log_info "Server is running! Waiting for connections..." ;;
        log_info ("Press Ctrl+C to stop" +:+ nl) ;;
        modify (set_running true) ;;
        accept_loop (accepts r))
       [(is_BluetoothError,
         λ e, log_error ("Failed to start Bluetooth server: " +:+ exn_str e) ;;
              log_error
                "Make sure Bluetooth is enabled and you have the necessary permissions");
        (is_Exception, λ e, log_error ("Unexpected error: " +:+ exn_str e))])
    (shutdown (run_teardown r)).

(** [main] with the [--acks] flag given or not. *)
Definition main (acks : bool) (r : run)
  : world → outcome unit * server * world :=
  start r (init acks).

End MockBluetoothRobotServer.

(** The exit status of the interpreter: 0 when the script runs to its end,
    the code of an uncaught [SystemExit], the interrupt status for an
    uncaught [KeyboardInterrupt], 1 for any other uncaught exception; a run
    that never comes back has none. *)
Definition exit_status {A} (o : outcome A) : option Z :=
  match o with
  | Return _ => Some 0
  | Raise (SystemExit code) => Some code
  | Raise KeyboardInterrupt => Some 130
  | Raise _ => Some 1
  | Hang => None
  end.

(** ** Vocabulary of the properties *)

Module WS := MockRobotServer.
Module BT := MockBluetoothRobotServer.

(** The command a message stands for: [message.strip().lower()]. *)
Definition command_of (message : string) : string :=
  Text.lower (Text.strip message).

(** The frames of all connected WebSocket sessions, in the order in which
    the event loop runs the loop body for them.  The handlers of all clients
    run on one thread and give way to each other only at an [await], so the
    bodies run one at a time; what a body raises ends its own session only. *)
Fixpoint ws_deliver (l : list (WS.websocket * WS.frame)) : M WS.server unit :=
  match l with
  | [] => ret tt
  | (ws, f) :: l' =>
      (λ s w,
         match WS.handle_message ws (WS.client_addr_of ws) f s w with
         | (Hang, s', w') => (Hang, s', w')
         | (_, s', w') => (Return tt, s', w')
         end) ;;
      ws_deliver l'
  end.

Definition ws_valid_count (l : list (WS.websocket * WS.frame)) : nat :=
  List.length (filter (λ a, is_valid (command_of (WS.text a.2)) = true) l).

(** The decoded messages of the Bluetooth sessions, one session after the
    other, each with the address of its client and the answer to a [send]. *)
Fixpoint bt_deliver (l : list (string * string * option exn))
  : M BT.server unit :=
  match l with
  | [] => ret tt
  | (client_addr, decoded, answer) :: l' =>
      (λ s w, match BT.handle_message client_addr decoded answer s w with
              | (_, s', w') => (Return tt, s', w')
              end) ;;
      bt_deliver l'
  end.

Definition bt_valid_count (l : list (string * string * option exn)) : nat :=
  List.length (filter (λ a, is_valid (command_of a.1.2) = true) l).

(** [str.upper] for one ASCII letter, and a command written with the
    capitals chosen by a mask. *)
Definition upper_char (c : ascii) : ascii :=
  let n := N_of_ascii c in
  if ((97 <=? n) && (n <=? 122))%N then ascii_of_N (n - 32) else c.

Fixpoint recase (mask : list bool) (s : string) {struct s} : string :=
  match s with
  | EmptyString => EmptyString
  | String c s' =>
      match mask with
      | true :: mask' => String (upper_char c) (recase mask' s')
      | false :: mask' => String c (recase mask' s')
      | [] => s
      end
  end.

(** The number of [close] calls made on a connection. *)
Definition closes (conn : nat) (t : list event) : nat :=
  List.length (filter (λ ev, ev = Close conn) t).

(** The state and the world a run ends in. *)
Definition final_state {S A} (r : outcome A * S * world) : S := r.1.2.
Definition final_world {S A} (r : outcome A * S * world) : world := r.2.
Definition result {S A} (r : outcome A * S * world) : outcome A := r.1.1.

(** Words written with the letters a to z only. *)
Definition lowercase_letter (c : ascii) : bool :=
  let n := N_of_ascii c in ((97 <=? n) && (n <=? 122))%N.

Fixpoint lowercase_word (s : string) : bool :=
  match s with
  | EmptyString => true
  | String c s' => lowercase_letter c && lowercase_word s'
  end.

(** Strings of letters a to z and A to Z. *)
Definition letter (c : ascii) : bool :=
  let n := N_of_ascii c in
  ((97 <=? n) && (n <=? 122) || (65 <=? n) && (n <=? 90))%N.

Fixpoint letters (s : string) : bool :=
  match s with
  | EmptyString => true
  | String c s' => letter c && letters s'
  end.

(** The events by which a connection is written to. *)
Definition is_send (ev : event) : bool :=
  match ev with Send _ _ => true | _ => false end.

(** The events of a receive loop: reads, log lines, and writes to the
    client only when acknowledgments are enabled. *)
Definition session_event (acks : bool) (ev : event) : bool :=
  match ev with
  | Recv _ | Log _ _ | LogCommand _ _ | Print _ => true
  | Send _ _ => acks
  | Close _ | Call _ => false
  end.

Definition outcome_of (o : option exn) : outcome unit :=
  match o with None => Return tt | Some e => Raise e end.

(** The exception a WebSocket session raises inside the receive loop, if
    any: the first failing [send] when acknowledgments are enabled, or else
    what ends the iteration. *)
Fixpoint ws_first_error (acks : bool) (fs : list WS.frame)
         (ending : option exn) : option exn :=
  match fs with
  | [] => ending
  | f :: fs' =>
      match acks, WS.send_answer f with
      | true, Some e => Some e
      | _, _ => ws_first_error acks fs' ending
      end
  end.

(** The exception a Bluetooth session raises inside the receive loop, if
    any. *)
Fixpoint bt_first_error (acks : bool) (ps : list BT.packet)
         (ending : option exn) : option exn :=
  match ps with
  | [] => ending
  | BT.Data "" _ :: _ => None
  | BT.Data _ answer :: ps' =>
      match acks, answer with
      | true, Some e => Some e
      | _, _ => bt_first_error acks ps' ending
      end
  | BT.Undecodable msg :: _ => Some (UnicodeDecodeError msg)
  end.

(** [s'] differs from [s] at most by a counter that has not decreased. *)
Definition ws_counted (s s' : WS.server) : Prop :=
  WS.send_acks s' = WS.send_acks s
  ∧ WS.connected_clients s' = WS.connected_clients s
  ∧ WS.zeroconf s' = WS.zeroconf s
  ∧ WS.service_info s' = WS.service_info s
  ∧ WS.command_count s ≤ WS.command_count s'.

Definition bt_counted (s s' : BT.server) : Prop :=
  BT.send_acks s' = BT.send_acks s
  ∧ BT.server_sock s' = BT.server_sock s
  ∧ BT.client_sock s' = BT.client_sock s
  ∧ BT.running s' = BT.running s
  ∧ BT.command_count s ≤ BT.command_count s'.

(** What a session handler does with the exception raised inside its
    receive loop: an instance of [Exception] is caught, anything else goes
    on after the [finally] clause. *)
Definition handler_outcome (err : option exn) : outcome unit :=
  match err with
  | Some e => if is_Exception e then Return tt else Raise e
  | None => Return tt
  end.

(** The log line a handler writes for an exception it catches. *)
Definition ws_caught_line (addr : string) (e : exn) : event :=
  if is_ConnectionClosed e
  then Log INFO ("Client disconnected: " +:+ addr)
  else Log ERROR ("Error handling client " +:+ addr +:+ ": " +:+ exn_str e).

Definition bt_caught_line (addr : string) (e : exn) : event :=
  if is_BluetoothError e
  then Log INFO ("Client disconnected: " +:+ addr)
  else Log ERROR ("Error handling client " +:+ addr +:+ ": " +:+ exn_str e).

(** The writes to clients among some events. *)
Definition sent (t : list event) : list event := List.filter is_send t.

(** The exceptions the socket calls of an address probe raise, and the
    address the probe yields when all four calls succeed. *)
Definition probe_errors (p : WS.probe) : list exn :=
  (option_list (WS.probe_socket p) ++ option_list (WS.probe_connect p)
   ++ match WS.probe_getsockname p with inl _ => [] | inr e => [e] end
   ++ option_list (WS.probe_close p))%list.

Definition probe_answer (p : WS.probe) : option string :=
  match WS.probe_socket p, WS.probe_connect p, WS.probe_getsockname p,
        WS.probe_close p with
  | None, None, inl ip, None => Some ip
  | _, _, _, _ => None
  end.

(** The exceptions the discovery library raises at retraction: from its
    two calls, and in place of the exception of a signal handler. *)
Definition retraction_errors (r : WS.retraction) : list exn :=
  (option_list (raises (WS.unregister_service r))
   ++ option_list (raises (WS.zeroconf_close r))
   ++ option_list (when_interrupted (WS.unregister_service r))
   ++ option_list (when_interrupted (WS.zeroconf_close r)))%list.

(** [unregister_mdns] has something to retract: both handles are set. *)
Definition registered (s : WS.server) : bool :=
  match WS.zeroconf s, WS.service_info s with
  | Some _, Some _ => true
  | _, _ => false
  end.

(** The discovery library does not get through [unregister_service] and
    [close] within [ms] milliseconds. *)
Definition retraction_exceeds (ms : N) (r : WS.retraction) : bool :=
  match takes (WS.unregister_service r) with
  | None => true
  | Some d1 =>
      if (d1 <? ms)%N then
        match raises (WS.unregister_service r),
              takes (WS.zeroconf_close r) with
        | Some _, _ => false
        | None, None => true
        | None, Some d2 => negb (d1 + d2 <? ms)%N
        end
      else true
  end.

(** The warning [unregister_mdns] logs when the alarm has fired. *)
Definition timed_out_warning : event :=
  Log WARNING "mDNS unregistration timed out (service will expire naturally)".

(** The events that show a client being served. *)
Definition serves (ev : event) : bool :=
  match ev with
  | Recv _ | Send _ _ | LogCommand _ _ | Call BtAccept => true
  | _ => false
  end.

(** The exception that ends the registration with the discovery library:
    the first one raised by [Zeroconf()], by the construction of the
    [ServiceInfo] or by [register_service]. *)
Definition registration_error (r : WS.registration) : option exn :=
  match WS.zeroconf_new r, WS.make_service_info r, WS.register_service r with
  | Some e, _, _ => Some e
  | None, Some e, _ => Some e
  | None, None, o => o
  end.

(** The banner printed by [MockRobotServer.start]. *)
Definition ws_banner (local_ip : string) (acks : bool) : list event :=
  [Print (Text.nl +:+ Text.times "=" 60);
   Print "Mock Hexapod Robot Server";
   Print (Text.times "=" 60);
   Log INFO ("Local IP: " +:+ local_ip);
   Log INFO ("WebSocket Port: " +:+ pretty WS.WEBSOCKET_PORT);
   Log INFO ("mDNS Service Name: " +:+ WS.service_name);
   Log INFO ("mDNS Hostname: " +:+ WS.MDNS_HOSTNAME);
   Log INFO ("Send Acknowledgments: " +:+ Text.str_bool acks);
   Print (Text.times "=" 60 +:+ Text.nl)].

(** The events of a failed registration that follow the calls into the
    discovery library. *)
Definition registration_failure_lines (e : exn) : list event :=
  [Log ERROR ("Failed to register mDNS service: " +:+ exn_str e);
   Log WARNING "Server will run without mDNS advertisement"].

(** The events of [MockRobotServer.start] from the bind on, when the bind
    succeeds, up to the first session. *)
Definition ws_serving_lines : list event :=
  [Log INFO "WebSocket server starting...";
   Call (Serve "0.0.0.0" WS.WEBSOCKET_PORT);
   Log INFO "Server is running! Waiting for connections...";
   Log INFO ("Press Ctrl+C to stop" +:+ Text.nl)].

(** The startup of the Bluetooth server fails: the first of its five calls
    that raises. *)
Definition bt_startup_error (r : BT.run) : option exn :=
  match BT.bt_socket r, BT.bt_bind r, BT.bt_getsockname r, BT.bt_listen r,
        BT.bt_advertise r with
  | Some e, _, _, _, _ => Some e
  | None, Some e, _, _, _ => Some e
  | None, None, inr e, _, _ => Some e
  | None, None, inl _, Some e, _ => Some e
  | None, None, inl _, None, o => o
  end.


(** The commands logged among some events, and computations that keep the
    counter [count] of the server object in step with them: whatever the
    outcome, the events are added at the end of the trace and the counter
    grows by the number of commands logged. *)
Definition is_log_command (ev : event) : bool :=
  match ev with LogCommand _ _ => true | _ => false end.

Definition logged_commands (t : list event) : nat :=
  List.length (List.filter is_log_command t).

Definition tallies {S A : Type} (count : S → Z) (m : M S A) : Prop :=
  ∀ s w, ∃ t,
    trace (final_world (m s w)) = (trace w ++ t)%list
    ∧ count (final_state (m s w)) = count s + Z.of_nat (logged_commands t).

(** Computations that always come back: they return or raise. *)
Definition comes_back {S A : Type} (m : M S A) : Prop :=
  ∀ s w, result (m s w) ≠ Hang.

(** The two lines that end every shutdown. *)
Definition summary_lines (count : Z) : list event :=
  [Log INFO ("Total commands processed: " +:+ pretty count);
   Log INFO "Server stopped"].

(** Computations that come back and end with the summary: the events they
    add to the trace end with the two summary lines, which report the
    counter the computation leaves, and that counter is the one before the
    computation plus the number of commands logged in between. *)
Definition ends_with_summary {S A : Type} (count : S → Z) (m : M S A) : Prop :=
  ∀ s w,
    result (m s w) ≠ Hang
    ∧ ∃ t,
        trace (final_world (m s w)) =
          (trace w ++ t ++ summary_lines (count (final_state (m s w))))%list
        ∧ count (final_state (m s w))
          = count s + Z.of_nat (logged_commands t).

(** The calls [MockBluetoothRobotServer.shutdown] makes on the sockets the
    server object holds. *)
Definition bt_teardown_events (s : BT.server) : list event :=
  (match BT.client_sock s with Some sock => [Close sock] | None => [] end
   ++ match BT.server_sock s with
      | Some _ => [Call BtStopAdvertising; Call BtServerClose]
      | None => []
      end)%list.

(** The reply a server with acknowledgments enabled sends to a message. *)
Definition reply_to (message : string) : string :=
  let c := command_of message in
  if is_valid c then "OK:" +:+ c
  else "ERROR:Unknown command '" +:+ c +:+ "'".

(** The messages of a session that reach the loop body: with
    acknowledgments enabled, those up to the first one whose reply cannot be
    sent, that one included; without, all of them. *)
Fixpoint ws_processed (acks : bool) (fs : list WS.frame) : list string :=
  match fs with
  | [] => []
  | f :: fs' =>
      match acks, WS.send_answer f with
      | true, Some _ => [WS.text f]
      | _, _ => WS.text f :: ws_processed acks fs'
      end
  end.

(** The same for a Bluetooth session, where a zero-length read or data that
    cannot be decoded ends the loop before the body. *)
Fixpoint bt_processed (acks : bool) (ps : list BT.packet) : list string :=
  match ps with
  | [] => []
  | BT.Data "" _ :: _ => []
  | BT.Data decoded answer :: ps' =>
      match acks, answer with
      | true, Some _ => [decoded]
      | _, _ => decoded :: bt_processed acks ps'
      end
  | BT.Undecodable _ :: _ => []
  end.

(** The valid commands among some messages. *)
Definition valid_messages (l : list string) : nat :=
  List.length (List.filter (λ m, is_valid (command_of m)) l).

(** The replies a server with or without acknowledgments sends on
    connection [conn] to the messages [l]. *)
Definition replies (acks : bool) (conn : nat) (l : list string) : list event :=
  if acks then map (λ m, Send conn (reply_to m)) l else [].


(** Strings made of whitespace only ([str.isspace], or empty). *)
Fixpoint blank (s : string) : bool :=
  match s with
  | EmptyString => true
  | String c s' => Text.isspace c && blank s'
  end.

(** The library calls among some events. *)
Definition calls (t : list event) : list event :=
  List.filter (λ ev, match ev with Call _ => true | _ => false end) t.

(** The changes of the SIGALRM handler among some events. *)
Definition handler_changes (t : list event) : list event :=
  List.filter (λ ev, match ev with
                     | Call (SignalSIGALRM _) => true
                     | _ => false
                     end) t.

(** The retraction is cut short by the discovery library: a call that
    [unregister_mdns] makes raises before the alarm comes due. *)
Definition retraction_raises_early (r : WS.retraction) : bool :=
  negb (retraction_exceeds 2000 r)
  && match raises (WS.unregister_service r), raises (WS.zeroconf_close r) with
     | None, None => false
     | _, _ => true
     end.

(** The clients the accept loop of the Bluetooth server serves, with the
    sockets [accept] returns for them: the loop goes on after an [accept]
    that raises a [BluetoothError] and after a session whose handler
    returns, and ends at the first [accept] that raises anything else and
    at the first session whose handler lets an exception go on. *)
Fixpoint bt_served (acks : bool) (l : list BT.accept_answer)
  : list (nat * BT.session) :=
  match l with
  | [] => []
  | BT.AcceptRaises e :: l' =>
      if is_BluetoothError e then bt_served acks l' else []
  | BT.Accepted sock _ sess :: l' =>
      (sock, sess)
      :: match bt_first_error acks (BT.packets sess) (BT.ending sess) with
         | Some e => if is_Exception e then bt_served acks l' else []
         | None => bt_served acks l'
         end
  end.

(** How the accept loop ends: Ctrl+C while it waits in [accept] runs
    [signal_handler]. *)
Fixpoint bt_loop_outcome (acks : bool) (l : list BT.accept_answer)
  : outcome unit :=
  let leave e := if is_KeyboardInterrupt e then Return tt else Raise e in
  match l with
  | [] => Raise (SystemExit 0)
  | BT.AcceptRaises e :: l' =>
      if is_BluetoothError e then bt_loop_outcome acks l' else leave e
  | BT.Accepted _ _ sess :: l' =>
      match bt_first_error acks (BT.packets sess) (BT.ending sess) with
      | Some e => if is_Exception e then bt_loop_outcome acks l' else leave e
      | None => bt_loop_outcome acks l'
      end
  end.

(** The messages that reach the loop body in some Bluetooth sessions, and
    the replies to them. *)
Definition bt_messages (acks : bool) (served : list (nat * BT.session))
  : list string :=
  flat_map (λ c, bt_processed acks (BT.packets (snd c))) served.

Definition bt_replies (acks : bool) (served : list (nat * BT.session))
  : list event :=
  flat_map (λ c, replies acks (fst c)
                         (bt_processed acks (BT.packets (snd c)))) served.

(** The connections closed by some events, in order. *)
Definition closed (t : list event) : list nat :=
  flat_map (λ ev, match ev with Close conn => [conn] | _ => [] end) t.

(** How [start] ends once the accept loop has come back. *)
Definition bt_start_result (o : outcome unit) : outcome unit :=
  match o with
  | Raise e => if is_Exception e then Return tt else Raise e
  | o => o
  end.

(** The exceptions the transport raises in a Bluetooth session (from
    [send] and from the [recv] that ends it), while the server of a run
    accepts and serves its clients, and in a whole run. *)
Definition bt_session_errors (sess : BT.session) : list exn :=
  (flat_map (λ p, match p with
                  | BT.Data _ (Some e) => [e]
                  | _ => []
                  end) (BT.packets sess)
   ++ option_list (BT.ending sess))%list.

Definition bt_serving_errors (l : list BT.accept_answer) : list exn :=
  flat_map (λ a, match a with
                 | BT.AcceptRaises e => [e]
                 | BT.Accepted _ _ sess => bt_session_errors sess
                 end) l.

Definition bt_run_errors (r : BT.run) : list exn :=
  (option_list (bt_startup_error r) ++ bt_serving_errors (BT.accepts r))%list.

(** The messages that reach the loop body in some WebSocket sessions, and
    the replies to them. *)
Definition ws_messages (acks : bool) (l : list (WS.websocket * WS.session))
  : list string :=
  flat_map (λ c, ws_processed acks (WS.frames (snd c))) l.

Definition ws_replies (acks : bool) (l : list (WS.websocket * WS.session))
  : list event :=
  flat_map (λ c, replies acks (WS.ws_id (fst c))
                         (ws_processed acks (WS.frames (snd c)))) l.

(** The texts written to clients by some events, in order. *)
Definition payloads (t : list event) : list string :=
  flat_map (λ ev, match ev with Send _ payload => [payload] | _ => [] end) t.

(** The same messages, with the answers their replies would get, as the
    frames of a WebSocket session and as the packets of a Bluetooth one. *)
Definition as_frames (ms : list (string * option exn)) : list WS.frame :=
  map (λ m, WS.Frame (fst m) (snd m)) ms.

Definition as_packets (ms : list (string * option exn)) : list BT.packet :=
  map (λ m, BT.Data (fst m) (snd m)) ms.

(** The warning [unregister_mdns] logs for an exception it catches. *)
Definition retraction_warning (e : exn) : event :=
  if is_TimeoutError e then timed_out_warning
  else Log WARNING ("mDNS cleanup error (service will expire): "
                    +:+ exn_str e).

(** The call of the retraction during which the alarm comes due when the
    discovery library does not get through in time, and the exception that
    leaves this call then: the one of [timeout_handler], or what the
    library makes of it. *)
Definition interrupted_call (r : WS.retraction) : timed_answer :=
  match takes (WS.unregister_service r) with
  | Some d1 =>
      if (d1 <? 2000)%N then WS.zeroconf_close r else WS.unregister_service r
  | None => WS.unregister_service r
  end.

Definition alarm_exception (r : WS.retraction) : exn :=
  default WS.timeout_handler (when_interrupted (interrupted_call r)).

(** The sessions the event loop of the WebSocket server serves: all of them
    up to the first one whose handler task stops the loop, that one
    included; and the exception that stops the loop, if any. *)
Fixpoint ws_served (acks : bool) (l : list (WS.websocket * WS.session))
  : list (WS.websocket * WS.session) :=
  match l with
  | [] => []
  | c :: l' =>
      c :: match ws_first_error acks (WS.frames (snd c))
                                (WS.ending (snd c)) with
           | Some e => if WS.stops_loop e then [] else ws_served acks l'
           | None => ws_served acks l'
           end
  end.

Fixpoint ws_loop_stop (acks : bool) (l : list (WS.websocket * WS.session))
  : option exn :=
  match l with
  | [] => None
  | c :: l' =>
      match ws_first_error acks (WS.frames (snd c)) (WS.ending (snd c)) with
      | Some e => if WS.stops_loop e then Some e else ws_loop_stop acks l'
      | None => ws_loop_stop acks l'
      end
  end.

(** How the script of the WebSocket server ends, given what stopped the
    event loop: [main] and the script catch a [KeyboardInterrupt], and a
    [SystemExit] goes through both. *)
Definition ws_script_result (stop : option exn) : outcome unit :=
  match stop with
  | Some (SystemExit code) => Raise (SystemExit code)
  | _ => Return tt
  end.

(** The world [w] after the events [t]. *)
Definition after (w : world) (t : list event) : world :=
  {| trace := (trace w ++ t)%list; clock := clock w; alarm := alarm w |}.

(** * Properties *)

(** ** Running the combinators *)

Ltac run :=
  cbv [bind ret raise get modify emit send call call_value log_info
       log_warning log_error log_command print try_except try_finally
       select_handler except_pass].

Lemma after_after w t1 t2 : after (after w t1) t2 = after w (t1 ++ t2)%list.
Proof. unfold after; simpl. by rewrite <- app_assoc. Qed.

(** ** One message *)

Section OneMessage.
Import WS.

Lemma ws_handle_message_valid ws addr f s w :
  is_valid (command_of (text f)) = true →
  handle_message ws addr f s w =
    let c := command_of (text f) in
    let s' := set_command_count (λ n, n + 1) s in
    if send_acks s then
      match send_answer f with
      | None =>
          (Return tt, s',
           after w [LogCommand c addr; Send (ws_id ws) ("OK:" +:+ c);
                    Print ("  â†’ Sent ACK: " +:+ "OK:" +:+ c)])
      | Some e =>
          (Raise e, s',
           after w [LogCommand c addr; Send (ws_id ws) ("OK:" +:+ c)])
      end
    else (Return tt, s', after w [LogCommand c addr]).
Proof.
  intros Hv. unfold handle_message. fold (command_of (text f)).
  rewrite Hv. run. destruct s as [acks cs n z i]; simpl.
  destruct acks; [destruct (send_answer f)|]; unfold after; simpl;
    by rewrite <- ?app_assoc.
Qed.

Lemma ws_handle_message_invalid ws addr f s w :
  is_valid (command_of (text f)) = false →
  handle_message ws addr f s w =
    let c := command_of (text f) in
    let warning :=
      Log WARNING ("Invalid command '" +:+ c +:+ "' from " +:+ addr) in
    if send_acks s then
      (match send_answer f with None => Return tt | Some e => Raise e end,
       s,
       after w [warning;
                Send (ws_id ws) ("ERROR:Unknown command '" +:+ c +:+ "'")])
    else (Return tt, s, after w [warning]).
Proof.
  intros Hv. unfold handle_message. fold (command_of (text f)).
  rewrite Hv. run. destruct s as [acks cs n z i]; simpl.
  destruct acks; [destruct (send_answer f)|]; unfold after; simpl;
    by rewrite <- ?app_assoc.
Qed.

End OneMessage.

Section OneMessageBluetooth.
Import BT.

Lemma bt_handle_message_valid addr decoded answer s w sock :
  client_sock s = Some sock →
  is_valid (command_of decoded) = true →
  handle_message addr decoded answer s w =
    let c := command_of decoded in
    let s' := set_command_count (λ n, n + 1) s in
    if send_acks s then
      match answer with
      | None =>
          (Return tt, s',
           after w [LogCommand c addr; Send sock ("OK:" +:+ c);
                    Print ("  → Sent ACK: " +:+ "OK:" +:+ c)])
      | Some e =>
          (Raise e, s', after w [LogCommand c addr; Send sock ("OK:" +:+ c)])
      end
    else (Return tt, s', after w [LogCommand c addr]).
Proof.
  intros Hs Hv. unfold handle_message, the_client_sock.
  fold (command_of decoded). rewrite Hv. run.
  destruct s as [acks n ss cs r]; simpl in *. subst cs.
  destruct acks; [destruct answer|]; unfold after; simpl;
    by rewrite <- ?app_assoc.
Qed.

Lemma bt_handle_message_invalid addr decoded answer s w sock :
  client_sock s = Some sock →
  is_valid (command_of decoded) = false →
  handle_message addr decoded answer s w =
    let c := command_of decoded in
    let warning :=
      Log WARNING ("Invalid command '" +:+ c +:+ "' from " +:+ addr) in
    if send_acks s then
      (match answer with None => Return tt | Some e => Raise e end, s,
       after w [warning; Send sock ("ERROR:Unknown command '" +:+ c +:+ "'")])
    else (Return tt, s, after w [warning]).
Proof.
  intros Hs Hv. unfold handle_message, the_client_sock.
  fold (command_of decoded). rewrite Hv. run.
  destruct s as [acks n ss cs r]; simpl in *. subst cs.
  destruct acks; [destruct answer|]; unfold after; simpl;
    by rewrite <- ?app_assoc.
Qed.

(** Whatever the client slot holds, the counter moves by one on a valid
    command and stays on an invalid one. *)
Lemma bt_handle_message_count addr decoded answer s w :
  command_count (final_state (handle_message addr decoded answer s w)) =
    command_count s + (if is_valid (command_of decoded) then 1 else 0).
Proof.
  unfold handle_message, the_client_sock. fold (command_of decoded).
  unfold final_state.
  destruct (is_valid (command_of decoded)); run;
    destruct s as [acks n ss [sock|] r], acks, answer; simpl; lia.
Qed.

End OneMessageBluetooth.

Lemma ws_handle_message_count ws addr f s w :
  WS.command_count (final_state (WS.handle_message ws addr f s w)) =
    WS.command_count s + (if is_valid (command_of (WS.text f)) then 1 else 0).
Proof.
  destruct (is_valid (command_of (WS.text f))) eqn:Hv.
  - rewrite ws_handle_message_valid by done. cbv zeta.
    destruct (WS.send_acks s); [destruct (WS.send_answer f)|]; reflexivity.
  - rewrite ws_handle_message_invalid by done. cbv zeta.
    destruct (WS.send_acks s); unfold final_state; simpl; lia.
Qed.

(** ** The counter over the messages of all sessions *)

Lemma ws_handle_message_returns ws addr f s w :
  result (WS.handle_message ws addr f s w) ≠ Hang.
Proof.
  destruct (is_valid (command_of (WS.text f))) eqn:Hv.
  - rewrite ws_handle_message_valid by done. cbv zeta.
    by destruct (WS.send_acks s); [destruct (WS.send_answer f)|].
  - rewrite ws_handle_message_invalid by done. cbv zeta.
    by destruct (WS.send_acks s); [destruct (WS.send_answer f)|].
Qed.

Lemma ws_deliver_cons ws f l s w :
  ws_deliver ((ws, f) :: l) s w =
    let r := WS.handle_message ws (WS.client_addr_of ws) f s w in
    ws_deliver l (final_state r) (final_world r).
Proof.
  pose proof (ws_handle_message_returns ws (WS.client_addr_of ws) f s w) as Hr.
  simpl. unfold bind.
  destruct (WS.handle_message ws (WS.client_addr_of ws) f s w) as [[[a|e|] s'] w'];
    done.
Qed.

Lemma ws_deliver_count l s w :
  WS.command_count (final_state (ws_deliver l s w)) =
    WS.command_count s + Z.of_nat (ws_valid_count l).
Proof.
  revert s w. induction l as [|[ws f] l IH]; intros s w.
  - unfold final_state, ws_valid_count; simpl. lia.
  - rewrite ws_deliver_cons. cbv zeta. rewrite IH, ws_handle_message_count.
    unfold ws_valid_count. rewrite filter_cons. simpl.
    destruct (is_valid (command_of (WS.text f))); case_decide; try done;
      simpl; lia.
Qed.

Lemma ws_valid_count_app l1 l2 :
  ws_valid_count (l1 ++ l2) = (ws_valid_count l1 + ws_valid_count l2)%nat.
Proof. unfold ws_valid_count. by rewrite filter_app, length_app. Qed.

Lemma bt_deliver_cons addr decoded answer l s w :
  bt_deliver ((addr, decoded, answer) :: l) s w =
    let r := BT.handle_message addr decoded answer s w in
    bt_deliver l (final_state r) (final_world r).
Proof.
  simpl. unfold bind.
  by destruct (BT.handle_message addr decoded answer s w) as [[o s'] w'].
Qed.

Lemma bt_deliver_count l s w :
  BT.command_count (final_state (bt_deliver l s w)) =
    BT.command_count s + Z.of_nat (bt_valid_count l).
Proof.
  revert s w. induction l as [|[[addr decoded] answer] l IH]; intros s w.
  - unfold final_state, bt_valid_count; simpl. lia.
  - rewrite bt_deliver_cons. cbv zeta. rewrite IH, bt_handle_message_count.
    unfold bt_valid_count. rewrite filter_cons. simpl.
    destruct (is_valid (command_of decoded)); case_decide; try done;
      simpl; lia.
Qed.

Lemma bt_valid_count_app l1 l2 :
  bt_valid_count (l1 ++ l2) = (bt_valid_count l1 + bt_valid_count l2)%nat.
Proof. unfold bt_valid_count. by rewrite filter_app, length_app. Qed.

(** C1.  Whatever the state of the server and whatever messages the
    sessions receive, in whatever order: after the messages the counter
    [command_count] has grown by exactly the number of messages classified
    as valid commands; it never decreases as more messages are processed;
    and one message moves it by one if it is valid and leaves it as it is
    if it is invalid.  This holds for the WebSocket server and for the
    Bluetooth server. *)
Theorem command_count_counts_valid_commands :
  (∀ l s w,
     WS.command_count (final_state (ws_deliver l s w)) =
       WS.command_count s + Z.of_nat (ws_valid_count l))
  ∧ (∀ l1 l2 s w,
       WS.command_count (final_state (ws_deliver l1 s w))
       ≤ WS.command_count (final_state (ws_deliver (l1 ++ l2) s w)))
  ∧ (∀ ws addr f s w,
       WS.command_count (final_state (WS.handle_message ws addr f s w)) =
         WS.command_count s
         + (if is_valid (command_of (WS.text f)) then 1 else 0))
  ∧ (∀ l s w,
       BT.command_count (final_state (bt_deliver l s w)) =
         BT.command_count s + Z.of_nat (bt_valid_count l))
  ∧ (∀ l1 l2 s w,
       BT.command_count (final_state (bt_deliver l1 s w))
       ≤ BT.command_count (final_state (bt_deliver (l1 ++ l2) s w)))
  ∧ (∀ addr decoded answer s w,
       BT.command_count
         (final_state (BT.handle_message addr decoded answer s w)) =
         BT.command_count s + (if is_valid (command_of decoded) then 1 else 0)).
Proof.
  split_and!.
  - apply ws_deliver_count.
  - intros. rewrite !ws_deliver_count, ws_valid_count_app. lia.
  - apply ws_handle_message_count.
  - apply bt_deliver_count.
  - intros. rewrite !bt_deliver_count, bt_valid_count_app. lia.
  - apply bt_handle_message_count.
Qed.

(** ** Case permutations of the commands *)

Lemma lower_char_recased c :
  lowercase_letter c = true →
  Text.lower_char c = c ∧ Text.lower_char (upper_char c) = c
  ∧ letter c = true ∧ letter (upper_char c) = true.
Proof. by destruct c as [[] [] [] [] [] [] [] []]. Qed.

Lemma letter_not_space c : letter c = true → Text.isspace c = false.
Proof. by destruct c as [[] [] [] [] [] [] [] []]. Qed.

Lemma recase_nil s : recase [] s = s.
Proof. by destruct s. Qed.

Lemma lower_recase mask s :
  lowercase_word s = true → Text.lower (recase mask s) = s.
Proof.
  revert mask. induction s as [|c s IH]; intros mask Hs; [done|].
  simpl in Hs. apply andb_prop in Hs as [Hc Hs].
  destruct (lower_char_recased c Hc) as (H1 & H2 & _).
  destruct mask as [|[] mask]; simpl.
  - rewrite H1. f_equal. rewrite <- (recase_nil s) at 1. by apply IH.
  - rewrite H2. f_equal. by apply IH.
  - rewrite H1. f_equal. by apply IH.
Qed.

Lemma letters_recase mask s :
  lowercase_word s = true → letters (recase mask s) = true.
Proof.
  revert mask. induction s as [|c s IH]; intros mask Hs; [done|].
  simpl in Hs. apply andb_prop in Hs as [Hc Hs].
  destruct (lower_char_recased c Hc) as (_ & _ & H3 & H4).
  destruct mask as [|[] mask]; simpl.
  - rewrite H3. rewrite <- (recase_nil s). by apply IH.
  - rewrite H4. by apply IH.
  - rewrite H3. by apply IH.
Qed.

Lemma lstrip_letters s : letters s = true → Text.lstrip s = s.
Proof.
  destruct s as [|c s]; [done|]. simpl. intros [Hc _]%andb_prop.
  by rewrite (letter_not_space c Hc).
Qed.

Lemma rstrip_letters s : letters s = true → Text.rstrip s = s.
Proof.
  induction s as [|c s IH]; [done|]. simpl. intros [Hc Hs]%andb_prop.
  rewrite (IH Hs), (letter_not_space c Hc). by destruct s.
Qed.

Lemma strip_letters s : letters s = true → Text.strip s = s.
Proof.
  intros Hs. unfold Text.strip. rewrite (lstrip_letters s Hs).
  by apply rstrip_letters.
Qed.

Lemma valid_commands_cases c :
  c ∈ VALID_COMMANDS →
  c = "init" ∨ c = "forward" ∨ c = "backward" ∨ c = "left" ∨ c = "right".
Proof.
  unfold VALID_COMMANDS. rewrite !elem_of_union, !elem_of_singleton. tauto.
Qed.

Lemma valid_commands_lowercase c :
  c ∈ VALID_COMMANDS → lowercase_word c = true.
Proof.
  intros H.
  by destruct (valid_commands_cases c H) as [->|[->|[->|[->| ->]]]].
Qed.

Lemma command_of_recase mask c :
  c ∈ VALID_COMMANDS → command_of (recase mask c) = c.
Proof.
  intros Hc%valid_commands_lowercase. unfold command_of.
  rewrite strip_letters by by apply letters_recase.
  by apply lower_recase.
Qed.

Lemma is_valid_true c : is_valid c = true ↔ c ∈ VALID_COMMANDS.
Proof. unfold is_valid. by rewrite bool_decide_eq_true. Qed.

Lemma is_valid_false c : is_valid c = false ↔ c ∉ VALID_COMMANDS.
Proof. unfold is_valid. by rewrite bool_decide_eq_false. Qed.

Lemma string_app_cons a (s t : string) :
  String a s +:+ t = String a (s +:+ t).
Proof. reflexivity. Qed.

(** Whitespace around a message. *)

Lemma lstrip_blank p s : blank p = true → Text.lstrip (p +:+ s) = Text.lstrip s.
Proof.
  induction p as [|c p IH]; [done|]. simpl.
  intros [Hc Hp]%andb_prop. rewrite Hc. auto.
Qed.

Lemma rstrip_blank q : blank q = true → Text.rstrip q = "".
Proof.
  induction q as [|c q IH]; [done|]. simpl.
  intros [Hc Hq]%andb_prop. by rewrite IH, Hc.
Qed.

Lemma rstrip_app_blank s q :
  blank q = true → Text.rstrip (s +:+ q) = Text.rstrip s.
Proof.
  intros Hq. induction s as [|c s IH].
  - by rewrite rstrip_blank.
  - rewrite string_app_cons. cbn [Text.rstrip]. by rewrite IH.
Qed.

Lemma lstrip_app s q :
  Text.lstrip (s +:+ q) =
    if blank s then Text.lstrip q else Text.lstrip s +:+ q.
Proof.
  induction s as [|c s IH]; [done|].
  rewrite string_app_cons. cbn [Text.lstrip blank].
  destruct (Text.isspace c); [done|]. by rewrite string_app_cons.
Qed.

Lemma lstrip_of_blank s : blank s = true → Text.lstrip s = "".
Proof.
  induction s as [|c s IH]; [done|]. simpl.
  intros [Hc Hs]%andb_prop. rewrite Hc. auto.
Qed.

Lemma strip_pads p s q :
  blank p = true → blank q = true →
  Text.strip (p +:+ s +:+ q) = Text.strip s.
Proof.
  intros Hp Hq. unfold Text.strip. rewrite lstrip_blank by done.
  rewrite lstrip_app. destruct (blank s) eqn:Hs.
  - by rewrite !lstrip_of_blank.
  - by rewrite rstrip_app_blank.
Qed.

(** ** Acknowledgments *)

(** C2.  Let [c] be one of the five commands.  Every way of writing [c] with
    capitals in place of some of its letters, with any whitespace before
    and after it, is a message whose [strip().lower()] form is [c].  And
    for every message whose [strip().lower()] form is [c], a server with
    acknowledgments enabled classifies it as the valid command [c] (it
    logs the command [c] and counts it) and the reply it sends is exactly
    [OK:c]; when the send succeeds nothing else is written to the client.
    This holds for the WebSocket server and for the Bluetooth server. *)
Theorem valid_command_is_acknowledged (c : string) :
  c ∈ VALID_COMMANDS →
  (∀ mask p q,
     blank p = true → blank q = true →
     command_of (p +:+ recase mask c +:+ q) = c)
  ∧ (∀ ws addr f s w,
       command_of (WS.text f) = c → WS.send_acks s = true →
       WS.handle_message ws addr f s w =
         match WS.send_answer f with
         | None =>
             (Return tt, WS.set_command_count (λ n, n + 1) s,
              after w [LogCommand c addr; Send (WS.ws_id ws) ("OK:" +:+ c);
                       Print ("  â†’ Sent ACK: " +:+ "OK:" +:+ c)])
         | Some e =>
             (Raise e, WS.set_command_count (λ n, n + 1) s,
              after w [LogCommand c addr; Send (WS.ws_id ws) ("OK:" +:+ c)])
         end)
  ∧ (∀ addr decoded answer s w sock,
       command_of decoded = c → BT.send_acks s = true →
       BT.client_sock s = Some sock →
       BT.handle_message addr decoded answer s w =
         match answer with
         | None =>
             (Return tt, BT.set_command_count (λ n, n + 1) s,
              after w [LogCommand c addr; Send sock ("OK:" +:+ c);
                       Print ("  → Sent ACK: " +:+ "OK:" +:+ c)])
         | Some e =>
             (Raise e, BT.set_command_count (λ n, n + 1) s,
              after w [LogCommand c addr; Send sock ("OK:" +:+ c)])
         end).
Proof.
  intros Hc. split_and!.
  - intros mask p q Hp Hq. unfold command_of. rewrite strip_pads by done.
    by apply command_of_recase.
  - intros ws addr f s w Hf Ha.
    rewrite ws_handle_message_valid by (rewrite Hf; by apply is_valid_true).
    cbv zeta. by rewrite Ha, Hf.
  - intros addr decoded answer s w sock Hd Ha Hs.
    rewrite (bt_handle_message_valid _ _ _ _ _ sock)
      by (try done; rewrite Hd; by apply is_valid_true).
    cbv zeta. by rewrite Ha, Hd.
Qed.

Lemma valid_command_is_acknowledged_witness :
  command_of "  FoRwArD  " = "forward"
  ∧ WS.handle_message (WS.WebSocket 1 ("10.0.0.5", 51234)) "10.0.0.5:51234"
      (WS.Frame "  FoRwArD  " None) (WS.init true) initial_world =
    (Return tt, WS.set_command_count (λ n, n + 1) (WS.init true),
     after initial_world
       [LogCommand "forward" "10.0.0.5:51234"; Send 1 "OK:forward";
        Print "  â†’ Sent ACK: OK:forward"])
  ∧ BT.handle_message "AA:01" "  FoRwArD  " None
      (BT.set_client_sock (Some 7%nat) (BT.init true)) initial_world =
    (Return tt,
     BT.set_command_count (λ n, n + 1)
       (BT.set_client_sock (Some 7%nat) (BT.init true)),
     after initial_world
       [LogCommand "forward" "AA:01"; Send 7 "OK:forward";
        Print "  → Sent ACK: OK:forward"]).
Proof.
  assert ("forward" ∈ VALID_COMMANDS) as Hc
    by (apply (bool_decide_unpack _); vm_compute; exact I).
  destruct (valid_command_is_acknowledged "forward" Hc) as (H1 & H2 & H3).
  pose proof (H1 [true; false; true; false; true; false; true] "  " "  "
                 eq_refl eq_refl) as Hn.
  split_and!.
  - exact Hn.
  - exact (H2 (WS.WebSocket 1 ("10.0.0.5", 51234)) "10.0.0.5:51234"
              (WS.Frame "  FoRwArD  " None) (WS.init true) initial_world
              Hn eq_refl).
  - exact (H3 "AA:01" "  FoRwArD  " None
              (BT.set_client_sock (Some 7%nat) (BT.init true)) initial_world
              7%nat Hn eq_refl eq_refl).
Defined.

Lemma string_length_app (s t : string) :
  String.length (s +:+ t) = (String.length s + String.length t)%nat.
Proof.
  induction s as [|a s IH]; [done|].
  rewrite string_app_cons. simpl. by rewrite IH.
Qed.

Lemma string_app_inj_r (s1 s2 t : string) : s1 +:+ t = s2 +:+ t → s1 = s2.
Proof.
  revert s2. induction s1 as [|a s1 IH]; intros [|b s2] H.
  - done.
  - apply (f_equal String.length) in H.
    rewrite string_app_cons in H. simpl in H.
    rewrite !string_length_app in H. simpl in H. lia.
  - apply (f_equal String.length) in H.
    rewrite string_app_cons in H. simpl in H.
    rewrite !string_length_app in H. simpl in H. lia.
  - rewrite !string_app_cons in H. injection H as -> H.
    f_equal. by apply IH.
Qed.

(** C3, as stated, fails: the message [JUMP] is none of the five commands
    in any case, and the reply to it carries [jump], the [strip().lower()]
    form, not the text as it was received. *)
Lemma unknown_command_reply_counterexample :
  let ws := WS.WebSocket 1 ("10.0.0.5", 51234) in
  let f := WS.Frame "JUMP" None in
  (Text.lower (WS.text f) ∉ VALID_COMMANDS)
  ∧ WS.handle_message ws "10.0.0.5:51234" f (WS.init true) initial_world =
      (Return tt, WS.init true,
       after initial_world
         [Log WARNING "Invalid command 'jump' from 10.0.0.5:51234";
          Send 1 "ERROR:Unknown command 'jump'"])
  ∧ "ERROR:Unknown command 'jump'"
      ≠ ("ERROR:Unknown command '" +:+ WS.text f +:+ "'").
Proof.
  split_and!.
  - apply (bool_decide_unpack _). vm_compute. exact I.
  - reflexivity.
  - discriminate.
Qed.

(** C3, amended.  For every message whose [strip().lower()] form is none of
    the five commands, a server with acknowledgments enabled leaves the
    counter as it is, logs the warning and sends exactly
    [ERROR:Unknown command '<text>'] where [<text>] is the
    [strip().lower()] form of the message; the text as received is carried
    exactly when it is already trimmed and in lower case.  This holds for
    the WebSocket server and for the Bluetooth server. *)
Theorem unknown_command_reply_carries_normalized_text (message : string) :
  command_of message ∉ VALID_COMMANDS →
  let c := command_of message in
  let warning addr :=
    Log WARNING ("Invalid command '" +:+ c +:+ "' from " +:+ addr) in
  let reply := "ERROR:Unknown command '" +:+ c +:+ "'" in
  (∀ ws addr answer s w,
     WS.send_acks s = true →
     WS.handle_message ws addr (WS.Frame message answer) s w =
       (match answer with None => Return tt | Some e => Raise e end, s,
        after w [warning addr; Send (WS.ws_id ws) reply]))
  ∧ (∀ addr answer s w sock,
       BT.send_acks s = true → BT.client_sock s = Some sock →
       BT.handle_message addr message answer s w =
         (match answer with None => Return tt | Some e => Raise e end, s,
          after w [warning addr; Send sock reply]))
  ∧ (reply = ("ERROR:Unknown command '" +:+ message +:+ "'") ↔ c = message).
Proof.
  intros Hc%is_valid_false. cbv zeta. split_and!.
  - intros ws addr answer s w Ha.
    rewrite ws_handle_message_invalid by done. cbv zeta. simpl.
    by rewrite Ha.
  - intros addr answer s w sock Ha Hs.
    rewrite (bt_handle_message_invalid _ _ _ _ _ sock) by done. cbv zeta.
    by rewrite Ha.
  - split; [|by intros ->].
    intros H. apply (inj (String.app "ERROR:Unknown command '")) in H.
    by apply string_app_inj_r in H.
Qed.

Lemma unknown_command_reply_carries_normalized_text_witness :
  WS.handle_message (WS.WebSocket 1 ("10.0.0.5", 51234)) "10.0.0.5:51234"
    (WS.Frame " Spin " None) (WS.init true) initial_world =
  (Return tt, WS.init true,
   after initial_world
     [Log WARNING "Invalid command 'spin' from 10.0.0.5:51234";
      Send 1 "ERROR:Unknown command 'spin'"]).
Proof.
  assert (command_of " Spin " ∉ VALID_COMMANDS) as Hc
    by (apply (bool_decide_unpack _); vm_compute; exact I).
  destruct (unknown_command_reply_carries_normalized_text " Spin " Hc)
    as (H1 & _).
  exact (H1 (WS.WebSocket 1 ("10.0.0.5", 51234)) "10.0.0.5:51234" None
            (WS.init true) initial_world eq_refl).
Defined.

(** ** The receive loops *)

Lemma ws_counted_refl s : ws_counted s s.
Proof. unfold ws_counted. split_and!; done. Qed.

Lemma ws_counted_trans s1 s2 s3 :
  ws_counted s1 s2 → ws_counted s2 s3 → ws_counted s1 s3.
Proof.
  unfold ws_counted. intros (?&?&?&?&?) (?&?&?&?&?).
  split_and!; try congruence. lia.
Qed.

Lemma ws_counted_incr s : ws_counted s (WS.set_command_count (λ n, n + 1) s).
Proof. unfold ws_counted; simpl. split_and!; try done. lia. Qed.

Lemma ws_handle_message_spec ws addr f s w :
  ∃ s' t,
    WS.handle_message ws addr f s w =
      (outcome_of (if WS.send_acks s then WS.send_answer f else None),
       s', after w t)
    ∧ ws_counted s s'
    ∧ forallb (session_event (WS.send_acks s)) t = true.
Proof.
  destruct (is_valid (command_of (WS.text f))) eqn:Hv.
  - rewrite ws_handle_message_valid by done. cbv zeta.
    destruct (WS.send_acks s); [destruct (WS.send_answer f)|];
      eexists _, _; (split_and!; [reflexivity|apply ws_counted_incr|done]).
  - rewrite ws_handle_message_invalid by done. cbv zeta.
    destruct (WS.send_acks s); [destruct (WS.send_answer f)|];
      eexists _, _; (split_and!; [reflexivity|apply ws_counted_refl|done]).
Qed.

Lemma ws_receive_loop_cons ws addr f fs ending s w :
  WS.receive_loop ws addr (f :: fs) ending s w =
    match WS.handle_message ws addr f s (after w [Recv (WS.ws_id ws)]) with
    | (Return _, s1, w1) => WS.receive_loop ws addr fs ending s1 w1
    | (Raise e, s1, w1) => (Raise e, s1, w1)
    | (Hang, s1, w1) => (Hang, s1, w1)
    end.
Proof. reflexivity. Qed.

Lemma ws_receive_loop_spec ws addr fs ending s w :
  ∃ s' t,
    WS.receive_loop ws addr fs ending s w =
      (outcome_of (ws_first_error (WS.send_acks s) fs ending), s', after w t)
    ∧ ws_counted s s'
    ∧ forallb (session_event (WS.send_acks s)) t = true.
Proof.
  revert s w. induction fs as [|f fs IH]; intros s w.
  - exists s, [Recv (WS.ws_id ws)]. split_and!; [|apply ws_counted_refl|done].
    simpl. run. by destruct ending.
  - rewrite ws_receive_loop_cons.
    destruct (ws_handle_message_spec ws addr f s (after w [Recv (WS.ws_id ws)]))
      as (s1 & t1 & -> & Hs1 & Ht1).
    simpl ws_first_error.
    destruct (WS.send_acks s) eqn:Ha; [destruct (WS.send_answer f)|]; simpl.
    + exists s1, (Recv (WS.ws_id ws) :: t1).
      rewrite after_after. split_and!; [done|done|]. simpl. by rewrite Ht1.
    + destruct (IH s1 (after (after w [Recv (WS.ws_id ws)]) t1))
        as (s2 & t2 & -> & Hs2 & Ht2).
      assert (WS.send_acks s1 = true) as Ha1 by (destruct Hs1; congruence).
      rewrite Ha1 in *. exists s2, ((Recv (WS.ws_id ws) :: t1) ++ t2)%list.
      rewrite !after_after. split_and!;
        [done|by eapply ws_counted_trans|].
      rewrite forallb_app. simpl. by rewrite Ht1, Ht2.
    + destruct (IH s1 (after (after w [Recv (WS.ws_id ws)]) t1))
        as (s2 & t2 & -> & Hs2 & Ht2).
      assert (WS.send_acks s1 = false) as Ha1 by (destruct Hs1; congruence).
      rewrite Ha1 in *. exists s2, ((Recv (WS.ws_id ws) :: t1) ++ t2)%list.
      rewrite !after_after. split_and!;
        [done|by eapply ws_counted_trans|].
      rewrite forallb_app. simpl. by rewrite Ht1, Ht2.
Qed.

(** ** The session handlers *)

Lemma ws_handle_client_unfold ws sess s w :
  WS.handle_client ws sess s w =
    let addr := WS.client_addr_of ws in
    let total s :=
      Log INFO ("Total connected clients: "
                +:+ pretty (size (WS.connected_clients s))) in
    let s0 := WS.set_connected_clients (λ cs, {[ WS.ws_id ws ]} ∪ cs) s in
    let w0 :=
      after (after w [Log INFO ("Client connected: " +:+ addr)]) [total s0] in
    let leave s1 := WS.set_connected_clients (λ cs, cs ∖ {[ WS.ws_id ws ]}) s1 in
    match WS.receive_loop ws addr (WS.frames sess) (WS.ending sess) s0 w0 with
    | (Return _, s1, w1) => (Return tt, leave s1, after w1 [total (leave s1)])
    | (Raise e, s1, w1) =>
        if is_ConnectionClosed e then
          (Return tt, leave s1,
           after (after w1 [Log INFO ("Client disconnected: " +:+ addr)])
                 [total (leave s1)])
        else if is_Exception e then
          (Return tt, leave s1,
           after (after w1 [Log ERROR ("Error handling client " +:+ addr
                                       +:+ ": " +:+ exn_str e)])
                 [total (leave s1)])
        else (Raise e, leave s1, after w1 [total (leave s1)])
    | (Hang, s1, w1) => (Hang, s1, w1)
    end.
Proof.
  unfold WS.handle_client, WS.log_total_clients, after. run.
  cbn [trace clock alarm].
  destruct (WS.receive_loop _ _ _ _ _ _) as [[[[]|e|] s1] w1];
    [|destruct (is_ConnectionClosed e), (is_Exception e)|]; reflexivity.
Qed.

Lemma ws_handle_client_spec ws sess s w :
  let addr := WS.client_addr_of ws in
  let err := ws_first_error (WS.send_acks s) (WS.frames sess) (WS.ending sess) in
  ∃ s' t,
    WS.handle_client ws sess s w = (handler_outcome err, s', after w t)
    ∧ WS.send_acks s' = WS.send_acks s
    ∧ WS.connected_clients s' =
        ({[ WS.ws_id ws ]} ∪ WS.connected_clients s) ∖ {[ WS.ws_id ws ]}
    ∧ WS.zeroconf s' = WS.zeroconf s
    ∧ WS.service_info s' = WS.service_info s
    ∧ WS.command_count s ≤ WS.command_count s'
    ∧ forallb (session_event (WS.send_acks s)) t = true
    ∧ (∀ e, err = Some e → is_Exception e = true → ws_caught_line addr e ∈ t)
    ∧ Log INFO ("Client connected: " +:+ addr) ∈ t.
Proof.
  intros addr err. rewrite ws_handle_client_unfold. cbv beta zeta. fold addr.
  set (s0 := WS.set_connected_clients _ s).
  set (w0 := after (after w _) _).
  destruct (ws_receive_loop_spec ws addr (WS.frames sess) (WS.ending sess) s0 w0)
    as (s1 & t1 & -> & (Ha & Hc & Hz & Hi & Hn) & Ht1).
  change (WS.send_acks s0) with (WS.send_acks s) in *. fold err.
  assert (WS.connected_clients s0 =
          {[ WS.ws_id ws ]} ∪ WS.connected_clients s) as Hc0 by done.
  assert (WS.command_count s0 = WS.command_count s) as Hn0 by done.
  change (WS.zeroconf s0) with (WS.zeroconf s) in Hz.
  change (WS.service_info s0) with (WS.service_info s) in Hi.
  subst w0. clearbody s0.
  destruct err as [e|] eqn:He; simpl.
  - unfold ws_caught_line.
    destruct (is_ConnectionClosed e) eqn:Hcc;
      [assert (is_Exception e = true) as -> by by destruct e|
       destruct (is_Exception e) eqn:Hex];
      rewrite ?after_after; eexists _, _;
      (split_and!; [reflexivity|simpl; congruence..|simpl; lia| | |]).
    all: try (rewrite !forallb_app, Ht1; reflexivity).
    all: try (rewrite !elem_of_app, !list_elem_of_singleton; by auto).
    all: intros ? [= <-] ?; rewrite ?Hcc; try congruence.
    all: rewrite !elem_of_app, !list_elem_of_singleton; auto.
  - rewrite ?after_after; eexists _, _;
      (split_and!; [reflexivity|simpl; congruence..|simpl; lia| |done|]).
    + rewrite !forallb_app, Ht1; reflexivity.
    + rewrite !elem_of_app, !list_elem_of_singleton; by auto.
Qed.

Lemma bt_counted_refl s : bt_counted s s.
Proof. unfold bt_counted. split_and!; done. Qed.

Lemma bt_counted_trans s1 s2 s3 :
  bt_counted s1 s2 → bt_counted s2 s3 → bt_counted s1 s3.
Proof.
  unfold bt_counted. intros (?&?&?&?&?) (?&?&?&?&?).
  split_and!; try congruence. lia.
Qed.

Lemma bt_counted_incr s : bt_counted s (BT.set_command_count (λ n, n + 1) s).
Proof. unfold bt_counted; simpl. split_and!; try done. lia. Qed.

Lemma bt_handle_message_spec addr decoded answer s w sock :
  BT.client_sock s = Some sock →
  ∃ s' t,
    BT.handle_message addr decoded answer s w =
      (outcome_of (if BT.send_acks s then answer else None), s', after w t)
    ∧ bt_counted s s'
    ∧ forallb (session_event (BT.send_acks s)) t = true.
Proof.
  intros Hs. destruct (is_valid (command_of decoded)) eqn:Hv.
  - rewrite (bt_handle_message_valid _ _ _ _ _ sock) by done. cbv zeta.
    destruct (BT.send_acks s); [destruct answer|];
      eexists _, _; (split_and!; [reflexivity|apply bt_counted_incr|done]).
  - rewrite (bt_handle_message_invalid _ _ _ _ _ sock) by done. cbv zeta.
    destruct (BT.send_acks s); [destruct answer|];
      eexists _, _; (split_and!; [reflexivity|apply bt_counted_refl|done]).
Qed.

Lemma bt_receive_loop_unfold addr ps ending s w :
  BT.receive_loop addr ps ending s w =
    if BT.running s then
      match BT.client_sock s with
      | None =>
          (Raise (AttributeError "'NoneType' object has no attribute"), s, w)
      | Some sock =>
          match ps with
          | [] => (outcome_of ending, s, after w [Recv sock])
          | BT.Data "" _ :: _ => (Return tt, s, after w [Recv sock])
          | BT.Data decoded answer :: ps' =>
              match BT.handle_message addr decoded answer s
                      (after w [Recv sock]) with
              | (Return _, s1, w1) => BT.receive_loop addr ps' ending s1 w1
              | (Raise e, s1, w1) => (Raise e, s1, w1)
              | (Hang, s1, w1) => (Hang, s1, w1)
              end
          | BT.Undecodable msg :: _ =>
              (Raise (UnicodeDecodeError msg), s, after w [Recv sock])
          end
      end
    else (Return tt, s, w).
Proof.
  destruct ps as [|[[|c d] a|m] ps']; simpl; unfold BT.the_client_sock; run;
    destruct (BT.running s), (BT.client_sock s); try reflexivity.
  by destruct ending.
Qed.

Lemma bt_receive_loop_spec addr ps ending s w sock :
  BT.running s = true → BT.client_sock s = Some sock →
  ∃ s' t,
    BT.receive_loop addr ps ending s w =
      (outcome_of (bt_first_error (BT.send_acks s) ps ending), s', after w t)
    ∧ bt_counted s s'
    ∧ forallb (session_event (BT.send_acks s)) t = true.
Proof.
  revert s w. induction ps as [|p ps IH]; intros s w Hr Hs;
    rewrite bt_receive_loop_unfold, Hr, Hs.
  - exists s, [Recv sock]. split_and!; [done|apply bt_counted_refl|done].
  - destruct p as [[|c d] answer|msg].
    + exists s, [Recv sock]. split_and!; [done|apply bt_counted_refl|done].
    + destruct (bt_handle_message_spec addr (String c d) answer s
                  (after w [Recv sock]) sock Hs)
        as (s1 & t1 & -> & Hs1 & Ht1).
      pose proof Hs1 as (Ha1 & _ & Hc1 & Hr1 & _).
      rewrite Hs in Hc1. rewrite Hr in Hr1.
      destruct (IH s1 (after (after w [Recv sock]) t1) Hr1 Hc1)
        as (s2 & t2 & Hloop & Hs2 & Ht2).
      rewrite Ha1 in Hloop, Ht2. simpl bt_first_error.
      destruct (BT.send_acks s) eqn:Ha; [destruct answer|]; simpl.
      * exists s1, (Recv sock :: t1). rewrite after_after.
        split_and!; [done|done|]. simpl. by rewrite Ht1.
      * rewrite Hloop. exists s2, ((Recv sock :: t1) ++ t2)%list.
        rewrite !after_after. split_and!;
          [done|by eapply bt_counted_trans|].
        rewrite forallb_app. simpl. by rewrite Ht1, Ht2.
      * rewrite Hloop. exists s2, ((Recv sock :: t1) ++ t2)%list.
        rewrite !after_after. split_and!;
          [done|by eapply bt_counted_trans|].
        rewrite forallb_app. simpl. by rewrite Ht1, Ht2.
    + exists s, [Recv sock]. split_and!; [done|apply bt_counted_refl|done].
Qed.

Lemma bt_handle_client_unfold addr sess s w :
  BT.handle_client addr sess s w =
    let leave (o : outcome unit) s1 w1 :=
      match BT.client_sock s1 with
      | Some sock => (o, BT.set_client_sock None s1, after w1 [Close sock])
      | None => (o, s1, w1)
      end in
    match BT.receive_loop addr (BT.packets sess) (BT.ending sess) s w with
    | (Return _, s1, w1) => leave (Return tt) s1 w1
    | (Raise e, s1, w1) =>
        if is_BluetoothError e then
          leave (Return tt) s1
                (after w1 [Log INFO ("Client disconnected: " +:+ addr)])
        else if is_Exception e then
          leave (Return tt) s1
                (after w1 [Log ERROR ("Error handling client " +:+ addr
                                      +:+ ": " +:+ exn_str e)])
        else leave (Raise e) s1 w1
    | (Hang, s1, w1) => (Hang, s1, w1)
    end.
Proof.
  unfold BT.handle_client, BT.close, after. run. cbn [trace clock alarm].
  destruct (BT.receive_loop _ _ _ _ _) as [[[[]|e|] s1] w1];
    [|destruct (is_BluetoothError e), (is_Exception e)|];
    try (destruct (BT.client_sock s1); [destruct (BT.close_answer sess)|]);
    reflexivity.
Qed.

Lemma bt_handle_client_spec addr sess s w sock :
  BT.client_sock s = Some sock →
  let err := if BT.running s
             then bt_first_error (BT.send_acks s) (BT.packets sess)
                                 (BT.ending sess)
             else None in
  ∃ s' t,
    BT.handle_client addr sess s w =
      (handler_outcome err, s', after w (t ++ [Close sock]))
    ∧ BT.send_acks s' = BT.send_acks s
    ∧ BT.server_sock s' = BT.server_sock s
    ∧ BT.client_sock s' = None
    ∧ BT.running s' = BT.running s
    ∧ BT.command_count s ≤ BT.command_count s'
    ∧ forallb (session_event (BT.send_acks s)) t = true
    ∧ (∀ e, err = Some e → is_Exception e = true → bt_caught_line addr e ∈ t).
Proof.
  intros Hs err. rewrite bt_handle_client_unfold. cbv beta zeta.
  assert (∃ s1 t1,
            BT.receive_loop addr (BT.packets sess) (BT.ending sess) s w =
              (outcome_of err, s1, after w t1)
            ∧ bt_counted s s1
            ∧ forallb (session_event (BT.send_acks s)) t1 = true)
    as (s1 & t1 & -> & (Ha & Hss & Hc & Hr & Hn) & Ht1).
  { subst err. destruct (BT.running s) eqn:Hr.
    - by apply (bt_receive_loop_spec _ _ _ _ _ sock).
    - rewrite bt_receive_loop_unfold, Hr. exists s, [].
      split_and!; [|apply bt_counted_refl|done].
      unfold after. rewrite app_nil_r. by destruct w. }
  rewrite Hs in Hc.
  assert (∀ l, forallb (session_event (BT.send_acks s)) l = true →
               forallb (session_event (BT.send_acks s)) (t1 ++ l) = true)
    as Hall by (intros l Hl; by rewrite forallb_app, Ht1, Hl).
  destruct err as [e|] eqn:He; simpl.
  - unfold bt_caught_line.
    destruct (is_BluetoothError e) eqn:Hbe;
      [assert (is_Exception e = true) as -> by by destruct e|
       destruct (is_Exception e) eqn:Hex];
      rewrite Hc, ?after_after.
    + exists (BT.set_client_sock None s1),
        (t1 ++ [Log INFO ("Client disconnected: " +:+ addr)])%list.
      rewrite <- app_assoc.
      split_and!; [done|done|done|done|done|done|by apply Hall|].
      intros ? [= <-] _. rewrite Hbe, elem_of_app, list_elem_of_singleton.
      by right.
    + exists (BT.set_client_sock None s1),
        (t1 ++ [Log ERROR ("Error handling client " +:+ addr +:+ ": "
                           +:+ exn_str e)])%list.
      rewrite <- app_assoc.
      split_and!; [done|done|done|done|done|done|by apply Hall|].
      intros ? [= <-] _. rewrite Hbe, elem_of_app, list_elem_of_singleton.
      by right.
    + exists (BT.set_client_sock None s1), t1.
      split_and!; [done|done|done|done|done|done|done|].
      intros ? [= <-] ?. congruence.
  - rewrite Hc, ?after_after. exists (BT.set_client_sock None s1), t1.
    split_and!; done.
Qed.

(** A receive loop closes nothing, and without acknowledgments it writes
    nothing. *)
Lemma session_events_close_free acks t conn :
  forallb (session_event acks) t = true → closes conn t = 0%nat.
Proof.
  unfold closes. induction t as [|ev t IH]; [done|]. simpl.
  intros [Hev Ht]%andb_prop. rewrite filter_cons.
  case_decide as Hc; [by subst ev|]. by apply IH.
Qed.

Lemma session_events_silent t :
  forallb (session_event false) t = true → sent t = [].
Proof.
  unfold sent. induction t as [|ev t IH]; [done|]. simpl.
  intros [Hev Ht]%andb_prop. rewrite (IH Ht). by destruct ev.
Qed.

Lemma closes_app conn t1 t2 :
  closes conn (t1 ++ t2) = (closes conn t1 + closes conn t2)%nat.
Proof. unfold closes. by rewrite filter_app, length_app. Qed.

Lemma sent_app t1 t2 : sent (t1 ++ t2) = (sent t1 ++ sent t2)%list.
Proof. unfold sent. apply List.filter_app. Qed.

Lemma closes_after conn w t :
  closes conn (trace (after w t)) = (closes conn (trace w) + closes conn t)%nat.
Proof. apply closes_app. Qed.

Lemma closes_one conn : closes conn [Close conn] = 1%nat.
Proof. unfold closes. rewrite filter_cons. by case_decide. Qed.

Lemma ws_first_error_silent fs ending :
  ws_first_error false fs ending = ending.
Proof. induction fs as [|f fs IH]; [done|]. simpl. by destruct (WS.send_answer f). Qed.

(** ** Without acknowledgments *)

(** C4.  With acknowledgments disabled, processing one message, valid or
    invalid, returns normally, writes nothing to the client and leaves
    exactly one log line; the server object changes only by the counter,
    which grows by one for a valid command.  A whole session writes nothing
    to the client either.  This holds for the WebSocket server and for the
    Bluetooth server. *)
Theorem no_reply_without_acks (ws_srv : WS.server) (bt_srv : BT.server)
        (sock : nat) :
  WS.send_acks ws_srv = false →
  BT.send_acks bt_srv = false →
  BT.client_sock bt_srv = Some sock →
  (∀ ws addr f w,
     let c := command_of (WS.text f) in
     WS.handle_message ws addr f ws_srv w =
       if is_valid c
       then (Return tt, WS.set_command_count (λ n, n + 1) ws_srv,
             after w [LogCommand c addr])
       else (Return tt, ws_srv,
             after w [Log WARNING ("Invalid command '" +:+ c +:+ "' from "
                                   +:+ addr)]))
  ∧ (∀ ws sess w, ∃ s' t,
       WS.handle_client ws sess ws_srv w =
         (handler_outcome (WS.ending sess), s', after w t)
       ∧ sent t = [])
  ∧ (∀ addr decoded answer w,
       let c := command_of decoded in
       BT.handle_message addr decoded answer bt_srv w =
         if is_valid c
         then (Return tt, BT.set_command_count (λ n, n + 1) bt_srv,
               after w [LogCommand c addr])
         else (Return tt, bt_srv,
               after w [Log WARNING ("Invalid command '" +:+ c +:+ "' from "
                                     +:+ addr)]))
  ∧ (∀ addr sess w, ∃ o s' t,
       BT.handle_client addr sess bt_srv w = (o, s', after w t)
       ∧ sent t = []).
Proof.
  intros Hw Hb Hs. split_and!.
  - intros ws addr f w c. subst c.
    destruct (is_valid (command_of (WS.text f))) eqn:Hv.
    + rewrite ws_handle_message_valid by done. cbv zeta. by rewrite Hw.
    + rewrite ws_handle_message_invalid by done. cbv zeta. by rewrite Hw.
  - intros ws sess w.
    destruct (ws_handle_client_spec ws sess ws_srv w)
      as (s' & t & Heq & _ & _ & _ & _ & _ & Ht & _).
    rewrite Hw, ws_first_error_silent in Heq. rewrite Hw in Ht.
    exists s', t. split; [done|]. by apply session_events_silent.
  - intros addr decoded answer w c. subst c.
    destruct (is_valid (command_of decoded)) eqn:Hv.
    + rewrite (bt_handle_message_valid _ _ _ _ _ sock) by done. cbv zeta.
      by rewrite Hb.
    + rewrite (bt_handle_message_invalid _ _ _ _ _ sock) by done. cbv zeta.
      by rewrite Hb.
  - intros addr sess w.
    destruct (bt_handle_client_spec addr sess bt_srv w sock Hs)
      as (s' & t & Heq & _ & _ & _ & _ & _ & Ht & _).
    rewrite Hb in Ht. eexists _, s', _. split; [exact Heq|].
    rewrite sent_app, (session_events_silent t Ht). done.
Qed.

Lemma no_reply_without_acks_witness :
  WS.handle_message (WS.WebSocket 1 ("10.0.0.5", 51234)) "10.0.0.5:51234"
    (WS.Frame "forward" None) (WS.init false) initial_world =
  (Return tt, WS.set_command_count (λ n, n + 1) (WS.init false),
   after initial_world [LogCommand "forward" "10.0.0.5:51234"]).
Proof.
  destruct (no_reply_without_acks (WS.init false)
              (BT.set_client_sock (Some 5%nat) (BT.init false)) 5
              eq_refl eq_refl eq_refl) as (H & _).
  exact (H (WS.WebSocket 1 ("10.0.0.5", 51234)) "10.0.0.5:51234"
           (WS.Frame "forward" None) initial_world).
Defined.

(** ** The end of a session *)

Lemma bt_shutdown_without_client td s w conn :
  BT.client_sock s = None →
  result (BT.shutdown td s w) = Return tt
  ∧ closes conn (trace (final_world (BT.shutdown td s w))) =
      closes conn (trace w).
Proof.
  intros Hs. unfold BT.shutdown, BT.close, result, final_world. run.
  destruct s as [acks n [[]|] cs r]; simpl in Hs; subst cs;
    destruct td as [cc [sa|] [sc|]];
    cbn -[pretty pretty_Z pretty_N pretty_nat closes];
    (split; [reflexivity|]);
    rewrite !closes_app; unfold closes; simpl; lia.
Qed.

(** C5, as stated, fails for the WebSocket handler: when the peer
    disconnects, the handler ends without a single [close] on its
    connection; releasing the connection is left to the [websockets]
    library, after the handler has returned. *)
Lemma handler_release_counterexample :
  let ws := WS.WebSocket 7 ("10.0.0.5", 51234) in
  let peer_disconnects := WS.Session [] (Some (ConnectionClosed "1006")) in
  let r := WS.handle_client ws peer_disconnects (WS.init false) initial_world in
  result r = Return tt
  ∧ closes (WS.ws_id ws) (trace (final_world r)) ≠ 1%nat.
Proof. split; [reflexivity|]. vm_compute. discriminate. Qed.

(** C5, amended.  On every way a session can end (the peer closes, the
    transport raises, something unexpected is raised, the server is
    interrupted):
    - the Bluetooth handler, entered with a client socket in the slot
      [client_sock], makes exactly one [close] call on that socket and
      empties the slot before it returns or lets the exception go on, so
      that a later [shutdown] does not close the socket again;
    - the WebSocket handler removes its session from [connected_clients]
      before it returns or lets the exception go on, leaves the other
      sessions in the collection, and makes no [close] call itself. *)
Theorem handlers_release_on_every_exit (s : BT.server) (sock : nat) :
  BT.client_sock s = Some sock →
  (∀ addr sess w,
     let r := BT.handle_client addr sess s w in
     result r ≠ Hang
     ∧ BT.client_sock (final_state r) = None
     ∧ closes sock (trace (final_world r)) = S (closes sock (trace w))
     ∧ ∀ td,
         closes sock
           (trace (final_world (BT.shutdown td (final_state r) (final_world r))))
         = closes sock (trace (final_world r)))
  ∧ (∀ ws sess s w,
       let r := WS.handle_client ws sess s w in
       result r ≠ Hang
       ∧ (WS.ws_id ws ∉ WS.connected_clients (final_state r))
       ∧ (∀ other, other ≠ WS.ws_id ws →
            (other ∈ WS.connected_clients (final_state r)
             ↔ other ∈ WS.connected_clients s))
       ∧ ∀ conn, closes conn (trace (final_world r)) = closes conn (trace w)).
Proof.
  intros Hs. split.
  - intros addr sess w r.
    destruct (bt_handle_client_spec addr sess s w sock Hs)
      as (s' & t & Heq & _ & _ & Hc & _ & _ & Ht & _).
    subst r. rewrite Heq. unfold result, final_state, final_world. simpl.
    split_and!.
    + unfold handler_outcome.
      by destruct (if BT.running s then _ else _) as [e|]; [destruct (is_Exception e)|].
    + done.
    + rewrite !closes_app, (session_events_close_free _ t sock Ht), closes_one.
      lia.
    + intros td. by apply bt_shutdown_without_client.
  - intros ws sess s0 w r.
    destruct (ws_handle_client_spec ws sess s0 w)
      as (s' & t & Heq & _ & Hc & _ & _ & _ & Ht & _).
    subst r. rewrite Heq. unfold result, final_state, final_world. simpl.
    split_and!.
    + unfold handler_outcome.
      by destruct (ws_first_error _ _ _) as [e|]; [destruct (is_Exception e)|].
    + rewrite Hc, elem_of_difference, elem_of_singleton. tauto.
    + intros other Hne.
      rewrite Hc, elem_of_difference, elem_of_union, !elem_of_singleton.
      tauto.
    + intros conn.
      rewrite closes_app, (session_events_close_free _ t conn Ht). lia.
Qed.

Lemma handlers_release_on_every_exit_witness :
  let s := BT.set_running true (BT.set_client_sock (Some 5%nat) (BT.init true)) in
  let r := BT.handle_client "AA:BB:CC:DD:EE:FF"
             (BT.Session [BT.Data "forward" None] None None) s initial_world in
  BT.client_sock (final_state r) = None
  ∧ closes 5 (trace (final_world r)) = 1%nat.
Proof.
  destruct (handlers_release_on_every_exit
              (BT.set_running true (BT.set_client_sock (Some 5%nat) (BT.init true)))
              5 eq_refl) as (H & _).
  destruct (H "AA:BB:CC:DD:EE:FF"
              (BT.Session [BT.Data "forward" None] None None) initial_world)
    as (_ & H1 & H2 & _).
  split; [exact H1|exact H2].
Defined.

(** ** Exceptions inside a session *)

Lemma handler_outcome_caught e :
  is_Exception e = true → handler_outcome (Some e) = Return tt.
Proof. unfold handler_outcome. by intros ->. Qed.

Lemma handler_outcome_passed e :
  is_Exception e = false → handler_outcome (Some e) = Raise e.
Proof. unfold handler_outcome. by intros ->. Qed.

(** C6, as stated, fails: Ctrl+C while the Bluetooth handler waits in [recv]
    runs [signal_handler], whose [SystemExit] is not an instance of
    [Exception]; the handler closes the socket and the exception goes on
    into the accept loop. *)
Lemma handler_propagates_counterexample :
  let s := BT.set_running true (BT.set_client_sock (Some 5%nat) (BT.init false)) in
  let interrupted := BT.Session [] (Some (SystemExit 0)) None in
  result (BT.handle_client "AA:BB:CC:DD:EE:FF" interrupted s initial_world)
  = Raise (SystemExit 0).
Proof. reflexivity. Qed.

(** C6, amended.  Let [err] be the exception raised inside the receive loop
    of a session, if any.  If [err] is an instance of [Exception] (a
    transport error, a closed connection, a decoding error, anything
    unexpected), the handler catches it, writes a log line for it and
    returns normally.  If [err] is not an instance of [Exception]
    ([KeyboardInterrupt], [SystemExit], [CancelledError]), the handler runs
    its [finally] clause and the exception goes on to the caller.  With no
    exception the handler returns normally.  This holds for the Bluetooth
    handler (entered while the server runs, with a client socket in its
    slot) and for the WebSocket handler.  The one other call that can
    raise inside a handler is the [close] in the [finally] clause of the
    Bluetooth handler, under a bare [except]: what it raises, of whatever
    class, is neither logged nor passed on, and the handler ends exactly
    as if [close] had returned. *)
Theorem handlers_catch_exception_instances (s : BT.server) (sock : nat) :
  BT.running s = true →
  BT.client_sock s = Some sock →
  (∀ addr sess w,
     let err := bt_first_error (BT.send_acks s) (BT.packets sess)
                               (BT.ending sess) in
     ∃ s' t,
       BT.handle_client addr sess s w = (handler_outcome err, s', after w t)
       ∧ (err = None → handler_outcome err = Return tt)
       ∧ (∀ e, err = Some e → is_Exception e = true →
            handler_outcome err = Return tt ∧ bt_caught_line addr e ∈ t)
       ∧ (∀ e, err = Some e → is_Exception e = false →
            handler_outcome err = Raise e))
  ∧ (∀ ws sess s w,
       let err := ws_first_error (WS.send_acks s) (WS.frames sess)
                                 (WS.ending sess) in
       ∃ s' t,
         WS.handle_client ws sess s w = (handler_outcome err, s', after w t)
         ∧ (err = None → handler_outcome err = Return tt)
         ∧ (∀ e, err = Some e → is_Exception e = true →
              handler_outcome err = Return tt
              ∧ ws_caught_line (WS.client_addr_of ws) e ∈ t)
         ∧ (∀ e, err = Some e → is_Exception e = false →
              handler_outcome err = Raise e))
  ∧ (∀ addr ps ending answer w,
       BT.handle_client addr (BT.Session ps ending answer) s w =
       BT.handle_client addr (BT.Session ps ending None) s w).
Proof.
  intros Hr Hs. split_and!.
  - intros addr sess w err.
    destruct (bt_handle_client_spec addr sess s w sock Hs)
      as (s' & t & Heq & _ & _ & _ & _ & _ & _ & Hline).
    rewrite Hr in Heq, Hline. fold err in Heq, Hline.
    exists s', (t ++ [Close sock])%list. split_and!.
    + done.
    + by intros ->.
    + intros e He Hex. rewrite He. split; [by apply handler_outcome_caught|].
      rewrite elem_of_app. left. by apply Hline.
    + intros e He Hex. rewrite He. by apply handler_outcome_passed.
  - intros ws sess s0 w err.
    destruct (ws_handle_client_spec ws sess s0 w)
      as (s' & t & Heq & _ & _ & _ & _ & _ & _ & Hline & _).
    fold err in Heq, Hline. exists s', t. split_and!.
    + done.
    + by intros ->.
    + intros e He Hex. rewrite He. split; [by apply handler_outcome_caught|].
      by apply Hline.
    + intros e He Hex. rewrite He. by apply handler_outcome_passed.
  - intros addr ps ending answer w. by rewrite !bt_handle_client_unfold.
Qed.

Lemma handlers_catch_exception_instances_witness :
  let s := BT.set_running true (BT.set_client_sock (Some 5%nat) (BT.init false)) in
  (∃ s' t,
     BT.handle_client "AA:BB:CC:DD:EE:FF"
       (BT.Session [BT.Data "forward" None] (Some (BluetoothError "reset"))
                   None)
       s initial_world =
     (Return tt, s', after initial_world t))
  ∧ BT.handle_client "AA:BB:CC:DD:EE:FF"
      (BT.Session [BT.Data "forward" None] None (Some (SystemExit 0)))
      s initial_world =
    BT.handle_client "AA:BB:CC:DD:EE:FF"
      (BT.Session [BT.Data "forward" None] None None) s initial_world.
Proof.
  destruct (handlers_catch_exception_instances
              (BT.set_running true
                 (BT.set_client_sock (Some 5%nat) (BT.init false)))
              5 eq_refl eq_refl) as (H & _ & Hclose).
  split.
  - destruct (H "AA:BB:CC:DD:EE:FF"
                (BT.Session [BT.Data "forward" None]
                            (Some (BluetoothError "reset")) None)
                initial_world) as (s' & t & Heq & _).
    exists s', t. exact Heq.
  - exact (Hclose "AA:BB:CC:DD:EE:FF" [BT.Data "forward" None] None
                  (Some (SystemExit 0)) initial_world).
Defined.

(** ** The address probe *)

Lemma get_local_ip_returns {S : Type} (p : WS.probe) (s : S) w :
  (∀ e, e ∈ probe_errors p → is_Exception e = true) →
  ∃ t,
    WS.get_local_ip p s w =
      (Return (default "127.0.0.1" (probe_answer p)), s, after w t)
    ∧ existsb serves t = false.
Proof.
  destruct p as [[e1|] [e2|] [ip|e3] [e4|]];
    unfold probe_errors, probe_answer, WS.get_local_ip; simpl; intros He; run;
    try (rewrite (He e1) by (rewrite ?elem_of_app, ?elem_of_cons; auto));
    try (rewrite (He e2) by (rewrite ?elem_of_app, ?elem_of_cons; auto));
    try (rewrite (He e3) by (rewrite ?elem_of_app, ?elem_of_cons; auto));
    try (rewrite (He e4) by (rewrite ?elem_of_app, ?elem_of_cons; auto));
    unfold after; cbn [trace clock alarm]; rewrite <- ?app_assoc;
    eexists; (split; [reflexivity|reflexivity]).
Qed.

(** C10, as stated, fails: the probe does not turn any exception into the
    fallback address.  Ctrl+C while the socket connects raises a
    [KeyboardInterrupt], which [except Exception] does not catch: it leaves
    [get_local_ip] and no address is returned. *)
Lemma get_local_ip_counterexample :
  let p := WS.Probe None (Some KeyboardInterrupt) (inl "192.168.1.4") None in
  WS.get_local_ip p tt initial_world =
    (Raise KeyboardInterrupt, tt,
     after initial_world [Call UdpSocket; Call (UdpConnect "8.8.8.8" 80)]).
Proof. reflexivity. Qed.

(** C10, amended.  Whatever the four socket calls of the probe answer, as
    long as what they raise are instances of [Exception], [get_local_ip]
    returns and leaves the state as it is: it returns the address given by
    [getsockname] when the UDP socket could be created, connected towards
    8.8.8.8 (port 80), asked for its name and closed, these four calls
    being all it does then; and it returns the string 127.0.0.1 as soon as
    one of the four calls raises.  The first call that raises decides:
    after an instance of [Exception] the result is 127.0.0.1, and anything
    else leaves [get_local_ip] uncaught. *)
Theorem get_local_ip_never_fails {S : Type} (p : WS.probe) :
  ((∀ e, e ∈ probe_errors p → is_Exception e = true) →
   ∀ (s : S) w, ∃ t,
     WS.get_local_ip p s w =
       (Return (default "127.0.0.1" (probe_answer p)), s, after w t))
  ∧ (∀ ip, probe_answer p = Some ip ↔
       WS.probe_socket p = None ∧ WS.probe_connect p = None
       ∧ WS.probe_getsockname p = inl ip ∧ WS.probe_close p = None)
  ∧ (probe_answer p = None ↔ probe_errors p ≠ [])
  ∧ (∀ ip (s : S) w,
       probe_answer p = Some ip →
       WS.get_local_ip p s w =
         (Return ip, s,
          after w [Call UdpSocket; Call (UdpConnect "8.8.8.8" 80);
                   Call UdpGetsockname; Call UdpClose]))
  ∧ (∀ e (s : S) w,
       head (probe_errors p) = Some e →
       result (WS.get_local_ip p s w) =
         (if is_Exception e then Return "127.0.0.1" else Raise e)
       ∧ final_state (WS.get_local_ip p s w) = s).
Proof.
  split_and!.
  - intros He s w. destruct (get_local_ip_returns p s w He) as (t & Heq & _).
    by exists t.
  - intros ip. unfold probe_answer.
    destruct p as [[e1|] [e2|] [ip'|e3] [e4|]]; simpl; intuition congruence.
  - unfold probe_answer, probe_errors.
    by destruct p as [[e1|] [e2|] [ip'|e3] [e4|]].
  - intros ip s w. unfold probe_answer.
    destruct p as [[e1|] [e2|] [ip'|e3] [e4|]]; simpl; try discriminate.
    intros [= ->]. unfold WS.get_local_ip, after. run. simpl.
    by rewrite <- !app_assoc.
  - intros e s w. unfold probe_errors, WS.get_local_ip, result, final_state.
    destruct p as [[e1|] [e2|] [ip'|e3] [e4|]]; simpl; try discriminate;
      intros [= ->]; run; simpl; by destruct (is_Exception e).
Qed.

Lemma get_local_ip_never_fails_witness :
  ∃ t, WS.get_local_ip
         (WS.Probe None (Some (OSError "Network is unreachable"))
                   (inl "192.168.1.4") None)
         tt initial_world =
       (Return "127.0.0.1", tt, after initial_world t).
Proof.
  assert (∀ e, e ∈ probe_errors
                 (WS.Probe None (Some (OSError "Network is unreachable"))
                           (inl "192.168.1.4") None) →
               is_Exception e = true) as He.
  { intros e. unfold probe_errors. simpl.
    rewrite list_elem_of_singleton. by intros ->. }
  destruct (get_local_ip_never_fails (S := unit)
              (WS.Probe None (Some (OSError "Network is unreachable"))
                        (inl "192.168.1.4") None)) as (H & _).
  exact (H He tt initial_world).
Defined.

(** ** Retraction of the advertisement and shutdown *)

Lemma ltb_shift (c a b : N) : (c + a <? c + b)%N = (a <? b)%N.
Proof.
  destruct (N.ltb_spec a b); [apply N.ltb_lt|apply N.ltb_ge]; lia.
Qed.

Ltac ltb_props :=
  repeat match goal with
         | H : (_ <? _)%N = true |- _ => apply N.ltb_lt in H
         | H : (_ <? _)%N = false |- _ => apply N.ltb_ge in H
         end.

Ltac retraction_leaf :=
  cbn -[N.mul N.add N.ltb N.max]; rewrite <- ?app_assoc; ltb_props;
  split_and!;
  [reflexivity | reflexivity | lia | lia |
   eexists; split_and!;
   [reflexivity
   |reflexivity
   |intros _; eexists; reflexivity
   |intros _ Hx;
    first [discriminate Hx
          | unfold retraction_warning, timed_out_warning;
            cbn [is_TimeoutError]; repeat constructor]
   |discriminate]].

Lemma unregister_mdns_spec s r w :
  (∀ e, e ∈ retraction_errors r → is_Exception e = true) →
  let res := WS.unregister_mdns r s w in
  result res = Return tt
  ∧ final_state res = s
  ∧ (clock w ≤ clock (final_world res) ≤ clock w + 2000)%N
  ∧ ∃ t, trace (final_world res) = (trace w ++ t)%list
         ∧ existsb serves t = false
         ∧ (registered s = true →
            ∃ t', t = [Call (SignalSIGALRM true); Call (SignalAlarm 2);
                       Call UnregisterService] ++ t')%list
         ∧ (registered s = true → retraction_exceeds 2000 r = true →
            retraction_warning (alarm_exception r) ∈ t)
         ∧ (registered s = false → t = []).
Proof.
  intros He res. subst res.
  unfold WS.unregister_mdns, WS.timeout_handler, registered. run.
  destruct (WS.zeroconf s) as [[]|], (WS.service_info s) as [i|].
  2-4: unfold result, final_state, final_world; simpl.
  2-4: split_and!; [done|done|lia|lia|].
  2-4: exists []; rewrite app_nil_r; by split_and!.
  destruct r as [[t1 r1 i1] [t2 r2 i2]].
  unfold retraction_errors, retraction_exceeds, alarm_exception,
    interrupted_call, WS.timeout_handler in *.
  simpl in He.
  assert (∀ e, r1 = Some e → is_Exception e = true) as He1.
  { intros e ->. apply He. simpl.
    rewrite ?elem_of_app, ?elem_of_cons. auto 10. }
  assert (∀ e, r2 = Some e → is_Exception e = true) as He2.
  { intros e ->. apply He. simpl.
    rewrite ?elem_of_app, ?elem_of_cons. auto 10. }
  assert (∀ e, i1 = Some e → is_Exception e = true) as Hi1.
  { intros e ->. apply He. simpl.
    rewrite ?elem_of_app, ?elem_of_cons. auto 10. }
  assert (∀ e, i2 = Some e → is_Exception e = true) as Hi2.
  { intros e ->. apply He. simpl.
    rewrite ?elem_of_app, ?elem_of_cons. auto 10. }
  clear He.
  unfold timed_call, signal_alarm, result, final_state, final_world.
  cbn -[N.mul N.add N.ltb N.max].
  change (1000 * 2)%N with 2000%N.
  assert (∀ i : option exn,
            (∀ e, i = Some e → is_Exception e = true) →
            i = None
            ∨ ∃ e, i = Some e ∧ is_Exception e = true) as Hcases.
  { intros [e|] Hi; [right; exists e; auto|by left]. }
  destruct t1 as [d1|]; [rewrite ltb_shift; destruct (d1 <? 2000)%N eqn:H1|];
    cbn -[N.mul N.add N.ltb N.max].
  - destruct r1 as [e1|].
    + specialize (He1 e1 eq_refl). destruct e1; try discriminate He1;
        retraction_leaf.
    + destruct t2 as [d2|];
        [rewrite <- N.add_assoc, ltb_shift;
         destruct (d1 + d2 <? 2000)%N eqn:H2|].
      * destruct r2 as [e2|].
        -- specialize (He2 e2 eq_refl). destruct e2; try discriminate He2;
             retraction_leaf.
        -- retraction_leaf.
      * destruct i2 as [e|]; [specialize (Hi2 e eq_refl);
                              destruct e; try discriminate Hi2|];
          retraction_leaf.
      * destruct i2 as [e|]; [specialize (Hi2 e eq_refl);
                              destruct e; try discriminate Hi2|];
          retraction_leaf.
  - destruct i1 as [e|]; [specialize (Hi1 e eq_refl);
                          destruct e; try discriminate Hi1|];
      retraction_leaf.
  - destruct i1 as [e|]; [specialize (Hi1 e eq_refl);
                          destruct e; try discriminate Hi1|];
      retraction_leaf.
Qed.

Lemma ws_shutdown_spec (s : WS.server) (r : WS.retraction) :
  (∀ e, e ∈ retraction_errors r → is_Exception e = true) →
  ∀ w,
    let res := WS.shutdown r s w in
    result res = Return tt
    ∧ final_state res = s
    ∧ (clock (final_world res) ≤ clock w + 2000)%N
    ∧ ∃ t,
        trace (final_world res) =
          (trace w ++ [Log INFO (Text.nl +:+ "Shutting down server...")] ++ t
           ++ [Log INFO ("Total commands processed: "
                         +:+ pretty (WS.command_count s));
               Log INFO "Server stopped"])%list
        ∧ existsb serves t = false
        ∧ (registered s = true →
           ∃ t', t = [Call (SignalSIGALRM true); Call (SignalAlarm 2);
                      Call UnregisterService] ++ t')%list
        ∧ (registered s = true → retraction_exceeds 2000 r = true →
           retraction_warning (alarm_exception r) ∈ t)
        ∧ (registered s = false → t = []).
Proof.
  intros He w res. subst res.
  pose proof (unregister_mdns_spec s r
                (after w [Log INFO (Text.nl +:+ "Shutting down server...")]) He)
    as Hspec.
  cbv zeta in Hspec. unfold WS.shutdown. run. unfold after in Hspec.
  destruct (WS.unregister_mdns r s _) as [[o s'] w'].
  unfold result, final_state, final_world in *. simpl in Hspec.
  destruct Hspec as (-> & -> & Hclock & t & Ht & H0 & H1 & H2 & H3).
  cbn [fst snd trace clock alarm]. split_and!; [done|done|lia|].
  exists t. split_and!; [|done..].
  rewrite Ht, <- !app_assoc. reflexivity.
Qed.




(** ** Startup of the WebSocket server *)

Lemma register_mdns_spec ip reg s w :
  (∀ e, registration_error reg = Some e → is_Exception e = true) →
  ∃ s' t,
    WS.register_mdns ip reg s w = (Return tt, s', after w t)
    ∧ WS.send_acks s' = WS.send_acks s
    ∧ WS.connected_clients s' = WS.connected_clients s
    ∧ WS.command_count s' = WS.command_count s
    ∧ existsb serves t = false
    ∧ (∀ e, registration_error reg = Some e →
         ∃ t0, t = (t0 ++ registration_failure_lines e)%list).
Proof.
  intros He'. unfold WS.register_mdns, registration_error in *. run.
  destruct reg as [[e1|] [e2|] [e3|]]; simpl in *;
    try rewrite (He' _ eq_refl);
    unfold after; cbn [trace clock alarm]; rewrite <- ?app_assoc;
    eexists _, _; (split_and!; [reflexivity|reflexivity..|]).
  all: intros e [= <-]; unfold registration_failure_lines.
  all: first [by exists [Call ZeroconfNew]
             |by exists [Call ZeroconfNew; Call MakeServiceInfo]
             |by exists [Call ZeroconfNew; Call MakeServiceInfo;
                         Call RegisterService]].
Qed.

Lemma ws_start_spec r s w :
  (∀ e, e ∈ probe_errors (WS.run_probe r) → is_Exception e = true) →
  (∀ e, registration_error (WS.run_registration r) = Some e →
        is_Exception e = true) →
  let ip := default "127.0.0.1" (probe_answer (WS.run_probe r)) in
  ∃ s1 tp treg,
    existsb serves tp = false
    ∧ existsb serves treg = false
    ∧ WS.send_acks s1 = WS.send_acks s
    ∧ WS.command_count s1 = WS.command_count s
    ∧ WS.connected_clients s1 = WS.connected_clients s
    ∧ (∀ e, registration_error (WS.run_registration r) = Some e →
         ∃ t0, treg = (t0 ++ registration_failure_lines e)%list)
    ∧ let before := (tp ++ ws_banner ip (WS.send_acks s) ++ treg)%list in
      match WS.run_bind r with
      | Some e =>
          WS.start r s w =
            (Raise e, s1,
             after w (before ++ [Log INFO "WebSocket server starting...";
                                 Call (Serve "0.0.0.0" WS.WEBSOCKET_PORT)]))
      | None =>
          WS.start r s w =
            match WS.serve_sessions (WS.run_sessions r) s1
                    (after w (before ++ ws_serving_lines)) with
            | (Return _, s2, w2) => (Return tt, s2, after w2 [Call ServeExit])
            | (Raise e, s2, w2) =>
                (if is_CancelledError e then Return tt else Raise e, s2,
                 after w2 [Call ServeExit])
            | (Hang, s2, w2) => (Hang, s2, w2)
            end
      end.
Proof.
  intros Hp Hr ip.
  destruct (get_local_ip_returns (WS.run_probe r) s w Hp) as (tp & Hip & Htp).
  fold ip in Hip.
  destruct (register_mdns_spec ip (WS.run_registration r) s
              (after w (tp ++ ws_banner ip (WS.send_acks s))) Hr)
    as (s1 & treg & Hreg & Ha & Hcl & Hn & Htreg & Hfail).
  exists s1, tp, treg. split_and!; [done..|]. cbv zeta.
  unfold WS.start. run. rewrite Hip. cbv beta iota.
  unfold after, ws_banner in Hreg. cbn [trace clock alarm] in Hreg.
  unfold after. cbn [trace clock alarm].
  rewrite <- !app_assoc. cbn [app].
  rewrite <- !app_assoc in Hreg. cbn [app] in Hreg. rewrite Hreg.
  cbv beta iota. cbn [trace clock alarm].
  destruct (WS.run_bind r) as [e|].
  - unfold ws_banner. rewrite <- !app_assoc. cbn [app]. reflexivity.
  - unfold after, ws_banner, ws_serving_lines. cbn [trace clock alarm].
    rewrite <- !app_assoc. cbn [app].
    match goal with |- context [WS.serve_sessions ?l ?s0 ?w0] =>
      destruct (WS.serve_sessions l s0 w0) as [[[[]|e|] s2] w2]
    end; [reflexivity| |reflexivity].
    cbn [select_handler]. by destruct (is_CancelledError e).
Qed.

Lemma banner_serves_nobody ip acks : existsb serves (ws_banner ip acks) = false.
Proof. reflexivity. Qed.

(** ** Startup failures *)







(** * Further properties *)

(** ** The counter and the log of commands *)

Lemma logged_commands_app t1 t2 :
  logged_commands (t1 ++ t2) = (logged_commands t1 + logged_commands t2)%nat.
Proof. unfold logged_commands. by rewrite List.filter_app, length_app. Qed.

Section Tally.
Context {S : Type} (count : S → Z).

Lemma tallies_intro {A} (m : M S A) :
  (∀ s w, ∃ t, trace (m s w).2 = (trace w ++ t)%list
               ∧ count (m s w).1.2
                 = count s + Z.of_nat (logged_commands t)) →
  tallies count m.
Proof. done. Qed.

Lemma tallies_quiet {A} (m : M S A) :
  (∀ s w, ∃ t, trace (m s w).2 = (trace w ++ t)%list
               ∧ logged_commands t = 0%nat
               ∧ count (m s w).1.2 = count s) →
  tallies count m.
Proof.
  intros H s w. destruct (H s w) as (t & Ht & H0 & Hc). exists t.
  unfold final_world, final_state. rewrite Ht, Hc, H0. split; [done|lia].
Qed.

Lemma tallies_ret {A} (a : A) : tallies count (ret a).
Proof.
  apply tallies_quiet. intros s w. exists []. by rewrite app_nil_r.
Qed.

Lemma tallies_raise {A} (e : exn) : tallies count (raise (A := A) e).
Proof.
  apply tallies_quiet. intros s w. exists []. by rewrite app_nil_r.
Qed.

Lemma tallies_get : tallies count get.
Proof.
  apply tallies_quiet. intros s w. exists []. by rewrite app_nil_r.
Qed.

Lemma tallies_modify (f : S → S) :
  (∀ s, count (f s) = count s) → tallies count (modify f).
Proof.
  intros Hf. apply tallies_quiet. intros s w. exists [].
  rewrite app_nil_r. simpl. by rewrite Hf.
Qed.

Lemma tallies_emit (ev : event) :
  is_log_command ev = false → tallies count (emit ev).
Proof.
  intros Hev. apply tallies_quiet. intros s w. exists [ev]. simpl.
  unfold logged_commands. simpl. by rewrite Hev.
Qed.

Lemma tallies_bind {A B} (m : M S A) (k : A → M S B) :
  tallies count m → (∀ a, tallies count (k a)) → tallies count (bind m k).
Proof.
  intros Hm Hk s w. destruct (Hm s w) as (t1 & Ht1 & Hc1).
  unfold bind, final_world, final_state in *.
  destruct (m s w) as [[[a|e|] s1] w1]; simpl in *.
  - destruct (Hk a s1 w1) as (t2 & Ht2 & Hc2).
    unfold final_world, final_state in *.
    exists (t1 ++ t2)%list. rewrite Ht2, Hc2, Ht1, Hc1, logged_commands_app.
    split; [by rewrite app_assoc|lia].
  - by exists t1.
  - by exists t1.
Qed.

Lemma tallies_select_handler {A} (hs : list ((exn → bool) * (exn → M S A))) e :
  (∀ h, h ∈ hs → ∀ e, tallies count (h.2 e)) →
  tallies count (select_handler hs e).
Proof.
  induction hs as [|[test h] hs IH]; intros Hhs; simpl.
  - apply tallies_raise.
  - destruct (test e).
    + apply (Hhs (test, h)). by left.
    + apply IH. intros h' Hh'. apply Hhs. by right.
Qed.

Lemma tallies_try_except {A} (body : M S A) hs :
  tallies count body →
  (∀ h, h ∈ hs → ∀ e, tallies count (h.2 e)) →
  tallies count (try_except body hs).
Proof.
  intros Hb Hhs s w. destruct (Hb s w) as (t1 & Ht1 & Hc1).
  unfold try_except, final_world, final_state in *.
  destruct (body s w) as [[[a|e|] s1] w1]; simpl in *.
  - by exists t1.
  - destruct (tallies_select_handler hs e Hhs s1 w1) as (t2 & Ht2 & Hc2).
    unfold final_world, final_state in *.
    exists (t1 ++ t2)%list. rewrite Ht2, Hc2, Ht1, Hc1, logged_commands_app.
    split; [by rewrite app_assoc|lia].
  - by exists t1.
Qed.

Lemma tallies_try_finally {A} (body : M S A) (fin : M S unit) :
  tallies count body → tallies count fin →
  tallies count (try_finally body fin).
Proof.
  intros Hb Hf s w. destruct (Hb s w) as (t1 & Ht1 & Hc1).
  unfold try_finally, final_world, final_state in *.
  destruct (body s w) as [[o s1] w1]; simpl in *.
  destruct (Hf s1 w1) as (t2 & Ht2 & Hc2).
  unfold final_world, final_state in *.
  assert (∃ t, trace (fin s1 w1).2 = (trace w ++ t)%list
               ∧ count (fin s1 w1).1.2
                 = count s + Z.of_nat (logged_commands t)) as Hboth.
  { exists (t1 ++ t2)%list. rewrite Ht2, Hc2, Ht1, Hc1, logged_commands_app.
    split; [by rewrite app_assoc|lia]. }
  destruct o as [a|e|]; [| |by exists t1];
    by destruct (fin s1 w1) as [[[[]|e'|] s2] w2].
Qed.

Lemma tallies_call f answer : tallies count (call f answer).
Proof.
  apply tallies_bind; [by apply tallies_emit|].
  intros _. destruct answer; [apply tallies_raise|apply tallies_ret].
Qed.

Lemma tallies_call_value {A} f (answer : A + exn) :
  tallies count (call_value f answer).
Proof.
  apply tallies_bind; [by apply tallies_emit|].
  intros _. destruct answer; [apply tallies_ret|apply tallies_raise].
Qed.

Lemma tallies_send conn payload answer :
  tallies count (send conn payload answer).
Proof.
  apply tallies_bind; [by apply tallies_emit|].
  intros _. destruct answer; [apply tallies_raise|apply tallies_ret].
Qed.

Lemma tallies_signal_alarm seconds : tallies count (signal_alarm seconds).
Proof.
  apply tallies_quiet. intros s w. by exists [Call (SignalAlarm seconds)].
Qed.

Lemma tallies_timed_call f a on_alarm :
  tallies count (timed_call f a on_alarm).
Proof.
  apply tallies_quiet. intros s w. exists [Call f]. unfold timed_call.
  destruct (alarm w) as [deadline|], (takes a) as [d|];
    try destruct (_ <? _)%N; done.
Qed.

Lemma tallies_log_info msg : tallies count (log_info msg).
Proof. by apply tallies_emit. Qed.

Lemma tallies_log_warning msg : tallies count (log_warning msg).
Proof. by apply tallies_emit. Qed.

Lemma tallies_log_error msg : tallies count (log_error msg).
Proof. by apply tallies_emit. Qed.

Lemma tallies_print msg : tallies count (print msg).
Proof. by apply tallies_emit. Qed.

End Tally.


(** Decomposes a goal [tallies count m] along the structure of [m]. *)
Ltac tally_handlers :=
  let h := fresh "h" in
  let Hh := fresh "Hh" in
  let e := fresh "e" in
  intros h Hh e;
  repeat (apply elem_of_cons in Hh as [->|Hh]);
  [..|by apply elem_of_nil in Hh]; cbn [snd].

Ltac tally_step :=
  cbv beta;
  lazymatch goal with
  | |- tallies _ (ret _) => apply tallies_ret
  | |- tallies _ (raise _) => apply tallies_raise
  | |- tallies _ get => apply tallies_get
  | |- tallies _ (call _ _) => apply tallies_call
  | |- tallies _ (call_value _ _) => apply tallies_call_value
  | |- tallies _ (send _ _ _) => apply tallies_send
  | |- tallies _ (signal_alarm _) => apply tallies_signal_alarm
  | |- tallies _ (timed_call _ _ _) => apply tallies_timed_call
  | |- tallies _ (log_info _) => apply tallies_log_info
  | |- tallies _ (log_warning _) => apply tallies_log_warning
  | |- tallies _ (log_error _) => apply tallies_log_error
  | |- tallies _ (print _) => apply tallies_print
  | |- tallies _ (emit _) => apply tallies_emit; reflexivity
  | |- tallies _ (modify _) => apply tallies_modify; reflexivity
  | |- tallies _ (bind _ _) => apply tallies_bind; [|intros ?]
  | |- tallies _ (try_finally _ _) => apply tallies_try_finally
  | |- tallies _ (try_except _ _) =>
      apply tallies_try_except; [|tally_handlers]
  | |- tallies _ (if ?b then _ else _) => destruct b
  | |- tallies _ (match ?x with Some _ => _ | None => _ end) => destruct x
  end.

Ltac tally := repeat first [assumption | tally_step].

Lemma ws_handle_message_tallies ws addr f :
  tallies WS.command_count (WS.handle_message ws addr f).
Proof.
  intros s w. unfold final_world, final_state.
  destruct (is_valid (command_of (WS.text f))) eqn:Hv.
  - rewrite ws_handle_message_valid by done. cbv zeta.
    destruct (WS.send_acks s); [destruct (WS.send_answer f)|];
      (eexists; split; [reflexivity|]); unfold logged_commands; simpl; lia.
  - rewrite ws_handle_message_invalid by done. cbv zeta.
    destruct (WS.send_acks s); [destruct (WS.send_answer f)|];
      (eexists; split; [reflexivity|]); unfold logged_commands; simpl; lia.
Qed.

Lemma ws_receive_loop_tallies ws addr fs ending :
  tallies WS.command_count (WS.receive_loop ws addr fs ending).
Proof.
  induction fs as [|f fs IH]; simpl; tally.
  apply ws_handle_message_tallies.
Qed.

Lemma ws_handle_client_tallies ws sess :
  tallies WS.command_count (WS.handle_client ws sess).
Proof.
  unfold WS.handle_client, WS.log_total_clients. tally.
  all: apply ws_receive_loop_tallies.
Qed.

Lemma tallies_as_task m :
  tallies WS.command_count m → tallies WS.command_count (WS.as_task m).
Proof.
  intros Hm s w. destruct (Hm s w) as (t & Ht & Hc). exists t.
  unfold WS.as_task, final_world, final_state in *.
  by destruct (m s w) as [[[[]|e|] s1] w1]; [|destruct (WS.stops_loop e)|].
Qed.

Lemma ws_serve_sessions_tallies l :
  tallies WS.command_count (WS.serve_sessions l).
Proof.
  induction l as [|[ws sess] l IH]; simpl; tally.
  apply tallies_as_task, ws_handle_client_tallies.
Qed.

Lemma ws_get_local_ip_tallies p :
  tallies WS.command_count (WS.get_local_ip p).
Proof. unfold WS.get_local_ip. tally. Qed.

Lemma ws_register_mdns_tallies ip r :
  tallies WS.command_count (WS.register_mdns ip r).
Proof. unfold WS.register_mdns. tally. Qed.

Lemma ws_unregister_mdns_tallies r :
  tallies WS.command_count (WS.unregister_mdns r).
Proof.
  unfold WS.unregister_mdns. tally.
Qed.

Lemma ws_start_tallies r : tallies WS.command_count (WS.start r).
Proof.
  unfold WS.start. tally.
  - apply ws_get_local_ip_tallies.
  - apply ws_register_mdns_tallies.
  - apply ws_serve_sessions_tallies.
Qed.

Lemma ws_shutdown_tallies r : tallies WS.command_count (WS.shutdown r).
Proof.
  unfold WS.shutdown. tally. apply ws_unregister_mdns_tallies.
Qed.

(** ** Computations that come back *)

Section ComesBack.
Context {S : Type}.

Lemma comes_back_ret {A} (a : A) : comes_back (S := S) (ret a).
Proof. by intros s w. Qed.

Lemma comes_back_raise {A} e : comes_back (S := S) (raise (A := A) e).
Proof. by intros s w. Qed.

Lemma comes_back_get : comes_back (S := S) get.
Proof. by intros s w. Qed.

Lemma comes_back_modify (f : S → S) : comes_back (modify f).
Proof. by intros s w. Qed.

Lemma comes_back_emit ev : comes_back (S := S) (emit ev).
Proof. by intros s w. Qed.

Lemma comes_back_bind {A B} (m : M S A) (k : A → M S B) :
  comes_back m → (∀ a, comes_back (k a)) → comes_back (bind m k).
Proof.
  intros Hm Hk s w. specialize (Hm s w). unfold bind, result in *.
  destruct (m s w) as [[[a|e|] s1] w1]; simpl in *; [|done..].
  apply (Hk a s1 w1).
Qed.

Lemma comes_back_select_handler {A}
      (hs : list ((exn → bool) * (exn → M S A))) e :
  (∀ h, h ∈ hs → ∀ e, comes_back (h.2 e)) →
  comes_back (select_handler hs e).
Proof.
  induction hs as [|[test h] hs IH]; intros Hhs; simpl.
  - apply comes_back_raise.
  - destruct (test e).
    + apply (Hhs (test, h)). by left.
    + apply IH. intros h' Hh'. apply Hhs. by right.
Qed.

Lemma comes_back_try_except {A} (body : M S A) hs :
  comes_back body →
  (∀ h, h ∈ hs → ∀ e, comes_back (h.2 e)) →
  comes_back (try_except body hs).
Proof.
  intros Hb Hhs s w. specialize (Hb s w). unfold try_except, result in *.
  destruct (body s w) as [[[a|e|] s1] w1]; simpl in *; [done| |done].
  apply (comes_back_select_handler hs e Hhs s1 w1).
Qed.

Lemma comes_back_try_finally {A} (body : M S A) (fin : M S unit) :
  comes_back body → comes_back fin → comes_back (try_finally body fin).
Proof.
  intros Hb Hf s w. specialize (Hb s w). unfold try_finally, result in *.
  destruct (body s w) as [[o s1] w1]; simpl in *.
  specialize (Hf s1 w1). unfold result in Hf.
  destruct o as [a|e|]; [| |done];
    by destruct (fin s1 w1) as [[[[]|e'|] s2] w2].
Qed.

Lemma comes_back_call f answer : comes_back (S := S) (call f answer).
Proof. intros s w. by destruct answer. Qed.

Lemma comes_back_call_value {A} f (answer : A + exn) :
  comes_back (S := S) (call_value f answer).
Proof. intros s w. by destruct answer. Qed.

Lemma comes_back_send conn payload answer :
  comes_back (S := S) (send conn payload answer).
Proof. intros s w. by destruct answer. Qed.

End ComesBack.

Ltac come_back_handlers :=
  let h := fresh "h" in
  let Hh := fresh "Hh" in
  let e := fresh "e" in
  intros h Hh e;
  repeat (apply elem_of_cons in Hh as [->|Hh]);
  [..|by apply elem_of_nil in Hh]; cbn [snd].

Ltac come_back_step :=
  cbv beta;
  lazymatch goal with
  | |- comes_back (ret _) => apply comes_back_ret
  | |- comes_back (raise _) => apply comes_back_raise
  | |- comes_back get => apply comes_back_get
  | |- comes_back (call _ _) => apply comes_back_call
  | |- comes_back (call_value _ _) => apply comes_back_call_value
  | |- comes_back (send _ _ _) => apply comes_back_send
  | |- comes_back (log_info _) => apply comes_back_emit
  | |- comes_back (log_warning _) => apply comes_back_emit
  | |- comes_back (log_error _) => apply comes_back_emit
  | |- comes_back (log_command _ _) => apply comes_back_emit
  | |- comes_back (print _) => apply comes_back_emit
  | |- comes_back (emit _) => apply comes_back_emit
  | |- comes_back (modify _) => apply comes_back_modify
  | |- comes_back (bind _ _) => apply comes_back_bind; [|intros ?]
  | |- comes_back (try_finally _ _) => apply comes_back_try_finally
  | |- comes_back (try_except _ _) =>
      apply comes_back_try_except; [|come_back_handlers]
  | |- comes_back (if ?b then _ else _) => destruct b
  | |- comes_back (match ?x with Some _ => _ | None => _ end) => destruct x
  end.

Ltac come_back := repeat first [assumption | come_back_step].

Lemma ws_handle_message_comes_back ws addr f :
  comes_back (WS.handle_message ws addr f).
Proof. intros s w. apply ws_handle_message_returns. Qed.

Lemma ws_receive_loop_comes_back ws addr fs ending :
  comes_back (WS.receive_loop ws addr fs ending).
Proof.
  induction fs as [|f fs IH]; simpl; come_back.
  apply ws_handle_message_comes_back.
Qed.

Lemma ws_handle_client_comes_back ws sess :
  comes_back (WS.handle_client ws sess).
Proof.
  unfold WS.handle_client, WS.log_total_clients. come_back.
  all: apply ws_receive_loop_comes_back.
Qed.

Lemma comes_back_as_task m : comes_back m → comes_back (WS.as_task m).
Proof.
  intros Hm s w. specialize (Hm s w). unfold WS.as_task, result in *.
  by destruct (m s w) as [[[[]|e|] s1] w1]; [|destruct (WS.stops_loop e)|].
Qed.

Lemma ws_serve_sessions_comes_back l : comes_back (WS.serve_sessions l).
Proof.
  induction l as [|[ws sess] l IH]; simpl; come_back.
  apply comes_back_as_task, ws_handle_client_comes_back.
Qed.

Lemma ws_start_comes_back r : comes_back (WS.start r).
Proof.
  unfold WS.start, WS.get_local_ip, WS.register_mdns. come_back.
  apply ws_serve_sessions_comes_back.
Qed.

(** ** The summary of a run *)

Lemma serves_nobody_logs_nothing t :
  existsb serves t = false → logged_commands t = 0%nat.
Proof.
  unfold logged_commands. induction t as [|ev t IH]; [done|]. simpl.
  intros [Hev Ht]%orb_false_elim. destruct ev; simpl in *; try done;
    by apply IH.
Qed.

Lemma ws_script_ends_like_main acks r w :
  final_state (WS.script acks r w) = final_state (WS.main acks r w)
  ∧ final_world (WS.script acks r w) = final_world (WS.main acks r w)
  ∧ (result (WS.main acks r w) ≠ Hang → result (WS.script acks r w) ≠ Hang).
Proof.
  unfold WS.script.
  by destruct (WS.main acks r w) as [[[a|[]|] s] w'].
Qed.

Lemma ws_main_summary acks r :
  (∀ e, e ∈ retraction_errors (WS.run_retraction r) → is_Exception e = true) →
  let res := WS.main acks r initial_world in
  result res ≠ Hang
  ∧ ∃ t,
      trace (final_world res) =
        (t ++ summary_lines (Z.of_nat (logged_commands t)))%list
      ∧ WS.command_count (final_state res) = Z.of_nat (logged_commands t).
Proof.
  intros He res. subst res. unfold WS.main.
  set (body := try_except (WS.start r) _).
  assert (tallies WS.command_count body) as Ht.
  { subst body. tally. apply ws_start_tallies. }
  assert (comes_back body) as Hb.
  { subst body. come_back. apply ws_start_comes_back. }
  destruct (Ht (WS.init acks) initial_world) as (t1 & Ht1 & Hc1).
  specialize (Hb (WS.init acks) initial_world).
  unfold try_finally, result, final_state, final_world in *.
  destruct (body (WS.init acks) initial_world) as [[o s1] w1].
  cbn [fst snd] in *.
  destruct (ws_shutdown_spec s1 (WS.run_retraction r) He w1)
    as (Hres & Hst & _ & t & Htr & Hserves & _).
  unfold result, final_state, final_world in *.
  destruct (WS.shutdown (WS.run_retraction r) s1 w1) as [[o2 s2] w2].
  cbn [fst snd] in *. subst o2 s2.
  assert (∃ t0,
            trace w2 =
              (t0 ++ summary_lines (Z.of_nat (logged_commands t0)))%list
            ∧ WS.command_count s1 = Z.of_nat (logged_commands t0)) as Hsum.
  { exists (t1 ++ [Log INFO (Text.nl +:+ "Shutting down server...")] ++ t)%list.
    rewrite !logged_commands_app, (serves_nobody_logs_nothing t Hserves).
    change (logged_commands [Log INFO _]) with 0%nat.
    rewrite Htr, Ht1. simpl in Hc1.
    replace (Z.of_nat (logged_commands t1 + (0 + 0))) with (WS.command_count s1)
      by lia.
    split; [|lia]. unfold summary_lines. simpl. by rewrite <- !app_assoc. }
  by destruct o as [a|e|].
Qed.

Lemma bt_handle_message_tallies addr decoded answer :
  tallies BT.command_count (BT.handle_message addr decoded answer).
Proof.
  intros s w. unfold final_world, final_state, BT.handle_message,
    BT.the_client_sock. fold (command_of decoded).
  destruct (is_valid (command_of decoded)); run;
    destruct s as [[] n ss [sock|] r], answer; cbn [fst snd trace
      BT.command_count BT.set_command_count BT.send_acks BT.client_sock];
    rewrite <- ?app_assoc; (eexists; split; [reflexivity|]);
    unfold logged_commands; simpl; lia.
Qed.

Lemma bt_handle_message_comes_back addr decoded answer :
  comes_back (BT.handle_message addr decoded answer).
Proof.
  intros s w. unfold result, BT.handle_message, BT.the_client_sock.
  destruct (is_valid (command_of decoded)) eqn:Hv;
    fold (command_of decoded); rewrite ?Hv; run;
    by destruct s as [[] n ss [sock|] r], answer.
Qed.

Lemma bt_the_client_sock_tallies : tallies BT.command_count BT.the_client_sock.
Proof. unfold BT.the_client_sock. tally. Qed.

Lemma bt_the_client_sock_comes_back : comes_back BT.the_client_sock.
Proof. unfold BT.the_client_sock. come_back. Qed.

Lemma bt_receive_loop_tallies addr ps ending :
  tallies BT.command_count (BT.receive_loop addr ps ending).
Proof.
  induction ps as [|[[|c d] answer|msg] ps IH]; simpl; tally;
    first [apply bt_the_client_sock_tallies
          |apply bt_handle_message_tallies
          |idtac].
Qed.

Lemma bt_receive_loop_comes_back addr ps ending :
  comes_back (BT.receive_loop addr ps ending).
Proof.
  induction ps as [|[[|c d] answer|msg] ps IH]; simpl; come_back;
    first [apply bt_the_client_sock_comes_back
          |apply bt_handle_message_comes_back
          |idtac].
Qed.

Lemma bt_close_tallies sock answer :
  tallies BT.command_count (BT.close sock answer).
Proof. unfold BT.close. tally. Qed.

Lemma bt_close_comes_back sock answer : comes_back (BT.close sock answer).
Proof. unfold BT.close. come_back. Qed.

Lemma bt_handle_client_tallies addr sess :
  tallies BT.command_count (BT.handle_client addr sess).
Proof.
  unfold BT.handle_client, except_pass. tally;
    first [apply bt_receive_loop_tallies|apply bt_close_tallies].
Qed.

Lemma bt_handle_client_comes_back addr sess :
  comes_back (BT.handle_client addr sess).
Proof.
  unfold BT.handle_client, except_pass. come_back;
    first [apply bt_receive_loop_comes_back|apply bt_close_comes_back].
Qed.

Lemma bt_accept_once_tallies a : tallies BT.command_count (BT.accept_once a).
Proof.
  unfold BT.accept_once, BT.signal_handler. tally.
  match goal with a : BT.accept_answer |- _ => destruct a end; tally.
  apply bt_handle_client_tallies.
Qed.

Lemma bt_accept_once_comes_back a : comes_back (BT.accept_once a).
Proof.
  unfold BT.accept_once, BT.signal_handler. come_back.
  match goal with a : BT.accept_answer |- _ => destruct a end; come_back.
  apply bt_handle_client_comes_back.
Qed.

Lemma bt_accept_loop_tallies l : tallies BT.command_count (BT.accept_loop l).
Proof.
  induction l as [|a l IH]; simpl; tally; apply bt_accept_once_tallies.
Qed.

Lemma bt_accept_loop_comes_back l : comes_back (BT.accept_loop l).
Proof.
  induction l as [|a l IH]; simpl; come_back; apply bt_accept_once_comes_back.
Qed.

Section Summary.
Context {S : Type} (count : S → Z).

Lemma ends_with_summary_emit {A} ev (k : M S A) :
  is_log_command ev = false →
  ends_with_summary count k →
  ends_with_summary count (bind (emit ev) (λ _, k)).
Proof.
  intros Hev Hk s w.
  destruct (Hk s (after w [ev])) as (Hr & t & Ht & Hc).
  split; [exact Hr|]. exists (ev :: t).
  change (bind (emit ev) (λ _, k) s w) with (k s (after w [ev])).
  rewrite Ht, Hc. simpl. rewrite <- app_assoc. split; [done|].
  unfold logged_commands. simpl. by rewrite Hev.
Qed.

Lemma ends_with_summary_get {A} (k : S → M S A) :
  (∀ s, ends_with_summary count (k s)) →
  ends_with_summary count (bind get k).
Proof. intros Hk s w. apply (Hk s s w). Qed.

Lemma ends_with_summary_finally {A} (body : M S A) (fin : M S unit) :
  tallies count body →
  comes_back body →
  (∀ s w, ∃ s' w' t,
     fin s w = (Return tt, s', w')
     ∧ trace w' = (trace w ++ t ++ summary_lines (count s))%list
     ∧ logged_commands t = 0%nat
     ∧ count s' = count s) →
  ends_with_summary count (try_finally body fin).
Proof.
  intros Hb Hc Hf s w. destruct (Hb s w) as (t1 & Ht1 & Hc1).
  specialize (Hc s w).
  unfold try_finally, result, final_state, final_world in *.
  destruct (body s w) as [[o s1] w1]. cbn [fst snd] in *.
  destruct (Hf s1 w1) as (s2 & w2 & t2 & -> & Ht2 & H0 & Hc2).
  assert (∃ t,
            trace w2 = (trace w ++ t ++ summary_lines (count s2))%list
            ∧ count s2 = count s + Z.of_nat (logged_commands t)) as Hsum.
  { exists (t1 ++ t2)%list. rewrite logged_commands_app, H0, Ht2, Ht1, Hc2.
    split; [by rewrite <- !app_assoc|lia]. }
  by destruct o as [a|e|].
Qed.

End Summary.

Lemma bt_shutdown_spec td s w :
  BT.shutdown td s w =
    (Return tt, BT.set_running false s,
     after w ([Log INFO (Text.nl +:+ "Shutting down server...")]
              ++ bt_teardown_events s
              ++ summary_lines (BT.command_count s))).
Proof.
  unfold BT.shutdown, BT.close, summary_lines, bt_teardown_events, after. run.
  destruct s as [acks n [[]|] [sock|] r], td as [[cc|] [sa|] [sc|]];
    cbn [trace clock alarm fst snd app BT.client_sock BT.server_sock
         BT.set_running BT.command_count BT.client_close BT.stop_advertising
         BT.server_close BT.running BT.send_acks];
    rewrite <- ?app_assoc; reflexivity.
Qed.

Lemma bt_start_ends_with_summary r :
  ends_with_summary BT.command_count (BT.start r).
Proof.
  unfold BT.start, print, log_info.
  repeat first [ apply ends_with_summary_emit; [reflexivity|]
               | apply ends_with_summary_get; intros ? ].
  apply ends_with_summary_finally.
  - tally. apply bt_accept_loop_tallies.
  - come_back. apply bt_accept_loop_comes_back.
  - intros s1 w. rewrite bt_shutdown_spec.
    eexists _, _,
      ([Log INFO (Text.nl +:+ "Shutting down server...")]
       ++ bt_teardown_events s1)%list.
    split_and!; [reflexivity| | |reflexivity].
    + unfold after. cbn [trace]. by rewrite <- !app_assoc.
    + unfold bt_teardown_events.
      by destruct (BT.client_sock s1), (BT.server_sock s1).
Qed.

(** X1.  Every run of the Bluetooth server, whatever the transport answers
    and whatever the clients send, comes to an end with the summary: the
    last two lines of its output are the total of commands processed and
    the line that the server stopped, and the total reported is the number
    of commands logged during the run. *)
Theorem bt_run_ends_with_true_summary (acks : bool) (r : BT.run) :
  let res := BT.main acks r initial_world in
  result res ≠ Hang
  ∧ ∃ t,
      trace (final_world res) =
        (t ++ summary_lines (Z.of_nat (logged_commands t)))%list
      ∧ BT.command_count (final_state res) = Z.of_nat (logged_commands t).
Proof.
  destruct (bt_start_ends_with_summary r (BT.init acks) initial_world)
    as (Hr & t & Ht & Hc).
  cbv zeta. unfold BT.main. split; [exact Hr|]. exists t.
  rewrite Ht, Hc. change (BT.command_count (BT.init acks)) with 0.
  rewrite Z.add_0_l. by split.
Qed.

(** X2.  Every run of the WebSocket server in which the discovery library
    raises nothing but instances of [Exception] at retraction comes to an
    end with the summary: the last two lines of its output are the total
    of commands processed and the line that the server stopped, and the
    total reported is the number of commands logged during the run,
    whatever happened at startup and in the sessions. *)
Theorem ws_run_ends_with_true_summary (acks : bool) (r : WS.run) :
  (∀ e, e ∈ retraction_errors (WS.run_retraction r) → is_Exception e = true) →
  let res := WS.script acks r initial_world in
  result res ≠ Hang
  ∧ ∃ t,
      trace (final_world res) =
        (t ++ summary_lines (Z.of_nat (logged_commands t)))%list
      ∧ WS.command_count (final_state res) = Z.of_nat (logged_commands t).
Proof.
  intros He. destruct (ws_main_summary acks r He) as (Hr & t & Ht & Hc).
  destruct (ws_script_ends_like_main acks r initial_world) as (Hs & Hw & Hh).
  cbv zeta. rewrite Hs, Hw. split; [by apply Hh|]. by exists t.
Qed.

Lemma ws_run_ends_with_true_summary_witness :
  let client := WS.WebSocket 1 ("10.0.0.5", 51234) in
  let r := WS.Run (WS.Probe None None (inl "192.168.1.4") None)
                  (WS.Registration None None None) None
                  [(client,
                    WS.Session [WS.Frame "forward" None; WS.Frame "jump" None;
                                WS.Frame "LEFT" None] None)]
                  (WS.Retraction (Answer (Some 5%N) None None)
                                 (Answer (Some 5%N) (Some (OSError "closed")) None)) in
  ∃ t,
    trace (final_world (WS.script true r initial_world)) =
      (t ++ summary_lines (Z.of_nat (logged_commands t)))%list
    ∧ WS.command_count (final_state (WS.script true r initial_world)) = 2.
Proof.
  intros client r.
  assert (∀ e, e ∈ retraction_errors (WS.run_retraction r) →
               is_Exception e = true) as He.
  { intros e. unfold retraction_errors. simpl.
    rewrite list_elem_of_singleton. by intros ->. }
  destruct (ws_run_ends_with_true_summary true r He) as (_ & t & Ht & Hc).
  exists t. split; [exact Ht|]. reflexivity.
Defined.

(** ** What a session leaves behind *)

Lemma ws_handle_message_effect ws addr f s w :
  ∃ s' t,
    WS.handle_message ws addr f s w =
      (outcome_of (if WS.send_acks s then WS.send_answer f else None),
       s', after w t)
    ∧ WS.send_acks s' = WS.send_acks s
    ∧ WS.command_count s' =
        WS.command_count s + Z.of_nat (valid_messages [WS.text f])
    ∧ sent t = replies (WS.send_acks s) (WS.ws_id ws) [WS.text f].
Proof.
  unfold valid_messages, replies, reply_to. simpl.
  destruct (is_valid (command_of (WS.text f))) eqn:Hv.
  - rewrite ws_handle_message_valid by done. cbv zeta.
    destruct (WS.send_acks s) eqn:Ha; [destruct (WS.send_answer f)|];
      eexists _, _; (split_and!; [reflexivity|done|simpl; lia|done]).
  - rewrite ws_handle_message_invalid by done. cbv zeta.
    destruct (WS.send_acks s) eqn:Ha; [destruct (WS.send_answer f)|];
      eexists _, _; (split_and!; [reflexivity|done|simpl; lia|done]).
Qed.

Lemma valid_messages_cons m l :
  valid_messages (m :: l) = (valid_messages [m] + valid_messages l)%nat.
Proof.
  unfold valid_messages. simpl. by destruct (is_valid (command_of m)).
Qed.

Lemma replies_cons acks conn m l :
  replies acks conn (m :: l)
  = (replies acks conn [m] ++ replies acks conn l)%list.
Proof. by destruct acks. Qed.

Lemma ws_receive_loop_effect ws addr fs ending s w :
  ∃ s' t,
    WS.receive_loop ws addr fs ending s w =
      (outcome_of (ws_first_error (WS.send_acks s) fs ending), s', after w t)
    ∧ WS.send_acks s' = WS.send_acks s
    ∧ WS.command_count s' =
        WS.command_count s
        + Z.of_nat (valid_messages (ws_processed (WS.send_acks s) fs))
    ∧ sent t =
        replies (WS.send_acks s) (WS.ws_id ws)
                (ws_processed (WS.send_acks s) fs).
Proof.
  revert s w. induction fs as [|f fs IH]; intros s w.
  - exists s, [Recv (WS.ws_id ws)]. simpl. run.
    split_and!; [by destruct ending|done|unfold valid_messages; simpl; lia|].
    by destruct (WS.send_acks s).
  - rewrite ws_receive_loop_cons.
    destruct (ws_handle_message_effect ws addr f s
                (after w [Recv (WS.ws_id ws)]))
      as (s1 & t1 & -> & Ha1 & Hc1 & Hs1).
    destruct (IH s1 (after (after w [Recv (WS.ws_id ws)]) t1))
      as (s2 & t2 & Hloop & Ha2 & Hc2 & Hs2).
    rewrite Ha1 in Hloop, Ha2, Hc2, Hs2. simpl ws_first_error.
    simpl ws_processed.
    destruct (WS.send_acks s) eqn:Ha; [destruct (WS.send_answer f)|];
      simpl outcome_of; cbv iota.
    + exists s1, (Recv (WS.ws_id ws) :: t1). rewrite after_after.
      split_and!; [done|done|done|].
      by change (sent (Recv (WS.ws_id ws) :: t1)) with (sent t1).
    + rewrite Hloop. exists s2, ((Recv (WS.ws_id ws) :: t1) ++ t2)%list.
      rewrite !after_after. split_and!; [done|congruence| |].
      * rewrite valid_messages_cons. lia.
      * change (sent ((Recv (WS.ws_id ws) :: t1) ++ t2))
          with (sent (t1 ++ t2)).
        by rewrite replies_cons, sent_app, <- Hs2, <- Hs1.
    + rewrite Hloop. exists s2, ((Recv (WS.ws_id ws) :: t1) ++ t2)%list.
      rewrite !after_after. split_and!; [done|congruence| |].
      * rewrite valid_messages_cons. lia.
      * change (sent ((Recv (WS.ws_id ws) :: t1) ++ t2))
          with (sent (t1 ++ t2)).
        by rewrite sent_app, Hs2, Hs1.
Qed.

Lemma ws_handle_client_effect ws sess s w :
  let acks := WS.send_acks s in
  let processed := ws_processed acks (WS.frames sess) in
  ∃ s' t,
    WS.handle_client ws sess s w =
      (handler_outcome (ws_first_error acks (WS.frames sess) (WS.ending sess)),
       s', after w t)
    ∧ WS.command_count s' =
        WS.command_count s + Z.of_nat (valid_messages processed)
    ∧ sent t = replies acks (WS.ws_id ws) processed.
Proof.
  intros acks processed. rewrite ws_handle_client_unfold. cbv beta zeta.
  set (s0 := WS.set_connected_clients _ s).
  set (w0 := after (after w _) _).
  destruct (ws_receive_loop_effect ws (WS.client_addr_of ws) (WS.frames sess)
              (WS.ending sess) s0 w0) as (s1 & t1 & -> & Ha & Hc & Hs).
  change (WS.send_acks s0) with acks in *.
  change (WS.command_count s0) with (WS.command_count s) in Hc.
  fold processed in Hc, Hs. subst w0. clearbody s0.
  unfold handler_outcome.
  destruct (ws_first_error acks (WS.frames sess) (WS.ending sess)) as [e|];
    cbn [outcome_of].
  - destruct (is_ConnectionClosed e) eqn:Hcc;
      [assert (is_Exception e = true) as -> by by destruct e|
       destruct (is_Exception e) eqn:Hex];
      rewrite ?after_after; eexists _, _;
      (split; [reflexivity|split; [done|]]);
      by rewrite !sent_app, Hs, ?app_nil_r.
  - rewrite ?after_after; eexists _, _;
      (split; [reflexivity|split; [done|]]).
    by rewrite !sent_app, Hs, ?app_nil_r.
Qed.

(** X3.  A WebSocket session whose handler runs without another handler in
    between counts exactly the valid commands among the messages that
    reach the loop body, and with acknowledgments enabled it
    writes to its client exactly one reply per such message, in the order
    of the messages: [OK:<command>] for a valid one and
    [ERROR:Unknown command '<text>'] for any other; a message whose reply
    cannot be sent is still counted, and the messages after it are never
    read.  Without acknowledgments every message of the session is counted
    if valid and nothing is written.  However the session ends, the client
    is no longer in [connected_clients] afterwards. *)
Theorem ws_session_counts_and_replies ws sess s w :
  let acks := WS.send_acks s in
  let processed := ws_processed acks (WS.frames sess) in
  ∃ s' t,
    WS.handle_client ws sess s w =
      (handler_outcome (ws_first_error acks (WS.frames sess) (WS.ending sess)),
       s', after w t)
    ∧ WS.command_count s' =
        WS.command_count s + Z.of_nat (valid_messages processed)
    ∧ sent t = replies acks (WS.ws_id ws) processed
    ∧ WS.connected_clients s' = WS.connected_clients s ∖ {[ WS.ws_id ws ]}.
Proof.
  intros acks processed.
  destruct (ws_handle_client_effect ws sess s w)
    as (s' & t & Heq & Hn & Hst).
  destruct (ws_handle_client_spec ws sess s w)
    as (s'' & t' & Heq' & _ & Hcl & _).
  assert (s'' = s') as -> by congruence.
  exists s', t. split_and!; [done..|].
  rewrite Hcl. apply set_eq. intros y.
  rewrite !elem_of_difference, elem_of_union. tauto.
Qed.

Lemma closed_app t1 t2 : closed (t1 ++ t2) = (closed t1 ++ closed t2)%list.
Proof. unfold closed. by rewrite flat_map_app. Qed.

Lemma bt_handle_message_effect addr decoded answer s w sock :
  BT.client_sock s = Some sock →
  ∃ s' t,
    BT.handle_message addr decoded answer s w =
      (outcome_of (if BT.send_acks s then answer else None), s', after w t)
    ∧ BT.send_acks s' = BT.send_acks s
    ∧ BT.client_sock s' = BT.client_sock s
    ∧ BT.running s' = BT.running s
    ∧ BT.server_sock s' = BT.server_sock s
    ∧ BT.command_count s' =
        BT.command_count s + Z.of_nat (valid_messages [decoded])
    ∧ sent t = replies (BT.send_acks s) sock [decoded]
    ∧ closed t = [].
Proof.
  intros Hs. unfold valid_messages, replies, reply_to. simpl.
  destruct (is_valid (command_of decoded)) eqn:Hv.
  - rewrite (bt_handle_message_valid _ _ _ _ _ sock) by done. cbv zeta.
    destruct (BT.send_acks s) eqn:Ha; [destruct answer|];
      eexists _, _;
      (split_and!; [reflexivity|done|done|done|done|simpl; lia|done|done]).
  - rewrite (bt_handle_message_invalid _ _ _ _ _ sock) by done. cbv zeta.
    destruct (BT.send_acks s) eqn:Ha; [destruct answer|];
      eexists _, _;
      (split_and!; [reflexivity|done|done|done|done|simpl; lia|done|done]).
Qed.

Lemma bt_receive_loop_effect addr ps ending s w sock :
  BT.running s = true → BT.client_sock s = Some sock →
  ∃ s' t,
    BT.receive_loop addr ps ending s w =
      (outcome_of (bt_first_error (BT.send_acks s) ps ending), s', after w t)
    ∧ BT.client_sock s' = Some sock
    ∧ BT.command_count s' =
        BT.command_count s
        + Z.of_nat (valid_messages (bt_processed (BT.send_acks s) ps))
    ∧ sent t = replies (BT.send_acks s) sock (bt_processed (BT.send_acks s) ps)
    ∧ closed t = []
    ∧ BT.send_acks s' = BT.send_acks s
    ∧ BT.running s' = true
    ∧ BT.server_sock s' = BT.server_sock s.
Proof.
  revert s w. induction ps as [|p ps IH]; intros s w Hr Hs;
    rewrite bt_receive_loop_unfold, Hr, Hs.
  - exists s, [Recv sock].
    split_and!; [done|done|unfold valid_messages; simpl; lia| |done..].
    by destruct (BT.send_acks s).
  - destruct p as [[|c d] answer|msg].
    + exists s, [Recv sock].
      split_and!; [done|done|unfold valid_messages; simpl; lia| |done..].
      by destruct (BT.send_acks s).
    + destruct (bt_handle_message_effect addr (String c d) answer s
                  (after w [Recv sock]) sock Hs)
        as (s1 & t1 & -> & Ha1 & Hc1 & Hr1 & Hss1 & Hn1 & Hs1 & Hcl1).
      rewrite Hs in Hc1. rewrite Hr in Hr1.
      destruct (IH s1 (after (after w [Recv sock]) t1) Hr1 Hc1)
        as (s2 & t2 & Hloop & Hc2 & Hn2 & Hs2 & Hcl2 & Ha2 & Hr2 & Hss2).
      rewrite Ha1 in Hloop, Hn2, Hs2. simpl bt_first_error.
      simpl bt_processed.
      destruct (BT.send_acks s) eqn:Ha; [destruct answer|];
        simpl outcome_of; cbv iota.
      * exists s1, (Recv sock :: t1). rewrite after_after.
        split_and!; [done|done|done| |done..].
        by change (sent (Recv sock :: t1)) with (sent t1).
      * rewrite Hloop. exists s2, ((Recv sock :: t1) ++ t2)%list.
        rewrite !after_after. split_and!; [done|done| | | |congruence..].
        -- rewrite valid_messages_cons. lia.
        -- change (sent ((Recv sock :: t1) ++ t2)) with (sent (t1 ++ t2)).
           by rewrite replies_cons, sent_app, <- Hs2, <- Hs1.
        -- change (closed ((Recv sock :: t1) ++ t2)) with (closed (t1 ++ t2)).
           by rewrite closed_app, Hcl1, Hcl2.
      * rewrite Hloop. exists s2, ((Recv sock :: t1) ++ t2)%list.
        rewrite !after_after. split_and!; [done|done| | | |congruence..].
        -- rewrite valid_messages_cons. lia.
        -- change (sent ((Recv sock :: t1) ++ t2)) with (sent (t1 ++ t2)).
           by rewrite sent_app, Hs2, Hs1.
        -- change (closed ((Recv sock :: t1) ++ t2)) with (closed (t1 ++ t2)).
           by rewrite closed_app, Hcl1, Hcl2.
    + exists s, [Recv sock].
      split_and!; [done|done|unfold valid_messages; simpl; lia| |done..].
      by destruct (BT.send_acks s).
Qed.

Lemma bt_handle_client_effect addr sess s w sock :
  BT.running s = true → BT.client_sock s = Some sock →
  let acks := BT.send_acks s in
  let processed := bt_processed acks (BT.packets sess) in
  ∃ s' t,
    BT.handle_client addr sess s w =
      (handler_outcome (bt_first_error acks (BT.packets sess) (BT.ending sess)),
       s', after w (t ++ [Close sock]))
    ∧ BT.client_sock s' = None
    ∧ BT.command_count s' =
        BT.command_count s + Z.of_nat (valid_messages processed)
    ∧ sent t = replies acks sock processed
    ∧ closed t = []
    ∧ BT.send_acks s' = acks
    ∧ BT.running s' = true
    ∧ BT.server_sock s' = BT.server_sock s.
Proof.
  intros Hr Hs acks processed. rewrite bt_handle_client_unfold.
  cbv beta zeta.
  destruct (bt_receive_loop_effect addr (BT.packets sess) (BT.ending sess)
              s w sock Hr Hs)
    as (s1 & t1 & -> & Hc & Hn & Hst & Hcl & Ha1 & Hr1 & Hss1).
  fold acks in Hn, Hst, Ha1 |- *. fold processed in Hn, Hst.
  unfold handler_outcome.
  destruct (bt_first_error acks (BT.packets sess) (BT.ending sess)) as [e|];
    cbn [outcome_of].
  - destruct (is_BluetoothError e) eqn:Hbe;
      [assert (is_Exception e = true) as -> by by destruct e|
       destruct (is_Exception e) eqn:Hex];
      rewrite Hc, ?after_after, ?(app_assoc t1); eexists _, _;
      (split_and!; [reflexivity|done|done| | |done..]);
      by rewrite ?sent_app, ?closed_app, ?Hst, ?Hcl, ?app_nil_r.
  - rewrite Hc, ?after_after, ?(app_assoc t1); eexists _, _;
      (split_and!; [reflexivity|done|done| | |done..]);
      by rewrite ?sent_app, ?closed_app, ?Hst, ?Hcl, ?app_nil_r.
Qed.

(** X4.  A Bluetooth session of a running server counts exactly the valid
    commands among the messages that reach the loop body: those before the
    first zero-length read, the first data that is not UTF-8 and, with
    acknowledgments enabled, the first reply that cannot be sent (that
    message included).  With acknowledgments enabled the writes to the
    client are exactly one reply per such message, in order; without, there
    is none.  The session ends by closing the client socket and clearing
    the client slot, and it propagates only what is not an [Exception]. *)
Theorem bt_session_counts_and_replies addr sess s w sock :
  BT.running s = true → BT.client_sock s = Some sock →
  let acks := BT.send_acks s in
  let processed := bt_processed acks (BT.packets sess) in
  ∃ s' t,
    BT.handle_client addr sess s w =
      (handler_outcome (bt_first_error acks (BT.packets sess) (BT.ending sess)),
       s', after w (t ++ [Close sock]))
    ∧ BT.client_sock s' = None
    ∧ BT.command_count s' =
        BT.command_count s + Z.of_nat (valid_messages processed)
    ∧ sent t = replies acks sock processed.
Proof.
  intros Hr Hs acks processed.
  destruct (bt_handle_client_effect addr sess s w sock Hr Hs)
    as (s' & t & H1 & H2 & H3 & H4 & _).
  by exists s', t.
Qed.

Lemma bt_session_counts_and_replies_witness :
  ∃ s' t,
    BT.handle_client "AA:BB" 
      {| BT.packets := [BT.Data " Forward " None; BT.Data "jump" None;
                        BT.Data "" None; BT.Data "left" None];
         BT.ending := None; BT.close_answer := None |}
      (BT.set_running true (BT.set_client_sock (Some 7%nat) (BT.init true)))
      initial_world =
      (Return tt, s', after initial_world (t ++ [Close 7%nat]))
    ∧ BT.client_sock s' = None
    ∧ BT.command_count s' = 1
    ∧ sent t = [Send 7%nat "OK:forward";
                Send 7%nat "ERROR:Unknown command 'jump'"].
Proof.
  exact (bt_session_counts_and_replies "AA:BB"
           {| BT.packets := [BT.Data " Forward " None; BT.Data "jump" None;
                             BT.Data "" None; BT.Data "left" None];
              BT.ending := None; BT.close_answer := None |}
           (BT.set_running true
              (BT.set_client_sock (Some 7%nat) (BT.init true)))
           initial_world 7%nat eq_refl eq_refl).
Defined.

(** ** The command a message stands for *)

(** X5.  Whitespace around a message does not matter: a message and the
    same message between two runs of whitespace stand for the same command,
    so both are classified alike and get the same reply; and a message made
    of whitespace only stands for the empty command, which is not valid. *)
Theorem surrounding_whitespace_is_ignored (p message q : string) :
  blank p = true → blank q = true →
  command_of (p +:+ message +:+ q) = command_of message
  ∧ reply_to (p +:+ message +:+ q) = reply_to message
  ∧ command_of (p +:+ q) = ""
  ∧ is_valid (command_of (p +:+ q)) = false.
Proof.
  intros Hp Hq.
  assert (command_of (p +:+ message +:+ q) = command_of message) as H1
    by (unfold command_of; by rewrite strip_pads).
  assert (command_of (p +:+ q) = "") as H2.
  { unfold command_of, Text.strip.
    by rewrite lstrip_blank, lstrip_of_blank by done. }
  split_and!; [done|unfold reply_to; by rewrite H1|done|by rewrite H2].
Qed.

Lemma surrounding_whitespace_is_ignored_witness :
  command_of "  Left  " = command_of "Left"
  ∧ reply_to "  Left  " = reply_to "Left".
Proof.
  destruct (surrounding_whitespace_is_ignored "  " "Left" "  "
              eq_refl eq_refl) as (H1 & H2 & _).
  split; [exact H1|exact H2].
Defined.

Lemma isspace_lower_char c : Text.isspace (Text.lower_char c) = Text.isspace c.
Proof. by destruct c as [[] [] [] [] [] [] [] []]. Qed.

Lemma lower_char_idemp c :
  Text.lower_char (Text.lower_char c) = Text.lower_char c.
Proof. by destruct c as [[] [] [] [] [] [] [] []]. Qed.

Lemma lower_idemp s : Text.lower (Text.lower s) = Text.lower s.
Proof.
  induction s as [|c s IH]; [done|]. simpl. by rewrite lower_char_idemp, IH.
Qed.

Lemma lstrip_lower s : Text.lstrip (Text.lower s) = Text.lower (Text.lstrip s).
Proof.
  induction s as [|c s IH]; [done|]. simpl. rewrite isspace_lower_char.
  by destruct (Text.isspace c).
Qed.

Lemma rstrip_lower s : Text.rstrip (Text.lower s) = Text.lower (Text.rstrip s).
Proof.
  induction s as [|c s IH]; [done|]. simpl. rewrite IH, isspace_lower_char.
  destruct (Text.rstrip s); [by destruct (Text.isspace c)|done].
Qed.

Lemma rstrip_idemp s : Text.rstrip (Text.rstrip s) = Text.rstrip s.
Proof.
  induction s as [|c s IH]; [done|]. simpl.
  destruct (Text.rstrip s) as [|d r] eqn:Hr.
  - destruct (Text.isspace c) eqn:Hc; [done|]. simpl. by rewrite Hc.
  - cbn [Text.rstrip] in *. by rewrite IH.
Qed.

Lemma lstrip_rstrip_lstrip s :
  Text.lstrip (Text.rstrip (Text.lstrip s)) = Text.rstrip (Text.lstrip s).
Proof.
  induction s as [|c s IH]; [done|]. simpl.
  destruct (Text.isspace c) eqn:Hc; [done|]. simpl.
  destruct (Text.rstrip s); rewrite ?Hc; simpl; by rewrite ?Hc.
Qed.

Lemma strip_idemp s : Text.strip (Text.strip s) = Text.strip s.
Proof.
  unfold Text.strip. by rewrite lstrip_rstrip_lstrip, rstrip_idemp.
Qed.

Lemma strip_lower s : Text.strip (Text.lower s) = Text.lower (Text.strip s).
Proof. unfold Text.strip. by rewrite lstrip_lower, rstrip_lower. Qed.

(** X6.  The command a message stands for is in normal form: trimming and
    lowering it again changes nothing.  So the text a server echoes in
    [ERROR:Unknown command '<text>'], sent back as a message, is read as
    the same text and gets the same reply, and lowering before trimming
    gives the same command as trimming before lowering. *)
Theorem command_of_is_idempotent (message : string) :
  command_of (command_of message) = command_of message
  ∧ reply_to (command_of message) = reply_to message
  ∧ Text.strip (Text.lower message) = command_of message.
Proof.
  assert (command_of (command_of message) = command_of message) as H1.
  { unfold command_of. by rewrite strip_lower, strip_idemp, lower_idemp. }
  split_and!; [done|unfold reply_to; by rewrite H1|apply strip_lower].
Qed.

(** ** The alarm of the retraction *)

Ltac alarm_leaf :=
  cbn -[N.mul N.add N.ltb N.max]; rewrite <- ?app_assoc; ltb_props;
  split; [eexists; split; [reflexivity|split; reflexivity]|reflexivity].

(** X7.  With both discovery handles set, [unregister_mdns] installs its
    SIGALRM handler once and puts the previous handler back once, on every
    path, and the restore is the last library call it makes.  The alarm is
    no longer pending afterwards when the library got through in time (it
    is cancelled) or when it has fired; but when a discovery call raises
    before the 2 seconds are over, [signal.alarm(0)] is skipped and
    [unregister_mdns] returns with the alarm still armed for 2 seconds
    after its start, the previous handler being in place. *)
Theorem unregister_mdns_restores_handler_but_may_leave_alarm
        (s : WS.server) (r : WS.retraction) (w : world) :
  registered s = true →
  (∀ e, e ∈ retraction_errors r → is_Exception e = true) →
  let res := WS.unregister_mdns r s w in
  (∃ t,
     trace (final_world res) = (trace w ++ t)%list
     ∧ handler_changes t =
         [Call (SignalSIGALRM true); Call (SignalSIGALRM false)]
     ∧ last (calls t) = Some (Call (SignalSIGALRM false)))
  ∧ alarm (final_world res) =
      if retraction_raises_early r then Some (clock w + 2000)%N else None.
Proof.
  intros Hreg He res. subst res.
  unfold WS.unregister_mdns, WS.timeout_handler, registered in *. run.
  destruct (WS.zeroconf s) as [[]|], (WS.service_info s) as [i|];
    try discriminate Hreg. clear Hreg.
  destruct r as [[t1 r1 i1] [t2 r2 i2]].
  unfold retraction_errors, retraction_raises_early, retraction_exceeds in *.
  simpl in He.
  assert (∀ e, r1 = Some e → is_Exception e = true) as He1.
  { intros e ->. apply He. simpl.
    rewrite ?elem_of_app, ?elem_of_cons. auto 10. }
  assert (∀ e, r2 = Some e → is_Exception e = true) as He2.
  { intros e ->. apply He. simpl.
    rewrite ?elem_of_app, ?elem_of_cons. auto 10. }
  assert (∀ e, i1 = Some e → is_Exception e = true) as Hi1.
  { intros e ->. apply He. simpl.
    rewrite ?elem_of_app, ?elem_of_cons. auto 10. }
  assert (∀ e, i2 = Some e → is_Exception e = true) as Hi2.
  { intros e ->. apply He. simpl.
    rewrite ?elem_of_app, ?elem_of_cons. auto 10. }
  clear He.
  unfold timed_call, signal_alarm, result, final_state, final_world.
  cbn -[N.mul N.add N.ltb N.max].
  change (1000 * 2)%N with 2000%N.
  destruct t1 as [d1|]; [rewrite ltb_shift; destruct (d1 <? 2000)%N eqn:H1|];
    cbn -[N.mul N.add N.ltb N.max].
  - destruct r1 as [e1|].
    + specialize (He1 e1 eq_refl). destruct e1; try discriminate He1;
        alarm_leaf.
    + destruct t2 as [d2|];
        [rewrite <- N.add_assoc, ltb_shift;
         destruct (d1 + d2 <? 2000)%N eqn:H2|].
      * destruct r2 as [e2|].
        -- specialize (He2 e2 eq_refl). destruct e2; try discriminate He2;
             alarm_leaf.
        -- alarm_leaf.
      * destruct i2 as [e|]; [specialize (Hi2 e eq_refl);
                              destruct e; try discriminate Hi2|];
          alarm_leaf.
      * destruct i2 as [e|]; [specialize (Hi2 e eq_refl);
                              destruct e; try discriminate Hi2|];
          alarm_leaf.
  - destruct i1 as [e|]; [specialize (Hi1 e eq_refl);
                          destruct e; try discriminate Hi1|];
      alarm_leaf.
  - destruct i1 as [e|]; [specialize (Hi1 e eq_refl);
                          destruct e; try discriminate Hi1|];
      alarm_leaf.
Qed.

Lemma unregister_mdns_restores_handler_but_may_leave_alarm_witness :
  let s := WS.set_service_info
             (Some (WS.MkServiceInfo WS.MDNS_SERVICE_TYPE WS.service_name
                      ["192.168.1.4"] WS.WEBSOCKET_PORT WS.MDNS_HOSTNAME))
             (WS.set_zeroconf (Some tt) (WS.init false)) in
  let r := WS.Retraction (Answer (Some 5%N) (Some (OSError "closed")) None)
                         (Answer None None None) in
  alarm (final_world (WS.unregister_mdns r s initial_world)) = Some 2000%N.
Proof.
  intros s r.
  assert (∀ e, e ∈ retraction_errors r → is_Exception e = true) as He.
  { intros e. unfold retraction_errors. simpl.
    rewrite list_elem_of_singleton. by intros ->. }
  exact (proj2 (unregister_mdns_restores_handler_but_may_leave_alarm
                  s r initial_world eq_refl He)).
Defined.

(** ** Registration and retraction together *)

Lemma unregister_mdns_calls_library s ret w :
  registered s = true →
  Call UnregisterService ∈ trace (final_world (WS.unregister_mdns ret s w)).
Proof.
  intros Hreg.
  unfold WS.unregister_mdns, WS.timeout_handler, registered in *. run.
  destruct (WS.zeroconf s) as [[]|], (WS.service_info s) as [i|];
    try discriminate Hreg. clear Hreg.
  destruct ret as [[t1 r1 [x1|]] [t2 r2 [x2|]]].
  all: unfold timed_call, signal_alarm, final_world.
  all: cbn -[N.mul N.add N.ltb N.max].
  all: destruct t1 as [d1|];
    [destruct (_ <? _)%N; [destruct r1 as [e1|]|]|];
    cbn -[N.mul N.add N.ltb N.max].
  all: try (destruct t2 as [d2|];
            [destruct (_ <? _)%N; [destruct r2 as [e2|]|]|];
            cbn -[N.mul N.add N.ltb N.max]).
  all: repeat match goal with
              | |- context [is_TimeoutError ?e] =>
                  destruct (is_TimeoutError e)
              | |- context [is_Exception ?e] => destruct (is_Exception e)
              end.
  all: cbn -[N.mul N.add N.ltb N.max]; rewrite !elem_of_app;
    rewrite ?elem_of_cons; intuition auto.
Qed.

(** X8.  On a server that holds no discovery handle yet, [register_mdns]
    leaves both handles set exactly when [Zeroconf()] and the construction
    of the [ServiceInfo] succeed, whether or not [register_service] then
    fails; the [ServiceInfo] it keeps advertises the address it was given
    on port 8080.  So after a failed [register_service] the retraction at
    shutdown still calls [unregister_service]; and after a failed
    construction of the [ServiceInfo] the server holds a [Zeroconf] object
    that the retraction never closes: [unregister_mdns] does nothing. *)
Theorem registration_decides_retraction
        (ip : string) (reg : WS.registration) (ret : WS.retraction)
        (s : WS.server) (w w' : world) :
  WS.zeroconf s = None → WS.service_info s = None →
  (∀ e, registration_error reg = Some e → is_Exception e = true) →
  let s' := final_state (WS.register_mdns ip reg s w) in
  (registered s' = true ↔
   WS.zeroconf_new reg = None ∧ WS.make_service_info reg = None)
  ∧ (WS.zeroconf_new reg = None → WS.make_service_info reg = None →
     WS.service_info s' =
       Some {| WS.si_type := WS.MDNS_SERVICE_TYPE;
               WS.si_name := WS.service_name;
               WS.si_addresses := [ip];
               WS.si_port := 8080;
               WS.si_server := WS.MDNS_HOSTNAME |}
     ∧ Call UnregisterService
         ∈ trace (final_world (WS.unregister_mdns ret s' w')))
  ∧ (WS.zeroconf_new reg = None → WS.make_service_info reg ≠ None →
     WS.zeroconf s' = Some tt
     ∧ WS.unregister_mdns ret s' w' = (Return tt, s', w')).
Proof.
  intros Hz Hi He s'.
  assert (∀ P : WS.server → Prop,
            (∀ e, WS.zeroconf_new reg = Some e → P s) →
            (∀ e, WS.zeroconf_new reg = None →
                  WS.make_service_info reg = Some e →
                  P (WS.set_zeroconf (Some tt) s)) →
            (WS.zeroconf_new reg = None → WS.make_service_info reg = None →
             P (WS.set_service_info
                  (Some {| WS.si_type := WS.MDNS_SERVICE_TYPE;
                           WS.si_name := WS.service_name;
                           WS.si_addresses := [ip];
                           WS.si_port := WS.WEBSOCKET_PORT;
                           WS.si_server := WS.MDNS_HOSTNAME |})
                  (WS.set_zeroconf (Some tt) s))) →
            P s') as Hcases.
  { intros P H1 H2 H3. subst s'.
    unfold WS.register_mdns, registration_error, final_state in *. run.
    destruct reg as [[e1|] [e2|] [e3|]]; simpl in *;
      try rewrite (He _ eq_refl); simpl; eauto. }
  clear He. subst s'.
  apply Hcases; clear Hcases.
  - intros e He. unfold registered. rewrite Hz, He.
    split_and!; [|done..]. split; [done|]. by intros [? _].
  - intros e Hn He. unfold registered. simpl. rewrite Hi, Hn, He.
    split_and!; [|done|].
    + split; [done|]. by intros [_ ?].
    + intros _ _. split; [done|].
      unfold WS.unregister_mdns. run. simpl. by rewrite Hi.
  - intros Hn Hm. rewrite Hn, Hm. split_and!; [done| |done].
    intros _ _. split; [done|]. by apply unregister_mdns_calls_library.
Qed.

Lemma registration_decides_retraction_witness :
  let reg := WS.Registration None None (Some (OSError "address in use")) in
  let s' := final_state
              (WS.register_mdns "192.168.1.4" reg (WS.init false)
                                initial_world) in
  registered s' = true
  ∧ Call UnregisterService
      ∈ trace (final_world
                 (WS.unregister_mdns
                    (WS.Retraction (Answer (Some 5%N) None None)
                                   (Answer (Some 5%N) None None))
                    s' initial_world)).
Proof.
  intros reg s'.
  assert (∀ e, registration_error reg = Some e → is_Exception e = true) as He
    by (by intros e [= <-]).
  destruct (registration_decides_retraction "192.168.1.4" reg
              (WS.Retraction (Answer (Some 5%N) None None) (Answer (Some 5%N) None None))
              (WS.init false) initial_world initial_world
              eq_refl eq_refl He) as (H1 & H2 & _).
  split; [by apply H1|]. by apply H2.
Defined.

(** ** The accept loop of the Bluetooth server *)

Lemma valid_messages_app l1 l2 :
  valid_messages (l1 ++ l2) = (valid_messages l1 + valid_messages l2)%nat.
Proof. unfold valid_messages. by rewrite List.filter_app, length_app. Qed.

Lemma sent_cons ev t :
  sent (ev :: t) = ((if is_send ev then [ev] else []) ++ sent t)%list.
Proof. unfold sent. simpl. by destruct (is_send ev). Qed.

Lemma closed_cons ev t :
  closed (ev :: t) =
    (match ev with Close conn => [conn] | _ => [] end ++ closed t)%list.
Proof. reflexivity. Qed.

Ltac trace_facts :=
  rewrite ?sent_cons, ?closed_cons, ?sent_app, ?closed_app;
  cbn [is_send app];
  rewrite ?sent_cons, ?closed_cons, ?sent_app, ?closed_app;
  cbn [is_send app].

Lemma not_Exception_not_BluetoothError e :
  is_Exception e = false → is_BluetoothError e = false.
Proof. by destruct e. Qed.

Lemma bt_accept_once_accepted sock addr sess s w :
  BT.running s = true →
  let acks := BT.send_acks s in
  let err := bt_first_error acks (BT.packets sess) (BT.ending sess) in
  let processed := bt_processed acks (BT.packets sess) in
  ∃ s' t,
    BT.accept_once (Some (BT.Accepted sock addr sess)) s w =
      (match err with
       | Some e =>
           if is_Exception e then Return true
           else if is_KeyboardInterrupt e then Return false else Raise e
       | None => Return true
       end, s', after w t)
    ∧ BT.client_sock s' = None
    ∧ BT.command_count s' =
        BT.command_count s + Z.of_nat (valid_messages processed)
    ∧ sent t = replies acks sock processed
    ∧ closed t = [sock]
    ∧ BT.send_acks s' = acks
    ∧ BT.running s' = true
    ∧ BT.server_sock s' = BT.server_sock s.
Proof.
  intros Hr acks err processed.
  unfold BT.accept_once. run.
  match goal with
  | |- context [BT.handle_client addr sess ?s0 ?w0] =>
      destruct (bt_handle_client_effect addr sess s0 w0 sock Hr eq_refl)
        as (s1 & t1 & -> & Hc & Hn & Hst & Hcl & Ha & Hr1 & Hss);
      change (BT.send_acks s0) with acks in *;
      change (BT.command_count s0) with (BT.command_count s) in *;
      change (BT.server_sock s0) with (BT.server_sock s) in *
  end.
  fold err processed in Hn, Hst |- *. unfold handler_outcome.
  destruct err as [e|]; [destruct (is_Exception e) eqn:Hex|].
  2: rewrite (not_Exception_not_BluetoothError e Hex);
     destruct (is_KeyboardInterrupt e).
  all: unfold after; cbn [trace clock alarm]; rewrite <- ?app_assoc;
    eexists _, _; (split_and!; [reflexivity|done|done| | |done..]).
  all: cbn [app]; trace_facts; by rewrite ?Hst, ?Hcl, ?app_nil_r.
Qed.

Lemma bt_accept_once_raises e s w :
  BT.running s = true →
  ∃ t,
    BT.accept_once (Some (BT.AcceptRaises e)) s w =
      (if is_BluetoothError e then Return true
       else if is_KeyboardInterrupt e then Return false else Raise e,
       s, after w t)
    ∧ sent t = [] ∧ closed t = [].
Proof.
  intros Hr. unfold BT.accept_once. run.
  destruct (is_BluetoothError e), (is_KeyboardInterrupt e);
    rewrite ?Hr; unfold after; cbn [trace clock alarm];
    rewrite <- ?app_assoc;
    eexists; (split_and!; [reflexivity|done|done]).
Qed.

Lemma bt_accept_once_interrupted s w :
  BT.accept_once None s w =
    (Raise (SystemExit 0), s,
     after w [Log INFO "Waiting for client connection..."; Call BtAccept;
              Print ""]).
Proof.
  unfold BT.accept_once, BT.signal_handler, after. run. simpl.
  by rewrite <- !app_assoc.
Qed.

Lemma bt_accept_loop_effect l s w :
  BT.running s = true → BT.client_sock s = None →
  let acks := BT.send_acks s in
  let served := bt_served acks l in
  ∃ s' t,
    BT.accept_loop l s w = (bt_loop_outcome acks l, s', after w t)
    ∧ BT.client_sock s' = None
    ∧ BT.command_count s' =
        BT.command_count s + Z.of_nat (valid_messages (bt_messages acks served))
    ∧ sent t = bt_replies acks served
    ∧ closed t = served.*1
    ∧ BT.send_acks s' = acks
    ∧ BT.running s' = true
    ∧ BT.server_sock s' = BT.server_sock s.
Proof.
  revert s w. induction l as [|a l IH]; intros s w Hr Hc; cbv zeta.
  - simpl BT.accept_loop. unfold bind at 1. unfold get.
    rewrite Hr. unfold bind. rewrite bt_accept_once_interrupted.
    eexists _, _.
    split_and!; [reflexivity|done|unfold valid_messages; simpl; lia|done..].
  - simpl BT.accept_loop. unfold bind at 1. unfold get.
    rewrite Hr. unfold bind at 1. destruct a as [sock addr sess|e].
    + destruct (bt_accept_once_accepted sock addr sess s w Hr)
        as (s1 & t1 & -> & Hc1 & Hn1 & Hst1 & Hcl1 & Ha1 & Hr1 & Hss1).
      destruct (IH s1 (after w t1) Hr1 Hc1)
        as (s2 & t2 & Hloop & Hc2 & Hn2 & Hst2 & Hcl2 & Ha2 & Hr2 & Hss2).
      rewrite Ha1 in Hloop, Hn2, Hst2, Hcl2, Ha2.
      simpl bt_loop_outcome. simpl bt_served.
      set (acks := BT.send_acks s) in *.
      destruct (bt_first_error acks (BT.packets sess) (BT.ending sess))
        as [e|]; [destruct (is_Exception e)|].
      2: { unfold bt_messages, bt_replies. simpl. rewrite !app_nil_r.
           destruct (is_KeyboardInterrupt e); unfold ret;
             by exists s1, t1. }
      all: rewrite Hloop, after_after; exists s2, (t1 ++ t2)%list;
        unfold bt_messages, bt_replies in *; simpl;
        rewrite valid_messages_app, sent_app, closed_app, Hst1, Hst2, Hcl1,
          Hcl2;
        (split_and!; [done|done|lia|done|done|done|done|congruence]).
    + destruct (bt_accept_once_raises e s w Hr) as (t1 & -> & Hst1 & Hcl1).
      simpl bt_loop_outcome. simpl bt_served.
      destruct (is_BluetoothError e).
      * destruct (IH s (after w t1) Hr Hc)
          as (s2 & t2 & Hloop & Hc2 & Hn2 & Hst2 & Hcl2 & Ha2 & Hr2 & Hss2).
        rewrite Hloop, after_after. exists s2, (t1 ++ t2)%list.
        rewrite sent_app, closed_app, Hst1, Hst2, Hcl1, Hcl2.
        by split_and!.
      * destruct (is_KeyboardInterrupt e); unfold ret; exists s, t1;
          (split_and!; [done|done|unfold valid_messages; simpl; lia|done..]).
Qed.

(** ** A whole run of the Bluetooth server *)

Lemma bt_teardown_without_client s :
  BT.client_sock s = None →
  sent (bt_teardown_events s) = [] ∧ closed (bt_teardown_events s) = [].
Proof.
  unfold bt_teardown_events. intros ->. by destruct (BT.server_sock s).
Qed.

Lemma bt_loop_outcome_comes_back acks l : bt_loop_outcome acks l ≠ Hang.
Proof.
  induction l as [|[sock addr sess|e] l IH]; simpl; [done| |].
  - destruct (bt_first_error _ _ _) as [e|]; [|done].
    destruct (is_Exception e); [done|]. by destruct (is_KeyboardInterrupt e).
  - destruct (is_BluetoothError e); [done|].
    by destruct (is_KeyboardInterrupt e).
Qed.

Lemma bt_start_serving r s w :
  bt_startup_error r = None →
  BT.client_sock s = None →
  let acks := BT.send_acks s in
  let served := bt_served acks (BT.accepts r) in
  ∃ s' t,
    BT.start r s w =
      (bt_start_result (bt_loop_outcome acks (BT.accepts r)), s', after w t)
    ∧ BT.command_count s' =
        BT.command_count s + Z.of_nat (valid_messages (bt_messages acks served))
    ∧ sent t = bt_replies acks served
    ∧ closed t = served.*1
    ∧ BT.running s' = false
    ∧ BT.client_sock s' = None.
Proof.
  destruct r as [so bi gs li ad accs td].
  unfold bt_startup_error; simpl. intros Herr Hc.
  destruct so as [e0|]; [discriminate Herr|].
  destruct bi as [e0|]; [discriminate Herr|].
  destruct gs as [port|e0]; [|discriminate Herr].
  destruct li as [e0|]; [discriminate Herr|].
  destruct ad as [e0|]; [discriminate Herr|]. clear Herr.
  unfold BT.start. run. cbn [BT.bt_socket BT.bt_bind BT.bt_getsockname
    BT.bt_listen BT.bt_advertise BT.accepts BT.run_teardown trace clock alarm].
  match goal with
  | |- context [BT.accept_loop accs ?s0 ?w0] =>
      destruct (bt_accept_loop_effect accs s0 w0 eq_refl Hc)
        as (s1 & t1 & Heq & Hc1 & Hn1 & Hst1 & Hcl1 & Ha1 & Hr1 & Hss1);
      change (BT.send_acks s0) with (BT.send_acks s) in *;
      change (BT.command_count s0) with (BT.command_count s) in *
  end.
  cbv zeta in Heq. rewrite Heq.
  destruct (bt_teardown_without_client s1 Hc1) as (Hts & Htc).
  unfold bt_start_result.
  assert (sent (summary_lines (BT.command_count s1)) = []
          ∧ closed (summary_lines (BT.command_count s1)) = []) as (Hss & Hsc)
    by done.
  pose proof (bt_loop_outcome_comes_back (BT.send_acks s) accs) as Hback.
  destruct (bt_loop_outcome _ accs) as [[]|e|]; [| |done];
    [|destruct (is_BluetoothError e) eqn:Hbe;
      [assert (is_Exception e = true) as -> by by destruct e|
       destruct (is_Exception e) eqn:Hex]];
    cbn [select_handler]; rewrite ?Hbe, ?Hex; rewrite !bt_shutdown_spec;
    unfold after; cbn [trace clock alarm]; rewrite <- ?app_assoc;
    eexists _, _; (split_and!; [reflexivity|done| | |done|done]);
    cbn [app]; trace_facts;
    by rewrite ?Hst1, ?Hcl1, ?Hts, ?Htc, ?Hss, ?Hsc, ?app_nil_r.
Qed.

(** X9.  Once the Bluetooth server has started, it serves its clients one
    after the other until the first [accept] that raises something else
    than a [BluetoothError], the first session whose handler lets an
    exception go on, or Ctrl+C.  At the end of the run the counter is the
    number of valid commands among the messages that reached the loop body
    in the sessions served, the writes to clients are the replies to these
    messages (none without acknowledgments), and the sockets closed are
    those of the clients served, each one once and in the order of the
    sessions. *)
Theorem bt_run_serves_until_first_fatal_error (acks : bool) (r : BT.run) :
  bt_startup_error r = None →
  let res := BT.main acks r initial_world in
  let served := bt_served acks (BT.accepts r) in
  result res = bt_start_result (bt_loop_outcome acks (BT.accepts r))
  ∧ BT.command_count (final_state res) =
      Z.of_nat (valid_messages (bt_messages acks served))
  ∧ sent (trace (final_world res)) = bt_replies acks served
  ∧ closed (trace (final_world res)) = served.*1.
Proof.
  intros Hstart. cbv zeta. unfold BT.main.
  destruct (bt_start_serving r (BT.init acks) initial_world Hstart eq_refl)
    as (s' & t & -> & Hn & Hst & Hcl & _).
  change (BT.send_acks (BT.init acks)) with acks in *.
  change (BT.command_count (BT.init acks)) with 0 in Hn.
  unfold result, final_state, final_world, after. cbn [fst snd trace app].
  split_and!; [done|lia|done|done].
Qed.

Lemma bt_run_serves_until_first_fatal_error_witness :
  let first := {| BT.packets := [BT.Data "forward" None; BT.Data "hop" None];
                  BT.ending := Some (BluetoothError "reset by peer");
                  BT.close_answer := None |} in
  let r := BT.Run None None (inl 1) None None
             [BT.AcceptRaises (BluetoothError "busy");
              BT.Accepted 3 "AA:01" first;
              BT.AcceptRaises (OSError "bad descriptor");
              BT.Accepted 4 "AA:02" first]
             (BT.Teardown None None None) in
  let res := BT.main true r initial_world in
  result res = Return tt
  ∧ BT.command_count (final_state res) = 1
  ∧ sent (trace (final_world res)) =
      [Send 3 "OK:forward"; Send 3 "ERROR:Unknown command 'hop'"]
  ∧ closed (trace (final_world res)) = [3%nat].
Proof.
  intros first r.
  exact (bt_run_serves_until_first_fatal_error true r eq_refl).
Defined.

Lemma bt_first_error_is_raised acks sess e :
  bt_first_error acks (BT.packets sess) (BT.ending sess) = Some e →
  is_Exception e = true ∨ e ∈ bt_session_errors sess.
Proof.
  destruct sess as [ps ending ca]. unfold bt_session_errors. simpl.
  induction ps as [|p ps IH]; simpl.
  - intros ->. right. simpl. by left.
  - assert (bt_first_error acks ps ending = Some e →
            is_Exception e = true
            ∨ e ∈ (match p with
                   | BT.Data _ (Some e) => [e]
                   | _ => []
                   end
                   ++ flat_map (λ p, match p with
                                     | BT.Data _ (Some e) => [e]
                                     | _ => []
                                     end) ps)
                  ++ option_list ending)%list as IH'.
    { intros [?|He']%IH; [by left|right].
      apply elem_of_app in He' as [He'|He']; apply elem_of_app;
        [left; apply elem_of_app; by right|by right]. }
    destruct p as [[|c d] answer|msg]; [done| |intros [= <-]; by left].
    destruct acks; [|done]. destruct answer as [e'|]; [|done].
    intros [= ->]. right. apply elem_of_app. left.
    apply elem_of_app. left. by apply elem_of_cons; left.
Qed.

Lemma bt_loop_outcome_of_exceptions acks l :
  (∀ e, e ∈ bt_serving_errors l →
        is_Exception e = true ∨ e = SystemExit 0) →
  bt_start_result (bt_loop_outcome acks l) = Return tt
  ∨ bt_start_result (bt_loop_outcome acks l) = Raise (SystemExit 0).
Proof.
  induction l as [|a l IH]; intros Hall; [by right|].
  assert (∀ e, e ∈ bt_serving_errors l →
               is_Exception e = true ∨ e = SystemExit 0) as Hl.
  { intros e He. apply Hall. unfold bt_serving_errors. simpl.
    apply elem_of_app. by right. }
  specialize (IH Hl). destruct a as [sock addr sess|e]; simpl.
  - destruct (bt_first_error acks (BT.packets sess) (BT.ending sess))
      as [e|] eqn:He; [|done].
    assert (is_Exception e = true ∨ e = SystemExit 0) as [Hex| ->].
    { destruct (bt_first_error_is_raised acks sess e He) as [?|Hin];
        [by left|].
      apply Hall. unfold bt_serving_errors. simpl.
      apply elem_of_app. by left. }
    + by rewrite Hex.
    + by right.
  - assert (is_Exception e = true ∨ e = SystemExit 0) as [Hex| ->].
    { apply Hall. unfold bt_serving_errors. simpl. by left. }
    + destruct (is_BluetoothError e); [done|]. left.
      assert (is_KeyboardInterrupt e = false) as -> by by destruct e.
      simpl. by rewrite Hex.
    + by right.
Qed.

Lemma bt_start_failing r e s w :
  bt_startup_error r = Some e →
  ∃ s' t,
    BT.start r s w =
      (if is_Exception e then Return tt else Raise e, s', after w t)
    ∧ BT.running s' = false
    ∧ BT.command_count s' = BT.command_count s.
Proof.
  destruct r as [so bi gs li ad accs td].
  unfold bt_startup_error; simpl. intros Herr.
  unfold BT.start. run. cbn [BT.bt_socket BT.bt_bind BT.bt_getsockname
    BT.bt_listen BT.bt_advertise BT.accepts BT.run_teardown trace clock alarm].
  destruct so as [e0|]; [injection Herr as ->|
  destruct bi as [e0|]; [injection Herr as ->|
  destruct gs as [port|e0]; [|injection Herr as ->];
  [destruct li as [e0|]; [injection Herr as ->|
   destruct ad as [e0|]; [injection Herr as ->|discriminate Herr]]|]]].
  all: destruct (is_BluetoothError e) eqn:Hbe;
    [assert (is_Exception e = true) as -> by by destruct e|
     destruct (is_Exception e) eqn:Hex].
  all: rewrite !bt_shutdown_spec; unfold after; cbn [trace clock alarm];
    rewrite <- ?app_assoc; eexists _, _;
    (split_and!; [reflexivity|done|done]).
Qed.

(** X10.  When everything the Bluetooth transport raises during a run is an
    instance of [Exception], or the [SystemExit] of the Ctrl+C handler, the
    script of the Bluetooth server ends with exit status 0, whatever went
    wrong and wherever it was interrupted: a failed startup and an
    [accept] that fails with something else than a [BluetoothError] are
    logged and [start] returns, and Ctrl+C ends the run by [sys.exit(0)]
    after [shutdown].  In every case the server has stopped. *)
Theorem bt_script_exits_with_status_zero (acks : bool) (r : BT.run) :
  (∀ e, e ∈ bt_run_errors r → is_Exception e = true ∨ e = SystemExit 0) →
  let res := BT.main acks r initial_world in
  exit_status (result res) = Some 0
  ∧ (result res = Return tt ∨ result res = Raise (SystemExit 0))
  ∧ BT.running (final_state res) = false.
Proof.
  intros Hall. cbv zeta. unfold bt_run_errors in Hall. unfold BT.main.
  destruct (bt_startup_error r) as [e|] eqn:Hstart.
  - destruct (bt_start_failing r e (BT.init acks) initial_world Hstart)
      as (s' & t & -> & Hr & _).
    unfold result, final_state. cbn [fst snd].
    assert (is_Exception e = true ∨ e = SystemExit 0) as [-> | ->]
      by (apply Hall, elem_of_app; left; simpl; by left).
    + split_and!; [done|by left|done].
    + split_and!; [done|by right|done].
  - destruct (bt_start_serving r (BT.init acks) initial_world Hstart eq_refl)
      as (s' & t & -> & _ & _ & _ & Hr & _).
    change (BT.send_acks (BT.init acks)) with acks.
    unfold result, final_state. cbn [fst snd].
    destruct (bt_loop_outcome_of_exceptions acks (BT.accepts r)) as [->| ->].
    + intros e He. apply Hall, elem_of_app. by right.
    + split_and!; [done|by left|done].
    + split_and!; [done|by right|done].
Qed.

Lemma bt_script_exits_with_status_zero_witness :
  let interrupted := {| BT.packets := [BT.Data "forward" None];
                        BT.ending := Some (SystemExit 0);
                        BT.close_answer := None |} in
  let r := BT.Run None None (inl 1) None None
             [BT.AcceptRaises (BluetoothError "busy");
              BT.Accepted 3 "AA:01" interrupted]
             (BT.Teardown None None None) in
  let res := BT.main false r initial_world in
  exit_status (result res) = Some 0 ∧ result res = Raise (SystemExit 0).
Proof.
  intros interrupted r.
  assert (∀ e, e ∈ bt_run_errors r →
               is_Exception e = true ∨ e = SystemExit 0) as Hall.
  { intros e. unfold bt_run_errors, bt_serving_errors. simpl.
    rewrite !elem_of_cons, elem_of_nil. intros [->|[->|[]]]; auto. }
  split; [exact (proj1 (bt_script_exits_with_status_zero false r Hall))|].
  reflexivity.
Defined.

(** ** A whole run of the WebSocket server *)

Lemma serves_nobody_sends_nothing t : existsb serves t = false → sent t = [].
Proof.
  induction t as [|ev t IH]; [done|]. cbn [existsb].
  intros [Hev Ht]%orb_false_elim. rewrite sent_cons, (IH Ht).
  by destruct ev.
Qed.

Lemma ws_handle_client_state ws sess s w :
  let s' := final_state (WS.handle_client ws sess s w) in
  WS.send_acks s' = WS.send_acks s
  ∧ WS.connected_clients s' =
      ({[ WS.ws_id ws ]} ∪ WS.connected_clients s) ∖ {[ WS.ws_id ws ]}.
Proof.
  destruct (ws_handle_client_spec ws sess s w)
    as (s' & t & Heq & Ha & Hcl & _).
  cbv zeta. rewrite Heq. by split.
Qed.

Lemma stops_loop_not_Exception e :
  WS.stops_loop e = true → is_Exception e = false.
Proof. by destruct e. Qed.

Lemma ws_as_task_handler ws sess s w :
  let err := ws_first_error (WS.send_acks s) (WS.frames sess)
                            (WS.ending sess) in
  WS.as_task (WS.handle_client ws sess) s w =
    (match err with
     | Some e => if WS.stops_loop e then Raise e else Return tt
     | None => Return tt
     end,
     final_state (WS.handle_client ws sess s w),
     final_world (WS.handle_client ws sess s w)).
Proof.
  cbv zeta. unfold WS.as_task.
  destruct (ws_handle_client_effect ws sess s w) as (s1 & t1 & -> & _).
  unfold handler_outcome, final_state, final_world. cbn [fst snd].
  destruct (ws_first_error _ _ _) as [e|]; [|done].
  destruct (WS.stops_loop e) eqn:Hst.
  - by rewrite (stops_loop_not_Exception e Hst), Hst.
  - destruct (is_Exception e); [done|]. by rewrite Hst.
Qed.

Lemma ws_serve_sessions_effect l s w :
  let acks := WS.send_acks s in
  let served := ws_served acks l in
  ∃ s' t,
    WS.serve_sessions l s w = (outcome_of (ws_loop_stop acks l), s', after w t)
    ∧ WS.command_count s' =
        WS.command_count s
        + Z.of_nat (valid_messages (ws_messages acks served))
    ∧ sent t = ws_replies acks served
    ∧ WS.send_acks s' = acks
    ∧ (WS.connected_clients s = ∅ → WS.connected_clients s' = ∅).
Proof.
  revert s w. induction l as [|[ws sess] l IH]; intros s w; cbv zeta.
  - exists s, []. unfold after. rewrite app_nil_r.
    split_and!; [by destruct w|unfold valid_messages; simpl; lia|done..].
  - destruct (ws_handle_client_effect ws sess s w)
      as (s1 & t1 & Heq & Hn1 & Hst1).
    pose proof (ws_handle_client_state ws sess s w) as (Ha1 & Hc1).
    pose proof (ws_as_task_handler ws sess s w) as Htask.
    cbv zeta in Htask.
    rewrite Heq in Ha1, Hc1, Htask. unfold final_state, final_world in *.
    cbn [fst snd] in Ha1, Hc1, Htask.
    assert (WS.connected_clients s = ∅ → WS.connected_clients s1 = ∅) as Hcs1.
    { intros Hcs. rewrite Hc1, Hcs. apply set_eq. intros y.
      rewrite elem_of_difference, elem_of_union, elem_of_singleton,
        elem_of_empty. tauto. }
    destruct (IH s1 (after w t1))
      as (s2 & t2 & Heq2 & Hn2 & Hst2 & Ha2 & Hcs2).
    rewrite Ha1 in Heq2, Hn2, Hst2, Ha2.
    simpl WS.serve_sessions. unfold bind at 1. rewrite Htask.
    simpl ws_loop_stop. simpl ws_served. unfold ws_messages, ws_replies in *.
    cbn [fst snd flat_map].
    set (acks := WS.send_acks s) in *.
    destruct (ws_first_error acks (WS.frames sess) (WS.ending sess))
      as [e|]; [destruct (WS.stops_loop e)|].
    + exists s1, t1. cbn [flat_map]. rewrite !app_nil_r.
      by split_and!.
    + rewrite Heq2, after_after. exists s2, (t1 ++ t2)%list.
      rewrite valid_messages_app, sent_app, Hst1, Hst2.
      split_and!; [done|lia|done|done|auto].
    + rewrite Heq2, after_after. exists s2, (t1 ++ t2)%list.
      rewrite valid_messages_app, sent_app, Hst1, Hst2.
      split_and!; [done|lia|done|done|auto].
Qed.

Lemma ws_loop_stop_stops acks l e :
  ws_loop_stop acks l = Some e → WS.stops_loop e = true.
Proof.
  induction l as [|[ws sess] l IH]; [done|]. simpl.
  destruct (ws_first_error _ _ _) as [e'|]; [|done].
  destruct (WS.stops_loop e') eqn:Hst; [|done]. by intros [= <-].
Qed.


Lemma ws_start_effect r s w :
  (∀ e, e ∈ probe_errors (WS.run_probe r) → is_Exception e = true) →
  (∀ e, registration_error (WS.run_registration r) = Some e →
        is_Exception e = true) →
  WS.run_bind r = None →
  let acks := WS.send_acks s in
  let served := ws_served acks (WS.run_sessions r) in
  let ip := default "127.0.0.1" (probe_answer (WS.run_probe r)) in
  ∃ s' tp treg t2,
    WS.start r s w =
      (outcome_of (ws_loop_stop acks (WS.run_sessions r)), s',
       after w (tp ++ ws_banner ip acks ++ treg ++ ws_serving_lines ++ t2
                ++ [Call ServeExit]))
    ∧ existsb serves tp = false
    ∧ existsb serves treg = false
    ∧ (∀ e, registration_error (WS.run_registration r) = Some e →
         ∃ t0, treg = (t0 ++ registration_failure_lines e)%list)
    ∧ WS.command_count s' =
        WS.command_count s
        + Z.of_nat (valid_messages (ws_messages acks served))
    ∧ sent t2 = ws_replies acks served
    ∧ (WS.connected_clients s = ∅ → WS.connected_clients s' = ∅).
Proof.
  intros Hp Hr Hbind acks served ip.
  destruct (ws_start_spec r s w Hp Hr)
    as (s1 & tp & treg & Htp & Htreg & Ha & Hn & Hcl & Hfail & Hstart).
  cbv zeta in Hstart. rewrite Hbind in Hstart. fold ip acks in Hstart.
  set (w1 := after w _) in Hstart.
  destruct (ws_serve_sessions_effect (WS.run_sessions r) s1 w1)
    as (s2 & t2 & Hserve & Hn2 & Hst2 & Ha2 & Hcs2).
  rewrite Ha in Hserve, Hn2, Hst2. fold acks served in Hserve, Hn2, Hst2.
  rewrite Hn in Hn2. rewrite Hcl in Hcs2.
  rewrite Hserve in Hstart. exists s2, tp, treg, t2.
  split_and!; [|done..].
  rewrite Hstart. subst w1. rewrite !after_after, <- !app_assoc.
  destruct (ws_loop_stop acks (WS.run_sessions r)) as [e|] eqn:Hstop;
    [|done].
  cbn [outcome_of].
  assert (is_CancelledError e = false) as ->; [|done].
  apply ws_loop_stop_stops in Hstop. by destruct e.
Qed.




(** X11.  When the WebSocket server starts (the bind succeeds; the probe
    and the discovery library raise nothing but instances of [Exception]),
    a run whose sessions take place one after the other serves them up to
    the first one whose handler stops the event loop with a
    [KeyboardInterrupt] or a [SystemExit], whatever else the sessions
    raised; the sessions after that one are not served.  Then [shutdown]
    runs and the script ends normally, or by the [SystemExit] that stopped
    the loop.  At the end the counter is the number of valid commands
    among the messages that reached the loop body in the sessions served,
    the writes to clients are the replies to these messages (none without
    acknowledgments), and no client is left in [connected_clients]. *)
Theorem ws_run_serves_until_loop_stops (acks : bool) (r : WS.run) :
  (∀ e, e ∈ probe_errors (WS.run_probe r) → is_Exception e = true) →
  (∀ e, registration_error (WS.run_registration r) = Some e →
        is_Exception e = true) →
  WS.run_bind r = None →
  (∀ e, e ∈ retraction_errors (WS.run_retraction r) → is_Exception e = true) →
  let res := WS.script acks r initial_world in
  let served := ws_served acks (WS.run_sessions r) in
  result res = ws_script_result (ws_loop_stop acks (WS.run_sessions r))
  ∧ WS.command_count (final_state res) =
      Z.of_nat (valid_messages (ws_messages acks served))
  ∧ sent (trace (final_world res)) = ws_replies acks served
  ∧ WS.connected_clients (final_state res) = ∅.
Proof.
  intros Hp Hr Hbind Hu res served.
  destruct (ws_start_effect r (WS.init acks) initial_world Hp Hr Hbind)
    as (s1 & tp & treg & t2 & Hstart & Htp & Htreg & _ & Hn & Hst & Hcs).
  change (WS.send_acks (WS.init acks)) with acks in *.
  change (WS.command_count (WS.init acks)) with 0 in Hn.
  fold served in Hn, Hst.
  set (w1 := after initial_world _) in Hstart.
  destruct (ws_shutdown_spec s1 (WS.run_retraction r) Hu w1)
    as (Hres & Hs2 & _ & t & Ht & Hserves & _).
  pose proof (ws_loop_stop_stops acks (WS.run_sessions r)) as Hstop.
  assert (∀ w2,
            trace w2 =
              (trace w1 ++ [Log INFO (Text.nl +:+ "Shutting down server...")]
               ++ t ++ [Log INFO ("Total commands processed: "
                                  +:+ pretty (WS.command_count s1));
                        Log INFO "Server stopped"])%list →
            sent (trace w2) = ws_replies acks served) as Hsent.
  { intros w2 ->. subst w1. unfold after. cbn [trace].
    rewrite !sent_app, (serves_nobody_sends_nothing tp Htp),
      (serves_nobody_sends_nothing treg Htreg),
      (serves_nobody_sends_nothing t Hserves), Hst.
    rewrite (serves_nobody_sends_nothing
               (ws_banner (default "127.0.0.1"
                             (probe_answer (WS.run_probe r))) acks)
               (banner_serves_nobody _ acks)).
    unfold ws_serving_lines. trace_facts. by rewrite ?app_nil_r. }
  subst res. unfold WS.script, WS.main. run. rewrite Hstart.
  clearbody w1.
  destruct (ws_loop_stop acks (WS.run_sessions r)) as [e|];
    [specialize (Hstop e eq_refl); destruct e; try discriminate Hstop|];
    cbn [outcome_of select_handler is_KeyboardInterrupt];
    destruct (WS.shutdown (WS.run_retraction r) s1 w1) as [[o s2] w2];
    unfold result, final_state, final_world in *;
    cbn [fst snd] in Hres, Hs2, Ht |- *; subst o s2; cbn [fst snd];
    (split_and!; [done|lia|by apply Hsent|by apply Hcs]).
Qed.

Lemma ws_run_serves_until_loop_stops_witness :
  let r := WS.Run (WS.Probe None None (inl "192.168.1.4") None)
                  (WS.Registration None None None) None
                  [(WS.WebSocket 1 ("10.0.0.5", 51234),
                    WS.Session [WS.Frame "forward" None; WS.Frame "jump" None]
                               (Some (OSError "reset")));
                   (WS.WebSocket 2 ("10.0.0.6", 51235),
                    WS.Session [WS.Frame " LEFT " None]
                               (Some KeyboardInterrupt));
                   (WS.WebSocket 3 ("10.0.0.7", 51236),
                    WS.Session [WS.Frame "right" None] None)]
                  (WS.Retraction (Answer (Some 5%N) None None)
                                 (Answer (Some 5%N) None None)) in
  let res := WS.script true r initial_world in
  result res = Return tt
  ∧ WS.command_count (final_state res) = 2
  ∧ sent (trace (final_world res)) =
      [Send 1 "OK:forward"; Send 1 "ERROR:Unknown command 'jump'";
       Send 2 "OK:left"].
Proof.
  intros r.
  assert (∀ e, e ∈ probe_errors (WS.run_probe r) → is_Exception e = true)
    as Hp by (intros e He; by apply elem_of_nil in He).
  assert (∀ e, registration_error (WS.run_registration r) = Some e →
               is_Exception e = true) as Hr by done.
  assert (∀ e, e ∈ retraction_errors (WS.run_retraction r) →
               is_Exception e = true) as Hu
    by (intros e He; by apply elem_of_nil in He).
  destruct (ws_run_serves_until_loop_stops true r Hp Hr eq_refl Hu)
    as (H1 & H2 & H3 & _).
  split_and!; [exact H1|exact H2|exact H3].
Defined.

(** ** The two transports side by side *)

Lemma payloads_sent t : payloads (sent t) = payloads t.
Proof.
  induction t as [|ev t IH]; [done|]. rewrite sent_cons.
  unfold payloads in *. rewrite flat_map_app. simpl. rewrite IH.
  by destruct ev.
Qed.

Lemma payloads_replies acks conn l :
  payloads (replies acks conn l) = if acks then map reply_to l else [].
Proof.
  unfold replies. destruct acks; [|done].
  induction l as [|m l IH]; [done|]. simpl. by rewrite IH.
Qed.

Lemma transports_process_alike acks ms ending :
  Forall (λ m, fst m ≠ "") ms →
  ws_processed acks (as_frames ms) = bt_processed acks (as_packets ms)
  ∧ ws_first_error acks (as_frames ms) ending
    = bt_first_error acks (as_packets ms) ending.
Proof.
  induction 1 as [|[text answer] ms Hm _ [IH1 IH2]]; [done|].
  simpl in Hm. destruct text as [|c d]; [done|]. simpl.
  destruct acks, answer; by rewrite ?IH1, ?IH2.
Qed.

(** X12.  The two servers treat a client alike.  For the same messages,
    none of them empty, with the same answers to the replies and the same
    end of the connection, a WebSocket session and a Bluetooth session of a
    running server end alike (both return, or both let the same exception
    go on), move the counter by the same number and write the same texts to
    the client in the same order.  (An empty message is where they differ:
    the Bluetooth server takes a zero-length read for the end of the
    connection.) *)
Theorem both_servers_treat_a_client_alike
        (ms : list (string * option exn)) (ending : option exn)
        (ws : WS.websocket) (ws_srv : WS.server) (w1 : world)
        (addr : string) (close_answer : option exn) (sock : nat)
        (bt_srv : BT.server) (w2 : world) :
  Forall (λ m, fst m ≠ "") ms →
  WS.send_acks ws_srv = BT.send_acks bt_srv →
  BT.running bt_srv = true → BT.client_sock bt_srv = Some sock →
  let r1 := WS.handle_client ws (WS.Session (as_frames ms) ending)
                             ws_srv w1 in
  let r2 := BT.handle_client addr
              (BT.Session (as_packets ms) ending close_answer) bt_srv w2 in
  result r1 = result r2
  ∧ WS.command_count (final_state r1) - WS.command_count ws_srv
    = BT.command_count (final_state r2) - BT.command_count bt_srv
  ∧ ∃ t1 t2,
      trace (final_world r1) = (trace w1 ++ t1)%list
      ∧ trace (final_world r2) = (trace w2 ++ t2)%list
      ∧ payloads t1 = payloads t2.
Proof.
  intros Hms Hacks Hr Hs. cbv zeta.
  destruct (transports_process_alike (BT.send_acks bt_srv) ms ending Hms)
    as (Hp & He).
  destruct (ws_handle_client_effect ws (WS.Session (as_frames ms) ending)
              ws_srv w1) as (s1 & t1 & -> & Hn1 & Hst1).
  destruct (bt_handle_client_effect addr
              (BT.Session (as_packets ms) ending close_answer)
              bt_srv w2 sock Hr Hs)
    as (s2 & t2 & -> & _ & Hn2 & Hst2 & _).
  cbn [WS.frames WS.ending BT.packets BT.ending] in *.
  rewrite Hacks in *. rewrite Hp in Hn1, Hst1. rewrite He.
  unfold result, final_state, final_world. cbn [fst snd].
  split_and!; [done|lia|].
  exists t1, (t2 ++ [Close sock])%list. split_and!; [done|done|].
  rewrite <- (payloads_sent t1), <- (payloads_sent (t2 ++ _)).
  rewrite sent_app, Hst1, Hst2, app_nil_r. by rewrite !payloads_replies.
Qed.

Lemma both_servers_treat_a_client_alike_witness :
  let ms := [(" Forward ", None); ("jump", None); ("left", None)] in
  let r1 := WS.handle_client (WS.WebSocket 1 ("10.0.0.5", 51234))
              (WS.Session (as_frames ms) None) (WS.init true)
              initial_world in
  let r2 := BT.handle_client "AA:01"
              (BT.Session (as_packets ms) None None)
              (BT.set_running true
                 (BT.set_client_sock (Some 7%nat) (BT.init true)))
              initial_world in
  result r1 = result r2
  ∧ WS.command_count (final_state r1) - 0
    = BT.command_count (final_state r2) - 0.
Proof.
  intros ms r1 r2.
  assert (Forall (λ m : string * option exn, fst m ≠ "") ms) as Hms
    by (by repeat constructor).
  destruct (both_servers_treat_a_client_alike ms None
              (WS.WebSocket 1 ("10.0.0.5", 51234)) (WS.init true)
              initial_world "AA:01" None 7%nat
              (BT.set_running true
                 (BT.set_client_sock (Some 7%nat) (BT.init true)))
              initial_world Hms eq_refl eq_refl eq_refl) as (H1 & H2 & _).
  split; [exact H1|exact H2].
Defined.
